(** * The block coordinator of the ledger node, as a state machine

    A shallow embedding of [BlockCoordinator] (the state handlers
    [OnReloadState] ... [OnReset], [QueryExecutorStatus], [UpdateTxStatus],
    [Reset]).  The coordinator drives the main chain, the storage unit, the
    execution manager and a few optional collaborators (DAG, stake manager,
    synergetic execution manager); none of their implementations is part of
    the coordinator, so they appear here as an abstract world [W] with one
    operation per member function the coordinator calls.

    Conventions of the embedding:
    - a handler is a computation in a state-and-fault monad over the
      coordinator's fields, the world, the list of collaborator commands it
      issued and the delay it requested from the state machine;
    - dereferencing a null pointer, a failing [assert] and an exception
      that leaves a handler are faults; a collaborator that the code calls
      in a [try] block may throw, and says so in its reply;
    - log output and the telemetry counters are left out, but for the
      pointers a log statement reads through; of the periodic timers that
      rate-limit log output only [exec_wait_periodic_] guards such a read,
      and the world says whether it is due (the timer's own state, with
      its [Reset] at scheduling, is part of the world);
    - the clock is read once per handler invocation ([now]). *)

From Stdlib Require Import NArith ZArith Lia List.
From stdpp Require Import base strings gmap list.
Import ListNotations.

Local Open Scope N_scope.

(** ** Data model *)

(** [ConstByteArray]: a string of bytes.  Digests, Merkle roots and
    addresses are byte arrays. *)
Abbreviation Digest := string (only parsing).
Abbreviation Address := string (only parsing).
Abbreviation DigestSet := (gset string) (only parsing).
Abbreviation Time := N (only parsing).
Abbreviation Epoch := N (only parsing).

Definition DIGEST_LENGTH_BYTES : N := 32.
Definition THRESHOLD_FOR_FAST_SYNCING : N := 100.
(** Intervals are in milliseconds. *)
Definition WAIT_BEFORE_ASKING_FOR_MISSING_TX_INTERVAL : N := 30000.
Definition WAIT_FOR_TX_TIMEOUT_INTERVAL : N := 30000.

Definition byte_size (d : Digest) : N := N.of_nat (String.length d).

Definition u64 (n : N) : N := n mod 2 ^ 64.
Definition u32 (n : N) : N := n mod 2 ^ 32.

Record BlockBody := {
  hash : Digest;
  previous_hash : Digest;
  merkle_hash : Digest;
  block_number : N;
  miner : Address;
  log2_num_lanes : N;
  (** a slice is the sequence of its transactions, each known to the
      coordinator by its digest only *)
  slices : list (list Digest);
  dag_epoch : Epoch
}.

Record Proof := { target : N; nonce : N }.

Record Block := {
  body : BlockBody;
  weight : N;
  proof : Proof
}.

Definition set_body (bd : BlockBody) (b : Block) : Block :=
  {| body := bd; weight := weight b; proof := proof b |}.
Definition set_weight (wt : N) (b : Block) : Block :=
  {| body := body b; weight := wt; proof := proof b |}.
(** [proof.SetTarget] *)
Definition SetTarget (t : N) (b : Block) : Block :=
  {| body := body b; weight := weight b;
     proof := {| target := t; nonce := nonce (proof b) |} |}.

Definition body_set_hash (h : Digest) (bd : BlockBody) : BlockBody :=
  {| hash := h; previous_hash := previous_hash bd; merkle_hash := merkle_hash bd;
     block_number := block_number bd; miner := miner bd;
     log2_num_lanes := log2_num_lanes bd; slices := slices bd;
     dag_epoch := dag_epoch bd |}.
Definition body_set_previous_hash (h : Digest) (bd : BlockBody) : BlockBody :=
  {| hash := hash bd; previous_hash := h; merkle_hash := merkle_hash bd;
     block_number := block_number bd; miner := miner bd;
     log2_num_lanes := log2_num_lanes bd; slices := slices bd;
     dag_epoch := dag_epoch bd |}.
Definition body_set_merkle_hash (h : Digest) (bd : BlockBody) : BlockBody :=
  {| hash := hash bd; previous_hash := previous_hash bd; merkle_hash := h;
     block_number := block_number bd; miner := miner bd;
     log2_num_lanes := log2_num_lanes bd; slices := slices bd;
     dag_epoch := dag_epoch bd |}.
Definition body_set_block_number (n : N) (bd : BlockBody) : BlockBody :=
  {| hash := hash bd; previous_hash := previous_hash bd; merkle_hash := merkle_hash bd;
     block_number := n; miner := miner bd;
     log2_num_lanes := log2_num_lanes bd; slices := slices bd;
     dag_epoch := dag_epoch bd |}.
Definition body_set_miner (a : Address) (bd : BlockBody) : BlockBody :=
  {| hash := hash bd; previous_hash := previous_hash bd; merkle_hash := merkle_hash bd;
     block_number := block_number bd; miner := a;
     log2_num_lanes := log2_num_lanes bd; slices := slices bd;
     dag_epoch := dag_epoch bd |}.
Definition body_set_dag_epoch (e : Epoch) (bd : BlockBody) : BlockBody :=
  {| hash := hash bd; previous_hash := previous_hash bd; merkle_hash := merkle_hash bd;
     block_number := block_number bd; miner := miner bd;
     log2_num_lanes := log2_num_lanes bd; slices := slices bd;
     dag_epoch := e |}.

(** The states of the coordinator. *)
Inductive State :=
| RELOAD_STATE
| SYNCHRONISING
| SYNCHRONISED
| PRE_EXEC_BLOCK_VALIDATION
| WAIT_FOR_TRANSACTIONS
| SYNERGETIC_EXECUTION
| SCHEDULE_BLOCK_EXECUTION
| WAIT_FOR_EXECUTION
| POST_EXEC_BLOCK_VALIDATION
| PACK_NEW_BLOCK
| NEW_SYNERGETIC_EXECUTION
| EXECUTE_NEW_BLOCK
| WAIT_FOR_NEW_BLOCK_EXECUTION
| PROOF_SEARCH
| TRANSMIT_BLOCK
| RESET.

Global Instance State_eq_dec : EqDecision State.
Proof. solve_decision. Defined.

(** [ExecutionManagerInterface::State]; the constructors carry a prefix
    because the coordinator's own [ExecutionStatus] has an [IDLE] too. *)
Inductive ExecutionState :=
| ES_IDLE
| ES_ACTIVE
| ES_TRANSACTIONS_UNAVAILABLE
| ES_EXECUTION_ABORTED
| ES_EXECUTION_FAILED.

(** [BlockCoordinator::ExecutionStatus] *)
Inductive ExecutionStatus := IDLE | RUNNING | STALLED | ERROR.

(** Modelled from the spec: the result of [ExecutionManagerInterface::Execute]
    (the enumeration is declared outside the coordinator); the coordinator
    only distinguishes [SCHEDULED] from everything else. *)
Inductive ScheduleStatus := SCHEDULED | NOT_SCHEDULED (code : N).

(** Modelled from the spec: the result of [MainChain::AddBlock]. *)
Inductive BlockStatus := ADDED | ALREADY_PRESENT | REJECTED.

(** Modelled from the spec: the status of
    [SynergeticExecutionManagerInterface::PrepareWorkQueue]; the coordinator
    only distinguishes [SUCCESS] from everything else. *)
Inductive SynExecStatus := SUCCESS | SYN_FAILURE (code : N).

Inductive BehaviourWhenLimit := RETURN_LEAST_RECENT | RETURN_MOST_RECENT.

Inductive TransactionStatus := EXECUTED.

(** Modelled from the spec: the deadline timer (declared outside the
    coordinator) is a one-shot countdown; [Restart] arms it [period] after
    the clock reading, and it has expired once the clock reaches the
    deadline. *)
Record DeadlineTimer := { deadline : Time }.
Definition Restart (now : Time) (period : N) : DeadlineTimer :=
  {| deadline := now + period |}.
Definition HasExpired (now : Time) (t : DeadlineTimer) : bool :=
  deadline t <=? now.

(** ** Collaborators *)

(** Member functions of the collaborators that only observe. *)
Inductive Query : Type → Type :=
(* MainChain *)
| GetHeaviestBlock : Query (option Block)
| GetHeaviestBlockHash : Query Digest
| GetBlock (h : Digest) : Query (option Block)
| GetPathToCommonAncestor (tip last : Digest) (limit : N) (b : BehaviourWhenLimit)
    : Query (bool * list Block)
(* StorageUnitInterface *)
| CurrentHash : Query Digest
| LastCommitHash : Query Digest
| HashExists (h : Digest) (index : N) : Query bool
| HasTransaction (d : Digest) : Query bool
(* ExecutionManagerInterface *)
| GetState : Query ExecutionState
| LastProcessedBlock : Query Digest
(* [exec_wait_periodic_.Poll()]: is the periodic log message due *)
| ExecWaitPoll : Query bool
(* DAGInterface *)
| CurrentEpoch : Query N
(* StakeManagerInterface *)
| ShouldGenerateBlock (previous : Block) (a : Address) : Query bool
| ValidMinerForBlock (previous : Block) (a : Address) : Query bool
| GetBlockGenerationWeight (previous : Block) (a : Address) : Query N.

(** Member functions of the collaborators that act.  [AddBlock], [Update]
    and [OnBlock] are called in a [try] block and may throw: their reply is
    [None] then.  [GenerateBlock] and [Mine] work on the block they are
    given: their reply has the block as they leave it, with, for
    [GenerateBlock], whether it returned ([false]: it threw) and, for
    [Mine], whether a proof was found. *)
Inductive Command : Type :=
(* MainChain *)
| RemoveBlock (h : Digest)
| AddBlock (b : Block)
| ChainReset
(* StorageUnitInterface *)
| RevertToHash (h : Digest) (index : N)
| Commit (index : N)
| IssueCallForMissingTxs (s : DigestSet)
(* ExecutionManagerInterface *)
| Execute (bd : BlockBody)
| SetLastProcessedBlock (h : Digest)
(* DAGInterface *)
| RevertToEpoch (n : N)
| CreateEpoch (n : N)
| SatisfyEpoch (e : Epoch)
| CommitEpoch (e : Epoch)
(* StakeManagerInterface *)
| UpdateCurrentBlock (b : Block)
(* SynergeticExecutionManagerInterface *)
| PrepareWorkQueue (current previous : Block)
| ValidateWorkAndUpdateState (n : N) (lanes : N)
(* BlockPackerInterface *)
| GenerateBlock (b : Block) (lanes slices_ : N)
(* BlockSinkInterface *)
| OnBlock (b : Block)
(* TransactionStatusCache *)
| Update (d : Digest) (s : TransactionStatus)
(* consensus miner *)
| Mine (b : Block) (attempts : N).

Definition Reply (c : Command) : Type :=
  match c with
  | RemoveBlock _ => unit
  | AddBlock _ => option BlockStatus
  | ChainReset => unit
  | RevertToHash _ _ => bool
  | Commit _ => unit
  | IssueCallForMissingTxs _ => unit
  | Execute _ => ScheduleStatus
  | SetLastProcessedBlock _ => unit
  | RevertToEpoch _ => bool
  | CreateEpoch _ => Epoch
  | SatisfyEpoch _ => bool
  | CommitEpoch _ => unit
  | UpdateCurrentBlock _ => unit
  | PrepareWorkQueue _ _ => SynExecStatus
  | ValidateWorkAndUpdateState _ _ => bool
  | GenerateBlock _ _ _ => (bool * Block)%type
  | OnBlock _ => option unit
  | Update _ _ => option unit
  | Mine _ _ => (bool * Block)%type
  end.

(** The world the coordinator runs in: what its collaborators answer and
    how they change.  [UpdateDigest] is [Block::UpdateDigest], the content
    digest of a block. *)
Record Collaborators (W : Type) := {
  ask : ∀ R, Query R → W → R;
  perform : ∀ c : Command, W → Reply c * W;
  UpdateDigest : Block → Digest
}.
Arguments ask {W} _ {R} _ _.
Arguments perform {W} _ _ _.
Arguments UpdateDigest {W} _ _.

(** What the constructor fixes. *)
Record Config := {
  dag_ : bool;                 (** is the DAG pointer non-null *)
  stake_ : bool;               (** is the stake manager pointer non-null *)
  synergetic_exec_mgr_ : bool; (** was the synergetic feature enabled *)
  mining_address_ : Address;
  block_difficulty_ : N;
  num_lanes_ : N;
  num_slices_ : N;
  GENESIS_DIGEST : Digest;
  GENESIS_MERKLE_ROOT : Digest;
  COMMON_PATH_TO_ANCESTOR_LENGTH_LIMIT : N;
  (** a default-constructed [Block] *)
  Block_default : Block;
  (** what the compiled code makes of [1u << n] for [n >= 32], which C++
      leaves undefined *)
  shift_out_of_range : N → N
}.

(** [1u << n] on 32 bits. *)
Definition shift_left_32 (cfg : Config) (n : N) : N :=
  if n <? 32 then N.shiftl 1 n else u32 (shift_out_of_range cfg n).

(** The coordinator's mutable fields. *)
Record Coord := {
  current_block_ : option Block;
  next_block_ : option Block;
  pending_txs_ : option DigestSet;
  blocks_to_common_ancestor_ : list Block;
  last_executed_block_ : Digest;
  next_block_time_ : Time;
  block_period_ : N;
  mining_ : bool;
  mining_enabled_ : bool;
  have_asked_for_missing_txs_ : bool;
  wait_for_tx_timeout_ : DeadlineTimer;
  wait_before_asking_for_missing_tx_ : DeadlineTimer
}.

Definition set_current_block_ (v : option Block) (c : Coord) : Coord :=
  {| current_block_ := v; next_block_ := next_block_ c;
     pending_txs_ := pending_txs_ c;
     blocks_to_common_ancestor_ := blocks_to_common_ancestor_ c;
     last_executed_block_ := last_executed_block_ c;
     next_block_time_ := next_block_time_ c; block_period_ := block_period_ c;
     mining_ := mining_ c; mining_enabled_ := mining_enabled_ c;
     have_asked_for_missing_txs_ := have_asked_for_missing_txs_ c;
     wait_for_tx_timeout_ := wait_for_tx_timeout_ c;
     wait_before_asking_for_missing_tx_ := wait_before_asking_for_missing_tx_ c |}.
Definition set_next_block_ (v : option Block) (c : Coord) : Coord :=
  {| current_block_ := current_block_ c; next_block_ := v;
     pending_txs_ := pending_txs_ c;
     blocks_to_common_ancestor_ := blocks_to_common_ancestor_ c;
     last_executed_block_ := last_executed_block_ c;
     next_block_time_ := next_block_time_ c; block_period_ := block_period_ c;
     mining_ := mining_ c; mining_enabled_ := mining_enabled_ c;
     have_asked_for_missing_txs_ := have_asked_for_missing_txs_ c;
     wait_for_tx_timeout_ := wait_for_tx_timeout_ c;
     wait_before_asking_for_missing_tx_ := wait_before_asking_for_missing_tx_ c |}.
Definition set_pending_txs_ (v : option DigestSet) (c : Coord) : Coord :=
  {| current_block_ := current_block_ c; next_block_ := next_block_ c;
     pending_txs_ := v;
     blocks_to_common_ancestor_ := blocks_to_common_ancestor_ c;
     last_executed_block_ := last_executed_block_ c;
     next_block_time_ := next_block_time_ c; block_period_ := block_period_ c;
     mining_ := mining_ c; mining_enabled_ := mining_enabled_ c;
     have_asked_for_missing_txs_ := have_asked_for_missing_txs_ c;
     wait_for_tx_timeout_ := wait_for_tx_timeout_ c;
     wait_before_asking_for_missing_tx_ := wait_before_asking_for_missing_tx_ c |}.
Definition set_blocks_to_common_ancestor_ (v : list Block) (c : Coord) : Coord :=
  {| current_block_ := current_block_ c; next_block_ := next_block_ c;
     pending_txs_ := pending_txs_ c;
     blocks_to_common_ancestor_ := v;
     last_executed_block_ := last_executed_block_ c;
     next_block_time_ := next_block_time_ c; block_period_ := block_period_ c;
     mining_ := mining_ c; mining_enabled_ := mining_enabled_ c;
     have_asked_for_missing_txs_ := have_asked_for_missing_txs_ c;
     wait_for_tx_timeout_ := wait_for_tx_timeout_ c;
     wait_before_asking_for_missing_tx_ := wait_before_asking_for_missing_tx_ c |}.
(** [last_executed_block_.Set] *)
Definition set_last_executed_block_ (v : Digest) (c : Coord) : Coord :=
  {| current_block_ := current_block_ c; next_block_ := next_block_ c;
     pending_txs_ := pending_txs_ c;
     blocks_to_common_ancestor_ := blocks_to_common_ancestor_ c;
     last_executed_block_ := v;
     next_block_time_ := next_block_time_ c; block_period_ := block_period_ c;
     mining_ := mining_ c; mining_enabled_ := mining_enabled_ c;
     have_asked_for_missing_txs_ := have_asked_for_missing_txs_ c;
     wait_for_tx_timeout_ := wait_for_tx_timeout_ c;
     wait_before_asking_for_missing_tx_ := wait_before_asking_for_missing_tx_ c |}.
Definition set_next_block_time_ (v : Time) (c : Coord) : Coord :=
  {| current_block_ := current_block_ c; next_block_ := next_block_ c;
     pending_txs_ := pending_txs_ c;
     blocks_to_common_ancestor_ := blocks_to_common_ancestor_ c;
     last_executed_block_ := last_executed_block_ c;
     next_block_time_ := v; block_period_ := block_period_ c;
     mining_ := mining_ c; mining_enabled_ := mining_enabled_ c;
     have_asked_for_missing_txs_ := have_asked_for_missing_txs_ c;
     wait_for_tx_timeout_ := wait_for_tx_timeout_ c;
     wait_before_asking_for_missing_tx_ := wait_before_asking_for_missing_tx_ c |}.
Definition set_have_asked_for_missing_txs_ (v : bool) (c : Coord) : Coord :=
  {| current_block_ := current_block_ c; next_block_ := next_block_ c;
     pending_txs_ := pending_txs_ c;
     blocks_to_common_ancestor_ := blocks_to_common_ancestor_ c;
     last_executed_block_ := last_executed_block_ c;
     next_block_time_ := next_block_time_ c; block_period_ := block_period_ c;
     mining_ := mining_ c; mining_enabled_ := mining_enabled_ c;
     have_asked_for_missing_txs_ := v;
     wait_for_tx_timeout_ := wait_for_tx_timeout_ c;
     wait_before_asking_for_missing_tx_ := wait_before_asking_for_missing_tx_ c |}.
Definition set_wait_for_tx_timeout_ (v : DeadlineTimer) (c : Coord) : Coord :=
  {| current_block_ := current_block_ c; next_block_ := next_block_ c;
     pending_txs_ := pending_txs_ c;
     blocks_to_common_ancestor_ := blocks_to_common_ancestor_ c;
     last_executed_block_ := last_executed_block_ c;
     next_block_time_ := next_block_time_ c; block_period_ := block_period_ c;
     mining_ := mining_ c; mining_enabled_ := mining_enabled_ c;
     have_asked_for_missing_txs_ := have_asked_for_missing_txs_ c;
     wait_for_tx_timeout_ := v;
     wait_before_asking_for_missing_tx_ := wait_before_asking_for_missing_tx_ c |}.
Definition set_wait_before_asking_for_missing_tx_ (v : DeadlineTimer) (c : Coord) : Coord :=
  {| current_block_ := current_block_ c; next_block_ := next_block_ c;
     pending_txs_ := pending_txs_ c;
     blocks_to_common_ancestor_ := blocks_to_common_ancestor_ c;
     last_executed_block_ := last_executed_block_ c;
     next_block_time_ := next_block_time_ c; block_period_ := block_period_ c;
     mining_ := mining_ c; mining_enabled_ := mining_enabled_ c;
     have_asked_for_missing_txs_ := have_asked_for_missing_txs_ c;
     wait_for_tx_timeout_ := wait_for_tx_timeout_ c;
     wait_before_asking_for_missing_tx_ := v |}.

(** ** The handler monad *)

Inductive Pointer :=
| p_current_block_ | p_next_block_ | p_pending_txs_ | p_previous_block
| p_dag_ | p_stake_ | p_synergetic_exec_mgr_.

Inductive Fault :=
| NullDereference (p : Pointer)
| AssertionFailed
| UncaughtException.

Inductive Result (A : Type) :=
| Ok (a : A)
| Faulted (f : Fault).
Arguments Ok {A} _.
Arguments Faulted {A} _.

(** What a handler invocation works on: the coordinator's fields, the world,
    the commands issued so far (oldest first) and the delay requested through
    [state_machine_->Delay], in milliseconds. *)
Record Machine (W : Type) := {
  coord : Coord;
  world : W;
  calls : list Command;
  delay : option N
}.
Arguments coord {W} _.
Arguments world {W} _.
Arguments calls {W} _.
Arguments delay {W} _.

Definition M (W A : Type) : Type := Machine W → Result (A * Machine W).

Definition ret {W A} (a : A) : M W A := λ m, Ok (a, m).
Definition bind {W A B} (x : M W A) (k : A → M W B) : M W B :=
  λ m, match x m with
       | Ok (a, m') => k a m'
       | Faulted f => Faulted f
       end.
Definition fault {W A} (f : Fault) : M W A := λ _, Faulted f.

Declare Scope coord_scope.
Delimit Scope coord_scope with coord.
Notation "x <- e ;; k" := (bind e (λ x, k))
  (at level 100, e at next level, right associativity) : coord_scope.
Notation "e ;; k" := (bind e (λ _, k))
  (at level 100, right associativity) : coord_scope.
Local Open Scope coord_scope.

Definition read {W A} (f : Coord → A) : M W A := λ m, Ok (f (coord m), m).
Definition modify {W} (f : Coord → Coord) : M W unit :=
  λ m, Ok (tt, {| coord := f (coord m); world := world m;
                  calls := calls m; delay := delay m |}).
(** [state_machine_->Delay] *)
Definition Delay {W} (ms : N) : M W unit :=
  λ m, Ok (tt, {| coord := coord m; world := world m;
                  calls := calls m; delay := Some ms |}).
Definition deref {W A} (p : Pointer) (o : option A) : M W A :=
  match o with
  | Some a => ret a
  | None => fault (NullDereference p)
  end.
Definition when {W} (b : bool) (x : M W unit) : M W unit :=
  if b then x else ret tt.
(** the world as the handler finds it at this point *)
Definition the_world {W} : M W W := λ m, Ok (world m, m).

(** ** The coordinator *)

Section BlockCoordinator.
Context {W : Type} (col : Collaborators W) (cfg : Config).

Local Abbreviation M := (M W).

Definition query {R} (q : Query R) : M R :=
  λ m, Ok (ask col q (world m), m).

(** what a command answers in a world, and the world it leaves *)
Definition reply (c : Command) (w : W) : Reply c := fst (perform col c w).
Definition after (c : Command) (w : W) : W := snd (perform col c w).

Definition call (c : Command) : M (Reply c) :=
  λ m, Ok (reply c (world m),
           {| coord := coord m; world := after c (world m);
              calls := calls m ++ [c]; delay := delay m |}).

(** [dag_->...], [stake_->...], [synergetic_exec_mgr_->...]: a call
    through a pointer that may be null. *)
Definition through {A} (present : bool) (p : Pointer) (x : M A) : M A :=
  if present then x else fault (NullDereference p).
Definition dag {A} (x : M A) : M A := through (dag_ cfg) p_dag_ x.
Definition stake {A} (x : M A) : M A := through (stake_ cfg) p_stake_ x.
Definition synergetic {A} (x : M A) : M A :=
  through (synergetic_exec_mgr_ cfg) p_synergetic_exec_mgr_ x.

(** [*current_block_] and [*next_block_] *)
Definition current_block : M Block :=
  cb <- read current_block_ ;; deref p_current_block_ cb.
Definition next_block : M Block :=
  nb <- read next_block_ ;; deref p_next_block_ nb.
(** an assignment to a member of [*next_block_] *)
Definition update_next_block (f : Block → Block) : M unit :=
  nb <- next_block ;; modify (set_next_block_ (Some (f nb))).

Definition UpdateNextBlockTime (now : Time) : M unit :=
  period <- read block_period_ ;;
  modify (set_next_block_time_ (now + period)).

Definition TriggerBlockGeneration (now : Time) : M unit :=
  mining <- read mining_ ;;
  when mining (modify (set_next_block_time_ now)).

(** A loop whose body may throw ([None]): the loop ends there, and throws
    itself. *)
Fixpoint for_each {A} (l : list A) (f : A → M (option unit)) : M (option unit) :=
  match l with
  | [] => ret (Some tt)
  | a :: l' =>
      r <- f a ;;
      match r with
      | Some _ => for_each l' f
      | None => ret None
      end
  end.

(** Outside a [try] block an exception leaves the handler. *)
Definition uncaught {A} (x : M (option A)) : M A :=
  r <- x ;;
  match r with
  | Some a => ret a
  | None => fault UncaughtException
  end.

Definition UpdateTxStatus (block : Block) : M (option unit) :=
  for_each (slices (body block)) (λ slice,
    for_each slice (λ tx, call (Update tx EXECUTED))).

Definition QueryExecutorStatus : M ExecutionStatus :=
  execution_state <- query GetState ;;
  match execution_state with
  | ES_IDLE => ret IDLE
  | ES_ACTIVE => ret RUNNING
  | ES_TRANSACTIONS_UNAVAILABLE => ret STALLED
  | ES_EXECUTION_ABORTED
  | ES_EXECUTION_FAILED => ret ERROR
  end.

Definition ScheduleBlock (block : Block) : M bool :=
  execution_status <- call (Execute (body block)) ;;
  match execution_status with
  | SCHEDULED => ret true
  | NOT_SCHEDULED _ => ret false
  end.

Definition ScheduleCurrentBlock : M bool :=
  cb <- read current_block_ ;;
  match cb with
  | Some b => ScheduleBlock b
  | None => ret false
  end.

Definition ScheduleNextBlock : M bool :=
  nb <- read next_block_ ;;
  match nb with
  | Some b => ScheduleBlock b
  | None => ret false
  end.

Definition OnReloadState : M State :=
  cb <- read current_block_ ;;
  match cb with
  | None =>
      heaviest <- query GetHeaviestBlock ;;
      modify (set_current_block_ heaviest)
  | Some _ => ret tt
  end ;;
  cb <- read current_block_ ;;
  match cb with
  | None => fault AssertionFailed
  | Some cur =>
      (if decide (GENESIS_DIGEST cfg ≠ previous_hash (body cur)) then
         revert_success <-
           call (RevertToHash (merkle_hash (body cur)) (block_number (body cur))) ;;
         revert_success_dag <-
           (if dag_ cfg then dag (call (RevertToEpoch (block_number (body cur))))
            else ret true) ;;
         if revert_success && revert_success_dag then
           call (SetLastProcessedBlock (hash (body cur))) ;;
           modify (set_last_executed_block_ (hash (body cur)))
         else ret tt
       else ret tt) ;;
      ret RESET
  end.

(** [blocks_to_common_ancestor_.pop_back()] *)
Definition pop_back (l : list Block) : list Block := removelast l.

Definition OnSynchronising : M State :=
  cb <- read current_block_ ;;
  match cb with
  | None =>
      heaviest <- query GetHeaviestBlock ;;
      modify (set_current_block_ heaviest)
  | Some _ => ret tt
  end ;;
  cb <- read current_block_ ;;
  match cb with
  | None => Delay 500 ;; ret RESET
  | Some cur =>
    if decide (hash (body cur) = EmptyString) then Delay 500 ;; ret RESET
    else
      let current_hash := hash (body cur) in
      let previous_hash := previous_hash (body cur) in
      last_committed_state <- query LastCommitHash ;;
      current_state <- query CurrentHash ;;
      last_processed_block <- query LastProcessedBlock ;;
      current_dag_epoch <- (if dag_ cfg then dag (query CurrentEpoch) else ret 0) ;;
      if decide (GENESIS_DIGEST cfg = last_processed_block) then
        if decide (GENESIS_DIGEST cfg = previous_hash) then
          ret PRE_EXEC_BLOCK_VALIDATION
        else
          previous_block <- query (GetBlock previous_hash) ;;
          match previous_block with
          | None => ret RESET
          | Some _ =>
              modify (set_current_block_ previous_block) ;;
              ret SYNCHRONISING
          end
      else if decide (current_hash = last_processed_block) then
        ret SYNCHRONISED
      else
        cached <- read blocks_to_common_ancestor_ ;;
        lookup_success <-
          match cached with
          | [] =>
              r <- query (GetPathToCommonAncestor current_hash last_processed_block
                            (COMMON_PATH_TO_ANCESTOR_LENGTH_LIMIT cfg)
                            RETURN_LEAST_RECENT) ;;
              modify (set_blocks_to_common_ancestor_ (snd r)) ;;
              ret (fst r)
          | _ :: _ => ret true
          end ;;
        if negb lookup_success then ret RESET
        else
          path <- read blocks_to_common_ancestor_ ;;
          (* assert(blocks_to_common_ancestor_.size() >= 2), then the two
             entries read through the reverse iterator *)
          match rev path with
          | common_parent :: next_block :: _ =>
              state_known <-
                query (HashExists (merkle_hash (body common_parent))
                                  (block_number (body common_parent))) ;;
              if negb state_known then
                call (SetLastProcessedBlock (GENESIS_DIGEST cfg)) ;;
                call (RevertToHash (GENESIS_MERKLE_ROOT cfg) 0) ;;
                (if dag_ cfg then dag (call (RevertToEpoch 0)) ;; ret tt
                 else ret tt) ;;
                Delay 5000 ;;
                ret RESET
              else
                reverted <-
                  call (RevertToHash (merkle_hash (body common_parent))
                                     (block_number (body common_parent))) ;;
                if negb reverted then Delay 5000 ;; ret RESET
                else
                  dag_failed <-
                    (if dag_ cfg then
                       r <- dag (call (RevertToEpoch (block_number (body common_parent)))) ;;
                       ret (negb r)
                     else ret false) ;;
                  if dag_failed then Delay 5000 ;; ret RESET
                  else
                    modify (set_current_block_ (Some next_block)) ;;
                    modify (λ c, set_blocks_to_common_ancestor_
                                   (pop_back (blocks_to_common_ancestor_ c)) c) ;;
                    remaining <- read blocks_to_common_ancestor_ ;;
                    when (N.of_nat (length remaining) <? THRESHOLD_FOR_FAST_SYNCING)
                         (modify (set_blocks_to_common_ancestor_ [])) ;;
                    ret PRE_EXEC_BLOCK_VALIDATION
          | _ => fault AssertionFailed
          end
  end.

Definition OnSynchronised (now : Time) (current previous : State) : M State :=
  cur <- current_block ;;
  heaviest <- query GetHeaviestBlockHash ;;
  if decide (heaviest ≠ hash (body cur)) then ret RESET
  else
    mining <- read mining_ ;;
    mining_enabled <- read mining_enabled_ ;;
    next_block_time <- read next_block_time_ ;;
    if mining && mining_enabled && (next_block_time <=? now) then
      may_generate <-
        (if stake_ cfg then stake (query (ShouldGenerateBlock cur (mining_address_ cfg)))
         else ret true) ;;
      if negb may_generate then
        Delay 100 ;; ret SYNCHRONISED
      else
        modify (set_next_block_ (Some (Block_default cfg))) ;;
        update_next_block (λ b, set_body (body_set_previous_hash (hash (body cur)) (body b)) b) ;;
        update_next_block (λ b,
          set_body (body_set_block_number (u64 (block_number (body cur) + 1)) (body b)) b) ;;
        update_next_block (λ b, set_body (body_set_miner (mining_address_ cfg) (body b)) b) ;;
        (if stake_ cfg then
           wt <- stake (query (GetBlockGenerationWeight cur (mining_address_ cfg))) ;;
           update_next_block (set_weight wt)
         else ret tt) ;;
        (if dag_ cfg then
           nb <- next_block ;;
           e <- dag (call (CreateEpoch (block_number (body nb)))) ;;
           update_next_block (λ b, set_body (body_set_dag_epoch e (body b)) b)
         else ret tt) ;;
        update_next_block (SetTarget (block_difficulty_ cfg)) ;;
        modify (set_current_block_ None) ;;
        ret NEW_SYNERGETIC_EXECUTION
    else if decide (SYNCHRONISING = previous) then
      ret SYNCHRONISED
    else
      Delay 100 ;; ret SYNCHRONISED.

(** The structural checks of [OnPreExecBlockValidation], up to the first
    [return fail(reason)]: the reason of the failure, if any.  The lane
    count is [1u << log2_num_lanes], a 32-bit shift, which is undefined in
    C++ from 32 on: see [shift_left_32]. *)
Inductive Reason :=
| No_previous_block_in_chain
| Block_signed_by_miner_deemed_invalid
| Incorrect_stake_weight
| Block_number_mismatch
| Lane_count_mismatch
| Slice_count_mismatch
| Previous_block_hash_size_mismatch.

Definition pre_exec_checks (cur : Block) (is_genesis : bool) : M (option Reason) :=
  failed <-
    (if negb is_genesis then
       previous <- query (GetBlock (previous_hash (body cur))) ;;
       match previous with
       | None => ret (Some No_previous_block_in_chain)
       | Some prev =>
           staked <-
             (if stake_ cfg then
                valid <- stake (query (ValidMinerForBlock prev (miner (body cur)))) ;;
                if negb valid then ret (Some Block_signed_by_miner_deemed_invalid)
                else
                  wt <- stake (query (GetBlockGenerationWeight prev (miner (body cur)))) ;;
                  if decide (weight cur ≠ wt) then ret (Some Incorrect_stake_weight)
                  else ret None
              else ret None) ;;
           match staked with
           | Some r => ret (Some r)
           | None =>
               let expected_block_number := u64 (block_number (body prev) + 1) in
               if decide (expected_block_number ≠ block_number (body cur)) then
                 ret (Some Block_number_mismatch)
               else if decide (num_lanes_ cfg
                                ≠ shift_left_32 cfg (log2_num_lanes (body cur))) then
                 ret (Some Lane_count_mismatch)
               else if decide (num_slices_ cfg ≠ N.of_nat (length (slices (body cur)))) then
                 ret (Some Slice_count_mismatch)
               else ret None
           end
       end
     else ret None) ;;
  match failed with
  | Some r => ret (Some r)
  | None =>
      if decide (DIGEST_LENGTH_BYTES ≠ byte_size (previous_hash (body cur))) then
        ret (Some Previous_block_hash_size_mismatch)
      else ret None
  end.

Definition OnPreExecBlockValidation : M State :=
  cur <- current_block ;;
  let is_genesis := bool_decide (previous_hash (body cur) = GENESIS_DIGEST cfg) in
  let fail (reason : Reason) : M State :=
    call (RemoveBlock (hash (body cur))) ;; ret RESET in
  failed <- pre_exec_checks cur is_genesis ;;
  match failed with
  | Some reason => fail reason
  | None =>
      if negb is_genesis && synergetic_exec_mgr_ cfg then
        previous_block <- query (GetBlock (previous_hash (body cur))) ;;
        prev <- deref p_previous_block previous_block ;;
        result <- synergetic (call (PrepareWorkQueue cur prev)) ;;
        match result with
        | SUCCESS => ret WAIT_FOR_TRANSACTIONS
        | SYN_FAILURE _ =>
            call (RemoveBlock (hash (body cur))) ;;
            ret RESET
        end
      else ret WAIT_FOR_TRANSACTIONS
  end.

Definition OnSynergeticExecution : M State :=
  cur <- current_block ;;
  let is_genesis := bool_decide (previous_hash (body cur) = GENESIS_DIGEST cfg) in
  if negb is_genesis && synergetic_exec_mgr_ cfg then
    previous_block <- query (GetBlock (previous_hash (body cur))) ;;
    match previous_block with
    | None => ret RESET
    | Some prev =>
        status <- synergetic (call (PrepareWorkQueue cur prev)) ;;
        match status with
        | SYN_FAILURE _ => ret RESET
        | SUCCESS =>
            valid <- synergetic (call (ValidateWorkAndUpdateState
                                         (block_number (body cur)) (num_lanes_ cfg))) ;;
            if negb valid then
              call (RemoveBlock (hash (body cur))) ;;
              ret RESET
            else ret SCHEDULE_BLOCK_EXECUTION
        end
    end
  else ret SCHEDULE_BLOCK_EXECUTION.

(** the digests of all transactions of all slices *)
Definition block_digests (b : Block) : DigestSet :=
  list_to_set (concat (slices (body b))).

(** the loop that erases from the set every digest the storage has *)
Definition still_missing (w : W) (s : DigestSet) : DigestSet :=
  filter (λ d, ask col (HasTransaction d) w = false) s.

Definition OnWaitForTransactions (now : Time) (current previous : State) : M State :=
  timed_out <-
    (if decide (previous = current) then
       asked <- read have_asked_for_missing_txs_ ;;
       if asked then
         timeout <- read wait_for_tx_timeout_ ;;
         if HasExpired now timeout then
           cur <- current_block ;;
           call (RemoveBlock (hash (body cur))) ;;
           ret true
         else ret false
       else
         ask_timer <- read wait_before_asking_for_missing_tx_ ;;
         (if HasExpired now ask_timer then
            pending <- read pending_txs_ ;;
            txs <- deref p_pending_txs_ pending ;;
            call (IssueCallForMissingTxs txs) ;;
            modify (set_have_asked_for_missing_txs_ true) ;;
            modify (set_wait_for_tx_timeout_ (Restart now WAIT_FOR_TX_TIMEOUT_INTERVAL))
          else ret tt) ;;
         ret false
     else
       modify (set_wait_before_asking_for_missing_tx_
                 (Restart now WAIT_BEFORE_ASKING_FOR_MISSING_TX_INTERVAL)) ;;
       modify (set_have_asked_for_missing_txs_ false) ;;
       ret false) ;;
  if (timed_out : bool) then ret RESET
  else
    dag_is_ready <-
      (if dag_ cfg then
         cur <- current_block ;;
         dag (call (SatisfyEpoch (dag_epoch (body cur))))
       else ret true) ;;
    pending <- read pending_txs_ ;;
    match pending with
    | None =>
        cur <- current_block ;;
        modify (set_pending_txs_ (Some (block_digests cur)))
    | Some _ => ret tt
    end ;;
    pending <- read pending_txs_ ;;
    txs <- deref p_pending_txs_ pending ;;
    w <- the_world ;;
    let missing := still_missing w txs in
    modify (set_pending_txs_ (Some missing)) ;;
    if bool_decide (missing = ∅) && dag_is_ready then
      modify (set_pending_txs_ None) ;;
      ret SYNERGETIC_EXECUTION
    else
      Delay 200 ;;
      ret WAIT_FOR_TRANSACTIONS.

Definition OnScheduleBlockExecution : M State :=
  scheduled <- ScheduleCurrentBlock ;;
  if scheduled then ret WAIT_FOR_EXECUTION else ret RESET.

Definition OnWaitForExecution : M State :=
  status <- QueryExecutorStatus ;;
  match status with
  | IDLE => ret POST_EXEC_BLOCK_VALIDATION
  | RUNNING =>
      due <- query ExecWaitPoll ;;
      (* the log message reads [current_block_->body.hash] *)
      (if (due : bool) then current_block ;; ret tt else ret tt) ;;
      Delay 20 ;; ret WAIT_FOR_EXECUTION
  | STALLED
  | ERROR => ret RESET
  end.

Definition OnPostExecBlockValidation : M State :=
  state_hash <- query CurrentHash ;;
  cur <- current_block ;;
  let invalid_block :=
    if decide (GENESIS_DIGEST cfg ≠ previous_hash (body cur)) then
      if decide (state_hash ≠ merkle_hash (body cur)) then true else false
    else false in
  if invalid_block then
    previous_block <- query (GetBlock (previous_hash (body cur))) ;;
    revert_successful <-
      match previous_block with
      | Some prev =>
          dag_reverted <- dag (call (RevertToEpoch (block_number (body prev)))) ;;
          store_reverted <-
            call (RevertToHash (merkle_hash (body prev)) (block_number (body prev))) ;;
          if store_reverted && dag_reverted then
            call (SetLastProcessedBlock (hash (body prev))) ;;
            ret true
          else ret dag_reverted
      | None => ret false
      end ;;
    (if negb revert_successful then
       (if dag_ cfg then dag (call (RevertToEpoch 0)) ;; ret tt else ret tt) ;;
       call (RevertToHash (GENESIS_MERKLE_ROOT cfg) 0) ;;
       call (SetLastProcessedBlock (GENESIS_DIGEST cfg))
     else ret tt) ;;
    call (RemoveBlock (hash (body cur))) ;;
    ret RESET
  else
    uncaught (UpdateTxStatus cur) ;;
    call (Commit (block_number (body cur))) ;;
    (if dag_ cfg then dag (call (CommitEpoch (dag_epoch (body cur)))) else ret tt) ;;
    modify (set_last_executed_block_ (hash (body cur))) ;;
    ret RESET.

Definition OnPackNewBlock (now : Time) : M State :=
  nb <- next_block ;;
  (* try: the packer fills [*next_block_] in, and may throw on the way *)
  packed <- call (GenerateBlock nb (num_lanes_ cfg) (num_slices_ cfg)) ;;
  modify (set_next_block_ (Some (snd packed))) ;;
  if fst packed then
    UpdateNextBlockTime now ;;
    ret EXECUTE_NEW_BLOCK
  else (* catch *) ret RESET.

Definition OnNewSynergeticExecution : M State :=
  if synergetic_exec_mgr_ cfg && dag_ cfg then
    nb <- next_block ;;
    previous_block <- query (GetBlock (previous_hash (body nb))) ;;
    prev <- deref p_previous_block previous_block ;;
    status <- synergetic (call (PrepareWorkQueue nb prev)) ;;
    match status with
    | SYN_FAILURE _ => ret RESET
    | SUCCESS =>
        valid <- synergetic (call (ValidateWorkAndUpdateState
                                     (block_number (body nb)) (num_lanes_ cfg))) ;;
        if negb valid then ret RESET else ret PACK_NEW_BLOCK
    end
  else ret PACK_NEW_BLOCK.

Definition OnExecuteNewBlock : M State :=
  scheduled <- ScheduleNextBlock ;;
  if scheduled then ret WAIT_FOR_NEW_BLOCK_EXECUTION else ret RESET.

Definition OnWaitForNewBlockExecution : M State :=
  status <- QueryExecutorStatus ;;
  match status with
  | IDLE =>
      state_hash <- query CurrentHash ;;
      update_next_block (λ b, set_body (body_set_merkle_hash state_hash (body b)) b) ;;
      nb <- next_block ;;
      call (Commit (block_number (body nb))) ;;
      (if dag_ cfg then dag (call (CommitEpoch (dag_epoch (body nb)))) else ret tt) ;;
      ret PROOF_SEARCH
  | RUNNING =>
      due <- query ExecWaitPoll ;;
      (* the log message reads [next_block_->body.previous_hash] *)
      (if (due : bool) then next_block ;; ret tt else ret tt) ;;
      Delay 20 ;; ret WAIT_FOR_NEW_BLOCK_EXECUTION
  | STALLED
  | ERROR => ret RESET
  end.

Definition OnProofSearch : M State :=
  nb <- next_block ;;
  mined <- call (Mine nb 100) ;;
  modify (set_next_block_ (Some (snd mined))) ;;
  if fst mined then
    update_next_block (λ b, set_body (body_set_hash (UpdateDigest col b) (body b)) b) ;;
    nb <- next_block ;;
    call (SetLastProcessedBlock (hash (body nb))) ;;
    ret TRANSMIT_BLOCK
  else ret PROOF_SEARCH.

Definition OnTransmitBlock : M State :=
  nb <- next_block ;;
  (* try *)
  added <- call (AddBlock nb) ;;
  match added with
  | Some ADDED =>
      updated <- UpdateTxStatus nb ;;
      match updated with
      | Some _ =>
          modify (set_last_executed_block_ (hash (body nb))) ;;
          (* the last statement of the block: its throw is caught too *)
          call (OnBlock nb) ;;
          ret tt
      | None => (* catch *) ret tt
      end
  | Some _ => ret tt
  | None => (* catch *) ret tt
  end ;;
  ret RESET.

Definition OnReset (now : Time) : M State :=
  (if stake_ cfg then
     nb <- read next_block_ ;;
     match nb with
     | Some b => stake (call (UpdateCurrentBlock b))
     | None =>
         cb <- read current_block_ ;;
         match cb with
         | Some b => stake (call (UpdateCurrentBlock b))
         | None => ret tt
         end
     end
   else ret tt) ;;
  modify (set_current_block_ None) ;;
  modify (set_next_block_ None) ;;
  modify (set_pending_txs_ None) ;;
  modify (set_blocks_to_common_ancestor_ []) ;;
  UpdateNextBlockTime now ;;
  ret SYNCHRONISING.

Definition Reset : M unit :=
  modify (set_last_executed_block_ (GENESIS_DIGEST cfg)) ;;
  call (SetLastProcessedBlock (GENESIS_DIGEST cfg)) ;;
  call ChainReset.

(** The handler registered for each state; the state machine passes the
    current and the previous state. *)
Definition handler (now : Time) (current previous : State) : M State :=
  match current with
  | RELOAD_STATE => OnReloadState
  | SYNCHRONISING => OnSynchronising
  | SYNCHRONISED => OnSynchronised now current previous
  | PRE_EXEC_BLOCK_VALIDATION => OnPreExecBlockValidation
  | WAIT_FOR_TRANSACTIONS => OnWaitForTransactions now current previous
  | SYNERGETIC_EXECUTION => OnSynergeticExecution
  | SCHEDULE_BLOCK_EXECUTION => OnScheduleBlockExecution
  | WAIT_FOR_EXECUTION => OnWaitForExecution
  | POST_EXEC_BLOCK_VALIDATION => OnPostExecBlockValidation
  | PACK_NEW_BLOCK => OnPackNewBlock now
  | NEW_SYNERGETIC_EXECUTION => OnNewSynergeticExecution
  | EXECUTE_NEW_BLOCK => OnExecuteNewBlock
  | WAIT_FOR_NEW_BLOCK_EXECUTION => OnWaitForNewBlockExecution
  | PROOF_SEARCH => OnProofSearch
  | TRANSMIT_BLOCK => OnTransmitBlock
  | RESET => OnReset now
  end.

(** One invocation of a handler on fresh bookkeeping: no command issued and
    no delay requested yet. *)
Definition enter (c : Coord) (w : W) : Machine W :=
  {| coord := c; world := w; calls := []; delay := None |}.

Definition step (now : Time) (current previous : State) (c : Coord) (w : W)
  : Result (State * Machine W) :=
  handler now current previous (enter c w).

End BlockCoordinator.

Arguments reply {W} col c w.
Arguments after {W} col c w.

(** ** A test double of the collaborators

    A small concrete world, in the manner of the mock collaborators the
    coordinator is tested with: a chain store, a state store with its
    committed (root, index) pairs, an execution engine that records its
    last processed block, and canned answers for the rest. *)
Module Double.

Record World := {
  heaviest : option Block;
  chain : list Block;
  path : bool * list Block;
  current_state : Digest;
  last_commit : Digest;
  committed : list (Digest * N);
  transactions : list Digest;
  engine : ExecutionState;
  last_processed : Digest;
  add_block : option BlockStatus;
  prepare : SynExecStatus;
  validate : bool;
  sink : list Block;
  status_cache : list Digest
}.

Definition find_block (h : Digest) (l : list Block) : option Block :=
  List.find (λ b, bool_decide (hash (body b) = h)) l.

Definition answer {R} (q : Query R) (w : World) : R :=
  match q in Query R return R with
  | GetHeaviestBlock => heaviest w
  | GetHeaviestBlockHash =>
      match heaviest w with Some b => hash (body b) | None => EmptyString end
  | GetBlock h => find_block h (chain w)
  | GetPathToCommonAncestor _ _ _ _ => path w
  | CurrentHash => current_state w
  | LastCommitHash => last_commit w
  | HashExists h n => bool_decide ((h, n) ∈ committed w)
  | HasTransaction d => bool_decide (d ∈ transactions w)
  | GetState => engine w
  | LastProcessedBlock => last_processed w
  | ExecWaitPoll => true
  | CurrentEpoch => 0
  | ShouldGenerateBlock _ _ => true
  | ValidMinerForBlock _ _ => true
  | GetBlockGenerationWeight _ _ => 7
  end.

Definition with_chain (l : list Block) (w : World) : World :=
  {| heaviest := heaviest w; chain := l; path := path w;
     current_state := current_state w; last_commit := last_commit w;
     committed := committed w; transactions := transactions w;
     engine := engine w; last_processed := last_processed w;
     add_block := add_block w; prepare := prepare w; validate := validate w;
     sink := sink w; status_cache := status_cache w |}.
Definition with_store (cur lc : Digest) (cm : list (Digest * N)) (w : World) : World :=
  {| heaviest := heaviest w; chain := chain w; path := path w;
     current_state := cur; last_commit := lc;
     committed := cm; transactions := transactions w;
     engine := engine w; last_processed := last_processed w;
     add_block := add_block w; prepare := prepare w; validate := validate w;
     sink := sink w; status_cache := status_cache w |}.
Definition with_last_processed (h : Digest) (w : World) : World :=
  {| heaviest := heaviest w; chain := chain w; path := path w;
     current_state := current_state w; last_commit := last_commit w;
     committed := committed w; transactions := transactions w;
     engine := engine w; last_processed := h;
     add_block := add_block w; prepare := prepare w; validate := validate w;
     sink := sink w; status_cache := status_cache w |}.
Definition with_outputs (sk : list Block) (sc : list Digest) (w : World) : World :=
  {| heaviest := heaviest w; chain := chain w; path := path w;
     current_state := current_state w; last_commit := last_commit w;
     committed := committed w; transactions := transactions w;
     engine := engine w; last_processed := last_processed w;
     add_block := add_block w; prepare := prepare w; validate := validate w;
     sink := sk; status_cache := sc |}.

Definition with_synergetic (p : SynExecStatus) (v : bool) (w : World) : World :=
{| heaviest := heaviest w; chain := chain w; path := path w;
   current_state := current_state w; last_commit := last_commit w;
   committed := committed w; transactions := transactions w;
   engine := engine w; last_processed := last_processed w;
   add_block := add_block w; prepare := p; validate := v;
   sink := sink w; status_cache := status_cache w |}.

Definition act (c : Command) (w : World) : Reply c * World :=
  match c return Reply c * World with
  | RemoveBlock h =>
      (tt, with_chain (List.filter (λ b, negb (bool_decide (hash (body b) = h))) (chain w)) w)
  | AddBlock b =>
      (add_block w,
       match add_block w with
       | Some ADDED => with_chain (b :: chain w) w
       | _ => w
       end)
  | ChainReset => (tt, with_chain [] w)
  | RevertToHash h n =>
      if bool_decide ((h, n) ∈ committed w)
      then (true, with_store h h (committed w) w)
      else (false, w)
  | Commit n =>
      (tt, with_store (current_state w) (current_state w)
             ((current_state w, n) :: committed w) w)
  | IssueCallForMissingTxs _ => (tt, w)
  | Execute bd => (SCHEDULED, with_last_processed (hash bd) w)
  | SetLastProcessedBlock h => (tt, with_last_processed h w)
  | RevertToEpoch _ => (true, w)
  | CreateEpoch n => (n, w)
  | SatisfyEpoch _ => (true, w)
  | CommitEpoch _ => (tt, w)
  | UpdateCurrentBlock _ => (tt, w)
  | PrepareWorkQueue _ _ => (prepare w, w)
  | ValidateWorkAndUpdateState _ _ => (validate w, w)
  | GenerateBlock b _ _ => ((true, b), w)
  | OnBlock b => (Some tt, with_outputs (sink w ++ [b]) (status_cache w) w)
  | Update d _ => (Some tt, with_outputs (sink w) (status_cache w ++ [d]) w)
  | Mine b _ => ((true, b), w)
  end.

(** the content digest of a block, for the double: its number and parent *)
Definition digest_of (b : Block) : Digest :=
  String.append (previous_hash (body b)) (String.append "#" (merkle_hash (body b))).

Definition collaborators : Collaborators World :=
  {| ask := @answer; perform := act; UpdateDigest := digest_of |}.

End Double.

(** Reduction behaviour: the monad's operations unfold once they are applied
    to a machine; what a collaborator answers stays symbolic. *)
Arguments ret {W A} a m /.
Arguments bind {W A B} x k m /.
Arguments fault {W A} f m /.
Arguments read {W A} f m /.
Arguments modify {W} f m /.
Arguments Delay {W} ms m /.
Arguments deref {W A} p !o m /.
Arguments when {W} !b x m /.
Arguments the_world {W} m /.
Arguments query {W} col {R} q m /.
Arguments call {W} col c m /.
Arguments through {W A} !present p x m /.
Arguments dag {W} cfg {A} x m /.
Arguments stake {W} cfg {A} x m /.
Arguments synergetic {W} cfg {A} x m /.
Arguments current_block {W} m /.
Arguments next_block {W} m /.
Arguments update_next_block {W} f m /.
Arguments uncaught {W A} x m /.
Arguments reply : simpl never.
Arguments UpdateTxStatus : simpl never.
Arguments after : simpl never.

(** ** Definitions used by the statements *)

(** The table of the specification: the coordinator's view of each state of
    the execution engine. *)
Definition coordinator_view (e : ExecutionState) : ExecutionStatus :=
  match e with
  | ES_IDLE => IDLE
  | ES_ACTIVE => RUNNING
  | ES_TRANSACTIONS_UNAVAILABLE => STALLED
  | ES_EXECUTION_ABORTED => ERROR
  | ES_EXECUTION_FAILED => ERROR
  end.

(** A computation keeps an invariant [I] of the coordinator's fields, and
    faults only with a fault in [F]. *)
Definition keeps {W A} (I : Coord → Prop) (F : Fault → Prop) (x : M W A) : Prop :=
  ∀ m, I (coord m) →
       match x m with
       | Ok (_, m') => I (coord m')
       | Faulted f => F f
       end.

(** The [Update] commands [UpdateTxStatus] issues for a block. *)
Definition status_updates (b : Block) : list Command :=
  map (λ d, Update d EXECUTED) (concat (slices (body b))).

(** The world after a sequence of commands. *)
Definition after_all {W} (col : Collaborators W) (cs : list Command) (w : W) : W :=
  fold_left (λ w c, after col c w) cs w.

(** The status updates of the transactions [ds] as far as they go: the
    commands issued, up to and with the first that throws, and whether all
    went through. *)
Fixpoint updates_issued {W} (col : Collaborators W) (ds : list Digest) (w : W)
  : list Command :=
  match ds with
  | [] => []
  | d :: ds' =>
      Update d EXECUTED ::
      match reply col (Update d EXECUTED) w with
      | Some _ => updates_issued col ds' (after col (Update d EXECUTED) w)
      | None => []
      end
  end.
Fixpoint updates_done {W} (col : Collaborators W) (ds : list Digest) (w : W) : bool :=
  match ds with
  | [] => true
  | d :: ds' =>
      match reply col (Update d EXECUTED) w with
      | Some _ => updates_done col ds' (after col (Update d EXECUTED) w)
      | None => false
      end
  end.

(** The transactions of a block, slice by slice. *)
Definition block_transactions (b : Block) : list Digest := concat (slices (body b)).

(** ** Sample inputs *)
Module Sample.
Import Double.

Definition cfg (with_dag with_stake with_synergetic : bool) : Config :=
  {| dag_ := with_dag; stake_ := with_stake;
     synergetic_exec_mgr_ := with_synergetic;
     mining_address_ := "miner"; block_difficulty_ := 4;
     num_lanes_ := 1; num_slices_ := 1;
     GENESIS_DIGEST := "genesis"; GENESIS_MERKLE_ROOT := "root0";
     COMMON_PATH_TO_ANCESTOR_LENGTH_LIMIT := 1000;
     Block_default :=
       {| body := {| hash := EmptyString; previous_hash := EmptyString;
                     merkle_hash := EmptyString; block_number := 0;
                     miner := EmptyString; log2_num_lanes := 0;
                     slices := []; dag_epoch := 0 |};
          weight := 1; proof := {| target := 0; nonce := 0 |} |};
     (* the shift count taken modulo 32, as on x86 *)
     shift_out_of_range := λ n, N.shiftl 1 (n mod 32) |}.

Definition block (h prev root : Digest) (n : N) (txs : list (list Digest)) : Block :=
  {| body := {| hash := h; previous_hash := prev; merkle_hash := root;
                block_number := n; miner := "miner"; log2_num_lanes := 0;
                slices := txs; dag_epoch := n |};
     weight := 7; proof := {| target := 4; nonce := 0 |} |}.

Definition B0 : Block := block "b0" "genesis" "root0" 0 [].
Definition B1 : Block := block "b1" "b0" "root1" 1 [["tx1"]].
Definition B2 : Block := block "b2" "b1" "root2" 2 [["tx2"; "tx3"]].

(** a block minted on top of B2 *)
Definition B3 : Block := block "b3" "b2" "root3" 3 [["tx4"]; ["tx5"]].

Definition coordinator (cur next : option Block) : Coord :=
  {| current_block_ := cur; next_block_ := next; pending_txs_ := None;
     blocks_to_common_ancestor_ := []; last_executed_block_ := "b1";
     next_block_time_ := 1000; block_period_ := 1000;
     mining_ := true; mining_enabled_ := true;
     have_asked_for_missing_txs_ := false;
     wait_for_tx_timeout_ := {| deadline := 0 |};
     wait_before_asking_for_missing_tx_ := {| deadline := 0 |} |}.

(** B0 and B1 executed and committed, B2 known to the chain *)
Definition world (added : option BlockStatus) : World :=
  {| heaviest := Some B2; chain := [B2; B1; B0]; path := (true, [B2; B1]);
     current_state := "root1"; last_commit := "root1";
     committed := [("root1", 1); ("root0", 0)];
     transactions := ["tx1"; "tx2"; "tx3"];
     engine := ES_IDLE; last_processed := "b1";
     add_block := added; prepare := SUCCESS; validate := true;
     sink := []; status_cache := [] |}.

(** B1's state is not among the committed ones *)
Definition world_without_states : World :=
with_store "root9" "root9" [] (world None).

(** A long catch-up: blocks 101 down to 1 on one chain, block 1 executed. *)
Fixpoint tag (n : nat) : Digest :=
match n with
| O => "h"
| S k => String.append "x" (tag k)
end.
Definition numbered (n : nat) : Block :=
block (tag n) (tag (n - 1)) (String.append "r" (tag n)) (N.of_nat n) [].
Definition long_path : list Block := map numbered (rev (seq 1 101)).
Definition long_world : World :=
{| heaviest := Some (numbered 101); chain := long_path; path := (true, long_path);
   current_state := merkle_hash (body (numbered 1));
   last_commit := merkle_hash (body (numbered 1));
   committed := [(merkle_hash (body (numbered 1)), 1)];
   transactions := [];
   engine := ES_IDLE; last_processed := tag 1;
   add_block := None; prepare := SUCCESS; validate := true;
   sink := []; status_cache := [] |}.

End Sample.

(** The commands of a commit: the status updates of the block's
    transactions, the commit of the state and, with a DAG, of the epoch. *)
Definition commit_calls (cfg : Config) (b : Block) : list Command :=
  status_updates b ++
  Commit (block_number (body b)) ::
  (if dag_ cfg then [CommitEpoch (dag_epoch (body b))] else []).

(** The block SYNCHRONISING works on: the current block or, when there is
    none, the heaviest block of the chain. *)
Definition synchronising_block {W} (col : Collaborators W) (c : Coord) (w : W)
  : option Block :=
match current_block_ c with
| Some b => Some b
| None => ask col GetHeaviestBlock w
end.

(** The ancestor path SYNCHRONISING works on: the cached one or, when the
    cache is empty, the answer of the chain, with the success of the
    lookup. *)
Definition ancestor_path {W} (col : Collaborators W) (cfg : Config) (c : Coord) (w : W)
    (cur : Block) : bool * list Block :=
match blocks_to_common_ancestor_ c with
| [] => ask col (GetPathToCommonAncestor (hash (body cur))
                   (ask col LastProcessedBlock w)
                   (COMMON_PATH_TO_ANCESTOR_LENGTH_LIMIT cfg)
                   RETURN_LEAST_RECENT) w
| b :: l => (true, b :: l)
end.

(** SYNCHRONISING reconciles a fork: some block has been processed, it is
    not the block worked on, and a path from that block to a common ancestor
    is at hand.  The path is tip-first: it ends with the block to execute
    next and, last, the common parent. *)
Definition fork_reconciliation {W} (col : Collaborators W) (cfg : Config)
    (c : Coord) (w : W) (cur : Block) (front : list Block)
    (next common_parent : Block) : Prop :=
synchronising_block col c w = Some cur ∧
hash (body cur) ≠ EmptyString ∧
GENESIS_DIGEST cfg ≠ ask col LastProcessedBlock w ∧
hash (body cur) ≠ ask col LastProcessedBlock w ∧
ancestor_path col cfg c w cur = (true, front ++ [next; common_parent]).

(** The commands that take the node back to genesis. *)
Definition revert_to_genesis (cfg : Config) : list Command :=
SetLastProcessedBlock (GENESIS_DIGEST cfg) ::
RevertToHash (GENESIS_MERKLE_ROOT cfg) 0 ::
(if dag_ cfg then [RevertToEpoch 0] else []).

(** The commands that take the node back to a block. *)
Definition revert_to (cfg : Config) (b : Block) : list Command :=
RevertToHash (merkle_hash (body b)) (block_number (body b)) ::
(if dag_ cfg then [RevertToEpoch (block_number (body b))] else []).

(** The commands of a commit only record: a transaction status, a state, a
    DAG epoch. *)
Definition records (c : Command) : bool :=
match c with
| Update _ _ | Commit _ | CommitEpoch _ => true
| _ => false
end.

(** A contract on the collaborators: recording changes neither the current
    Merkle root of the state store nor the last processed block of the
    execution engine. *)
Definition recording_is_quiet {W} (col : Collaborators W) : Prop :=
∀ c w, records c = true →
       ask col CurrentHash (after col c w) = ask col CurrentHash w ∧
       ask col LastProcessedBlock (after col c w) = ask col LastProcessedBlock w.

(** A contract on the execution engine: it records the hash of the block
    body it is given to execute as its last processed block. *)
Definition engine_records {W} (col : Collaborators W) : Prop :=
∀ bd w, reply col (Execute bd) w = SCHEDULED →
        ask col LastProcessedBlock (after col (Execute bd) w) = hash bd.

(** Collaborators like the double's, with a block sink that throws. *)
Definition throwing_sink : Collaborators Double.World :=
{| ask := @Double.answer;
   perform := λ c w,
     match c return Reply c * Double.World with
     | OnBlock _ => (None, w)
     | other => Double.act other w
     end;
   UpdateDigest := Double.digest_of |}.

(** A state store whose root is not the one B0 declares *)
Definition genesis_world : Double.World :=
Double.with_last_processed "none"
  (Double.with_store "root7" "root7" [] (Sample.world None)).

(** B2 executed (the state has B2's root) and B3 being minted on top of it *)
Definition executed_world : Double.World :=
Double.with_last_processed "b2"
  (Double.with_store "root2" "root1" [("root1", 1); ("root0", 0)] (Sample.world None)).

(** ** Waiting for transactions, over several invocations *)

(** How a stay in WAIT_FOR_TRANSACTIONS ends. *)
Inductive Waiting (W : Type) :=
| StillWaiting (c : Coord)
| Exited (at_time : Time) (next : State) (m : Machine W)
| Crashed (at_time : Time) (f : Fault).
Arguments StillWaiting {W} _.
Arguments Exited {W} _ _ _.
Arguments Crashed {W} _ _.

(** The state machine in WAIT_FOR_TRANSACTIONS: one invocation of the handler
    per entry of the schedule, which gives the clock reading of the
    invocation and the world it finds; the state machine passes the state it
    comes from, the coordinator's fields carry over, and the handler is
    invoked again as long as it answers WAIT_FOR_TRANSACTIONS. *)
Fixpoint wait_for_transactions {W} (col : Collaborators W) (cfg : Config)
    (previous : State) (c : Coord) (schedule : list (Time * W)) : Waiting W :=
match schedule with
| [] => StillWaiting c
| (now, w) :: rest =>
    match step col cfg now WAIT_FOR_TRANSACTIONS previous c w with
    | Ok (WAIT_FOR_TRANSACTIONS, m) =>
        wait_for_transactions col cfg WAIT_FOR_TRANSACTIONS (coord m) rest
    | Ok (next, m) => Exited now next m
    | Faulted f => Crashed now f
    end
end.

(** Consecutive invocations are at most [period] apart. *)
Fixpoint paced {W} (period : N) (t : Time) (schedule : list (Time * W)) : Prop :=
match schedule with
| [] => True
| (t', _) :: rest => t' ≤ t + period ∧ paced period t' rest
end.

(** What holds of the coordinator after an invocation at time [t] that keeps
    waiting, when the wait began at [t0]. *)
Definition waiting (cur : Block) (t0 period t : Time) (c : Coord) : Prop :=
current_block_ c = Some cur ∧
is_Some (pending_txs_ c) ∧
t < t0 + WAIT_BEFORE_ASKING_FOR_MISSING_TX_INTERVAL + WAIT_FOR_TX_TIMEOUT_INTERVAL + period ∧
((have_asked_for_missing_txs_ c = false ∧
  deadline (wait_before_asking_for_missing_tx_ c) =
    t0 + WAIT_BEFORE_ASKING_FOR_MISSING_TX_INTERVAL ∧
  t < t0 + WAIT_BEFORE_ASKING_FOR_MISSING_TX_INTERVAL) ∨
 (have_asked_for_missing_txs_ c = true ∧
  t0 + WAIT_BEFORE_ASKING_FOR_MISSING_TX_INTERVAL + WAIT_FOR_TX_TIMEOUT_INTERVAL
    ≤ deadline (wait_for_tx_timeout_ c) ∧
  deadline (wait_for_tx_timeout_ c) <
    t0 + WAIT_BEFORE_ASKING_FOR_MISSING_TX_INTERVAL + WAIT_FOR_TX_TIMEOUT_INTERVAL + period)).

(** How an invocation of the handler may end. *)
Definition wait_outcome {W} (cur : Block) (t0 period now : Time)
    (r : Result (State * Machine W)) : Prop :=
match r with
| Ok (WAIT_FOR_TRANSACTIONS, m) =>
    waiting cur t0 period now (coord m) ∧ delay m = Some 200
| Ok (SYNERGETIC_EXECUTION, m) =>
    pending_txs_ (coord m) = None ∧ delay m = None ∧
    ∀ h, RemoveBlock h ∉ calls m
| Ok (RESET, m) =>
    calls m = [RemoveBlock (hash (body cur))] ∧
    t0 + WAIT_BEFORE_ASKING_FOR_MISSING_TX_INTERVAL + WAIT_FOR_TX_TIMEOUT_INTERVAL ≤ now
| _ => False
end.

(** An invocation of WAIT_FOR_TRANSACTIONS gives the block up: it comes
    from itself, the peers were asked and the timeout has expired. *)
Definition gives_up (now : Time) (previous : State) (c : Coord) : bool :=
bool_decide (previous = WAIT_FOR_TRANSACTIONS) &&
have_asked_for_missing_txs_ c && HasExpired now (wait_for_tx_timeout_ c).

(** It asks the peers: it comes from itself, has not asked yet, and the
    countdown has expired. *)
Definition asks_now (now : Time) (previous : State) (c : Coord) : bool :=
bool_decide (previous = WAIT_FOR_TRANSACTIONS) &&
negb (have_asked_for_missing_txs_ c) &&
HasExpired now (wait_before_asking_for_missing_tx_ c).

(** The world in which the handler asks the DAG: after its request to the
    peers, if it makes one. *)
Definition world_asked {W} (col : Collaborators W) (now : Time) (previous : State)
    (c : Coord) (w : W) : W :=
match pending_txs_ c with
| Some txs =>
    if asks_now now previous c then after col (IssueCallForMissingTxs txs) w else w
| None => w
end.

(** What the DAG answers there; without a DAG the epoch counts as
    satisfied. *)
Definition epoch_satisfied {W} (col : Collaborators W) (cfg : Config) (now : Time)
    (previous : State) (c : Coord) (w : W) (cur : Block) : bool :=
if dag_ cfg then
  reply col (SatisfyEpoch (dag_epoch (body cur))) (world_asked col now previous c w)
else true.

(** The world in which the handler looks for the transactions: after its
    question to the DAG, if there is one. *)
Definition world_searched {W} (col : Collaborators W) (cfg : Config) (now : Time)
    (previous : State) (c : Coord) (w : W) (cur : Block) : W :=
if dag_ cfg then
  after col (SatisfyEpoch (dag_epoch (body cur))) (world_asked col now previous c w)
else world_asked col now previous c w.

(** A block whose transaction never arrives, looked at every 201 ms. *)
Definition starved_world : Double.World :=
Double.with_store "root0" "root0" [("root0", 0)]
  {| Double.heaviest := Some Sample.B1; Double.chain := [Sample.B1; Sample.B0];
     Double.path := (false, []);
     Double.current_state := "root0"; Double.last_commit := "root0";
     Double.committed := [("root0", 0)]; Double.transactions := [];
     Double.engine := ES_IDLE; Double.last_processed := "b0";
     Double.add_block := None; Double.prepare := SUCCESS; Double.validate := true;
     Double.sink := []; Double.status_cache := [] |}.

Definition every_201_ms : list (Time * Double.World) :=
map (λ k, (201 * N.of_nat k, starved_world)) (seq 0 301).

(** ** The steps that assign [last_executed_block_] *)

(** The block RELOAD_STATE works on: the current block or, when there is
    none, the heaviest block of the chain. *)
Definition reloaded_block {W} (col : Collaborators W) (c : Coord) (w : W) (cur : Block)
  : Prop :=
current_block_ c = Some cur ∨
current_block_ c = None ∧ ask col GetHeaviestBlock w = Some cur.

(** A step from state [s] that ends with the fields [c'] got as far as
    the assignment - the block was committed, or added to the chain with
    its status updates gone through (the block sink comes after the
    assignment), or reloaded - and [last_executed_block_] is now the hash of
    that block. *)
Definition assigned_on_success {W} (col : Collaborators W) (cfg : Config)
    (s : State) (c : Coord) (w : W) (c' : Coord) : Prop :=
(s = POST_EXEC_BLOCK_VALIDATION ∧
 ∃ cur, current_block_ c = Some cur ∧
        (GENESIS_DIGEST cfg = previous_hash (body cur) ∨
         ask col CurrentHash w = merkle_hash (body cur)) ∧
        last_executed_block_ c' = hash (body cur)) ∨
(s = TRANSMIT_BLOCK ∧
 ∃ nb, next_block_ c = Some nb ∧
       reply col (AddBlock nb) w = Some ADDED ∧
       updates_done col (block_transactions nb) (after col (AddBlock nb) w) = true ∧
       last_executed_block_ c' = hash (body nb)) ∨
(s = RELOAD_STATE ∧
 ∃ cur, reloaded_block col c w cur ∧
        GENESIS_DIGEST cfg ≠ previous_hash (body cur) ∧
        reply col (RevertToHash (merkle_hash (body cur))
                                (block_number (body cur))) w = true ∧
        (dag_ cfg = true →
         reply col (RevertToEpoch (block_number (body cur)))
           (after col (RevertToHash (merkle_hash (body cur))
                                    (block_number (body cur))) w) = true) ∧
        last_executed_block_ c' = hash (body cur)).

(** A step from state [s] is on an error path: it is a step of a handler
    that never commits, or the Merkle root did not match, or the chain did
    not add the block, or a status update of the transmitted block threw,
    or the state could not be reverted. *)
Definition error_path {W} (col : Collaborators W) (cfg : Config)
    (s : State) (c : Coord) (w : W) : Prop :=
(s ≠ POST_EXEC_BLOCK_VALIDATION ∧ s ≠ TRANSMIT_BLOCK ∧ s ≠ RELOAD_STATE) ∨
(s = POST_EXEC_BLOCK_VALIDATION ∧
 ∃ cur, current_block_ c = Some cur ∧
        GENESIS_DIGEST cfg ≠ previous_hash (body cur) ∧
        ask col CurrentHash w ≠ merkle_hash (body cur)) ∨
(s = TRANSMIT_BLOCK ∧
 ∃ nb, next_block_ c = Some nb ∧
       (reply col (AddBlock nb) w ≠ Some ADDED ∨
        updates_done col (block_transactions nb) (after col (AddBlock nb) w) = false)) ∨
(s = RELOAD_STATE ∧
 ∃ cur, reloaded_block col c w cur ∧
        (reply col (RevertToHash (merkle_hash (body cur))
                                 (block_number (body cur))) w = false ∨
         dag_ cfg = true ∧
         reply col (RevertToEpoch (block_number (body cur)))
           (after col (RevertToHash (merkle_hash (body cur))
                                    (block_number (body cur))) w) = false)).

From stdpp Require Import sorting.

Local Open Scope N_scope.

(** * The fake storage unit

    [FakeStorageUnit], the in-memory storage unit of the chain-code tests: a
    key-value state, a set of locked keys, the transactions by digest and an
    archive of committed states by bookmark.  The mutex that guards every
    member function is left out: a call runs to completion. *)

(** [StorageUnitInterface::document_type]: the fields the fake unit
    assigns. *)
Record Document := {
  document : string;
  was_created : bool;
  failed : bool
}.

Definition with_document (v : string) (d : Document) : Document :=
  {| document := v; was_created := was_created d; failed := failed d |}.
Definition with_was_created (b : bool) (d : Document) : Document :=
  {| document := document d; was_created := b; failed := failed d |}.
Definition with_failed (b : bool) (d : Document) : Document :=
  {| document := document d; was_created := was_created d; failed := b |}.

Record FakeStorageUnit (Transaction : Type) := {
  transactions_ : gmap string Transaction;
  state_ : gmap string string;
  locks_ : gset string;
  state_archive_ : gmap N (gmap string string)
}.
Arguments transactions_ {Transaction} _.
Arguments state_ {Transaction} _.
Arguments locks_ {Transaction} _.
Arguments state_archive_ {Transaction} _.

(** The order of byte arrays: lexicographic. *)
Definition key_le (a b : string) : Prop := String.leb a b = true.

Global Instance key_le_dec (a b : string) : Decision (key_le a b).
Proof. unfold key_le. apply _. Defined.

(** [std::sort] of the keys. *)
Definition sort_keys (keys : list string) : list string :=
  merge_sort key_le keys.

(** What [Hash] feeds the hasher: every key, in sorted order, followed by
    its value. *)
Definition hashed_bytes (keys : list string) (state : gmap string string) : string :=
  foldr (λ key rest, String.append key
                       (String.append (default EmptyString (state !! key)) rest))
        EmptyString (sort_keys keys).

Module Fake.
Section Unit.
Context {Transaction : Type}.
(** [Transaction::digest], the SHA256 hasher as a function of the bytes it
  is fed, and a default-constructed document. *)
Context (digest : Transaction → Digest) (sha256 : string → Digest)
        (Document_default : Document).

Local Abbreviation Unit := (FakeStorageUnit Transaction).

Definition with_state (st : gmap string string) (u : Unit) : Unit :=
  {| transactions_ := transactions_ u; state_ := st; locks_ := locks_ u;
     state_archive_ := state_archive_ u |}.
Definition with_locks (l : gset string) (u : Unit) : Unit :=
  {| transactions_ := transactions_ u; state_ := state_ u; locks_ := l;
     state_archive_ := state_archive_ u |}.
Definition with_transactions (t : gmap string Transaction) (u : Unit) : Unit :=
  {| transactions_ := t; state_ := state_ u; locks_ := locks_ u;
     state_archive_ := state_archive_ u |}.
Definition with_archive (a : gmap N (gmap string string)) (u : Unit) : Unit :=
  {| transactions_ := transactions_ u; state_ := state_ u; locks_ := locks_ u;
     state_archive_ := a |}.

Definition GetOrCreate (key : string) (u : Unit) : Document :=
  match state_ u !! key with
  | Some v => with_document v Document_default
  | None => with_was_created true Document_default
  end.

Definition Get (key : string) (u : Unit) : Document :=
  match state_ u !! key with
  | Some v => with_document v Document_default
  | None => with_failed true Document_default
  end.

(** [Set] (a sort in Rocq, hence the name) *)
Definition Set_ (key value : string) (u : Unit) : Unit :=
  with_state (<[key := value]> (state_ u)) u.

Definition Lock (key : string) (u : Unit) : bool * Unit :=
  let already_locked := bool_decide (key ∈ locks_ u) in
  if negb already_locked then (true, with_locks ({[key]} ∪ locks_ u) u)
  else (false, u).

Definition Unlock (key : string) (u : Unit) : bool * Unit :=
  let already_locked := bool_decide (key ∈ locks_ u) in
  if already_locked then (true, with_locks (locks_ u ∖ {[key]}) u)
  else (false, u).

Definition AddTransaction (tx : Transaction) (u : Unit) : Unit :=
  with_transactions (<[digest tx := tx]> (transactions_ u)) u.

(** [GetTransaction(digest, tx)]: the success and the transaction left in
  the reference passed in. *)
Definition GetTransaction (dg : Digest) (tx : Transaction) (u : Unit)
  : bool * Transaction :=
  match transactions_ u !! dg with
  | Some found => (true, found)
  | None => (false, tx)
  end.

(** the keys as the loop over [state_] collects them *)
Definition collected_keys (u : Unit) : list string := (map_to_list (state_ u)).*1.

Definition Hash (u : Unit) : Digest :=
  sha256 (hashed_bytes (collected_keys u) (state_ u)).

Definition Commit (bookmark : N) (u : Unit) : Unit :=
  with_archive (<[bookmark := state_ u]> (state_archive_ u)) u.

Definition Revert (bookmark : N) (u : Unit) : Unit :=
  match state_archive_ u !! bookmark with
  | Some archived => with_state archived u
  | None => with_state ∅ u
  end.

(** A call that may change the unit, and a sequence of such calls. *)
Inductive Call :=
  | CallSet (key value : string)
  | CallLock (key : string)
  | CallUnlock (key : string)
  | CallAddTransaction (tx : Transaction)
  | CallCommit (bookmark : N)
  | CallRevert (bookmark : N).

Definition perform_call (c : Call) (u : Unit) : Unit :=
  match c with
  | CallSet key value => Set_ key value u
  | CallLock key => snd (Lock key u)
  | CallUnlock key => snd (Unlock key u)
  | CallAddTransaction tx => AddTransaction tx u
  | CallCommit bookmark => Commit bookmark u
  | CallRevert bookmark => Revert bookmark u
  end.

Definition perform_calls (cs : list Call) (u : Unit) : Unit :=
  fold_left (λ u c, perform_call c u) cs u.

End Unit.
End Fake.

(** ** Definitions used by the statements about the fake storage unit *)

(** Every stored transaction is stored under its own digest. *)
Definition keyed_by_digest {Transaction : Type} (digest : Transaction → Digest)
    (u : FakeStorageUnit Transaction) : Prop :=
  ∀ dg tx, transactions_ u !! dg = Some tx → digest tx = dg.

(** A freshly constructed unit. *)
Definition Fake_empty {Transaction : Type} : FakeStorageUnit Transaction :=
  {| transactions_ := ∅; state_ := ∅; locks_ := ∅; state_archive_ := ∅ |}.

(** Sample transactions: a payload, whose digest is its first four bytes. *)
Definition sample_digest (tx : string) : Digest := String.substring 0 4 tx.
Definition sample_document : Document :=
  {| document := EmptyString; was_created := false; failed := false |}.
(** A stand-in for the hasher in examples: the bytes themselves. *)
Definition sample_sha256 (bytes : string) : Digest := bytes.
(** Calls made while the lock on "k" is held, and after the commit under
    bookmark 1. *)
Definition sample_calls_locked : list (Fake.Call (Transaction:=string)) :=
  [Fake.CallSet "k" "v"; Fake.CallUnlock "j"; Fake.CallRevert 3].
Definition sample_calls_committed : list (Fake.Call (Transaction:=string)) :=
  [Fake.CallSet "k" "new"; Fake.CallCommit 2; Fake.CallRevert 7].

(** * More of the block coordinator *)

(** What PRE_EXEC_BLOCK_VALIDATION asks of a block before it lets it
    through: a previous hash of 32 bytes and, unless the block's parent is
    GENESIS, a parent in the chain, the parent's number plus one, the
    configured numbers of lanes and slices, with a stake manager a valid
    miner and the weight the stake manager gives, and with synergetic
    execution a work queue that could be prepared. *)
Definition passes_pre_exec {W} (col : Collaborators W) (cfg : Config) (w : W)
    (cur : Block) : Prop :=
  byte_size (previous_hash (body cur)) = DIGEST_LENGTH_BYTES ∧
  (previous_hash (body cur) ≠ GENESIS_DIGEST cfg →
   ∃ parent,
     ask col (GetBlock (previous_hash (body cur))) w = Some parent ∧
     (stake_ cfg = true →
      ask col (ValidMinerForBlock parent (miner (body cur))) w = true ∧
      weight cur = ask col (GetBlockGenerationWeight parent (miner (body cur))) w) ∧
     block_number (body cur) = u64 (block_number (body parent) + 1) ∧
     num_lanes_ cfg = shift_left_32 cfg (log2_num_lanes (body cur)) ∧
     num_slices_ cfg = N.of_nat (length (slices (body cur))) ∧
     (synergetic_exec_mgr_ cfg = true →
      reply col (PrepareWorkQueue cur parent) w = SUCCESS)).

(** The state machine running SYNCHRONISING for as long as the handler asks
    for SYNCHRONISING again, at most [fuel] times: the state it leaves to (or
    SYNCHRONISING when the fuel is used up), the fields, the world and the
    commands issued on the way. *)
Fixpoint synchronise {W} (col : Collaborators W) (cfg : Config) (now : Time)
    (fuel : nat) (previous : State) (c : Coord) (w : W) (issued : list Command)
  : Result (State * Coord * W * list Command) :=
  match fuel with
  | O => Ok (SYNCHRONISING, c, w, issued)
  | S fuel' =>
      match step col cfg now SYNCHRONISING previous c w with
      | Ok (s, m) =>
          if decide (s = SYNCHRONISING) then
            synchronise col cfg now fuel' SYNCHRONISING (coord m) (world m)
              (issued ++ calls m)
          else Ok (s, coord m, world m, issued ++ calls m)
      | Faulted f => Faulted f
      end
  end.

(** [b] and then [ancestors] are a branch of the chain down to the first
    block: each block has a hash, each is the parent of the one before it,
    and the parent of the last is GENESIS. *)
Fixpoint descends {W} (col : Collaborators W) (cfg : Config) (w : W)
    (b : Block) (ancestors : list Block) : Prop :=
  hash (body b) ≠ EmptyString ∧
  match ancestors with
  | [] => GENESIS_DIGEST cfg = previous_hash (body b)
  | parent :: rest =>
      GENESIS_DIGEST cfg ≠ previous_hash (body b) ∧
      ask col (GetBlock (previous_hash (body b))) w = Some parent ∧
      descends col cfg w parent rest
  end.

(** The commands that take the node back to genesis after a block whose
    Merkle root did not match. *)
Definition back_to_genesis (cfg : Config) : list Command :=
  (if dag_ cfg then [RevertToEpoch 0] else []) ++
  [RevertToHash (GENESIS_MERKLE_ROOT cfg) 0;
   SetLastProcessedBlock (GENESIS_DIGEST cfg)].

(** The commands by which POST_EXEC_BLOCK_VALIDATION recovers from a block
    whose Merkle root did not match, given the block's parent as the chain
    has it: back to the parent, or else back to genesis. *)
Definition recovery {W} (col : Collaborators W) (cfg : Config) (w : W)
    (parent : option Block) : list Command :=
  match parent with
  | Some p =>
      let dag_back := RevertToEpoch (block_number (body p)) in
      let store_back := RevertToHash (merkle_hash (body p)) (block_number (body p)) in
      dag_back :: store_back ::
        (if reply col dag_back w then
           if reply col store_back (after col dag_back w) then
             [SetLastProcessedBlock (hash (body p))]
           else []
         else back_to_genesis cfg)
  | None => back_to_genesis cfg
  end.

(** Sample inputs: a configuration whose GENESIS digest has 32 bytes, a
    first block and a child of it. *)
Definition genesis32 : Digest := "genesis-genesis-genesis-genesis-".
Definition parent32 : Digest := "parent--parent--parent--parent--".
Definition cfg32 (with_dag with_stake with_synergetic : bool) : Config :=
  {| dag_ := with_dag; stake_ := with_stake;
     synergetic_exec_mgr_ := with_synergetic;
     mining_address_ := "miner"; block_difficulty_ := 4;
     num_lanes_ := 1; num_slices_ := 1;
     GENESIS_DIGEST := genesis32; GENESIS_MERKLE_ROOT := "root0";
     COMMON_PATH_TO_ANCESTOR_LENGTH_LIMIT := 1000;
     Block_default := Block_default (Sample.cfg with_dag with_stake with_synergetic);
     shift_out_of_range :=
       shift_out_of_range (Sample.cfg with_dag with_stake with_synergetic) |}.
Definition first32 : Block := Sample.block parent32 genesis32 "root0" 0 [].
Definition child32 : Block := Sample.block "child" parent32 "root1" 1 [["tx1"]].
Definition world32 : Double.World :=
  Double.with_chain [child32; first32] (Sample.world None).

(** A node that has processed nothing yet, with the chain B2, B1, B0. *)
Definition fresh_world : Double.World :=
  Double.with_last_processed "genesis" (Sample.world None).

(** The states whose handlers read through [current_block_], and through
    [next_block_], without a check. *)
Definition reads_current_block (s : State) : bool :=
  match s with
  | SYNCHRONISED | PRE_EXEC_BLOCK_VALIDATION | WAIT_FOR_TRANSACTIONS
  | SYNERGETIC_EXECUTION | WAIT_FOR_EXECUTION | POST_EXEC_BLOCK_VALIDATION => true
  | _ => false
  end.
Definition reads_next_block (s : State) : bool :=
  match s with
  | NEW_SYNERGETIC_EXECUTION | PACK_NEW_BLOCK | WAIT_FOR_NEW_BLOCK_EXECUTION
  | PROOF_SEARCH | TRANSMIT_BLOCK => true
  | _ => false
  end.

(** The execution engine is at work and the periodic log message is due:
    the handlers that wait for it read the block's hash for the message. *)
Definition logs_waiting {W} (col : Collaborators W) (w : W) : Prop :=
  ask col GetState w = ES_ACTIVE ∧ ask col ExecWaitPoll w = true.

(** What must be the case for a step from state [s] to end in the fault
    [f]. *)
Definition fault_cause {W} (col : Collaborators W) (cfg : Config)
    (s previous : State) (c : Coord) (w : W) (f : Fault) : Prop :=
  match f with
  | NullDereference p_current_block_ =>
      current_block_ c = None ∧ reads_current_block s = true ∧
      (s = WAIT_FOR_EXECUTION → logs_waiting col w)
  | NullDereference p_next_block_ =>
      next_block_ c = None ∧ reads_next_block s = true ∧
      (s = WAIT_FOR_NEW_BLOCK_EXECUTION →
       ask col GetState w = ES_IDLE ∨ logs_waiting col w)
  | NullDereference p_pending_txs_ =>
      pending_txs_ c = None ∧ s = WAIT_FOR_TRANSACTIONS ∧ previous = s
  | NullDereference p_previous_block =>
      s = NEW_SYNERGETIC_EXECUTION ∧
      ∃ nb, next_block_ c = Some nb ∧
            ask col (GetBlock (previous_hash (body nb))) w = None
  | NullDereference p_dag_ =>
      s = POST_EXEC_BLOCK_VALIDATION ∧ dag_ cfg = false
  | NullDereference p_stake_ => False
  | NullDereference p_synergetic_exec_mgr_ => False
  | AssertionFailed =>
      (s = RELOAD_STATE ∧ synchronising_block col c w = None) ∨
      (s = SYNCHRONISING ∧
       ∃ cur, synchronising_block col c w = Some cur ∧
              (length (snd (ancestor_path col cfg c w cur)) < 2)%nat)
  | UncaughtException =>
      s = POST_EXEC_BLOCK_VALIDATION ∧
      ∃ cur, current_block_ c = Some cur ∧
             updates_done col (block_transactions cur) w = false
  end.
Arguments fault_cause : simpl never.

(** The states whose handlers assign a field of the coordinator. *)
Definition assigns_current_block (s : State) : bool :=
  match s with
  | RELOAD_STATE | SYNCHRONISING | SYNCHRONISED | RESET => true
  | _ => false
  end.
Definition assigns_next_block (s : State) : bool :=
  match s with
  | SYNCHRONISED | PACK_NEW_BLOCK | WAIT_FOR_NEW_BLOCK_EXECUTION | PROOF_SEARCH
  | RESET => true
  | _ => false
  end.
Definition assigns_pending_txs (s : State) : bool :=
  match s with
  | WAIT_FOR_TRANSACTIONS | RESET => true
  | _ => false
  end.
Definition assigns_ancestor_path (s : State) : bool :=
  match s with
  | SYNCHRONISING | RESET => true
  | _ => false
  end.
Definition assigns_next_block_time (s : State) : bool :=
  match s with
  | PACK_NEW_BLOCK | RESET => true
  | _ => false
  end.

(** Is the command a block handed to the block sink? *)
Definition to_sink (k : Command) : bool :=
  match k with
  | OnBlock _ => true
  | _ => false
  end.

(** Collaborators like the double's, with a state store that refuses every
    revert. *)
Definition refusing_store : Collaborators Double.World :=
  {| ask := @Double.answer;
     perform := λ c w,
       match c return Reply c * Double.World with
       | RevertToHash _ _ => (false, w)
       | other => Double.act other w
       end;
     UpdateDigest := Double.digest_of |}.

(** A chain that has lost its blocks. *)
Definition empty_chain_world : Double.World :=
  Double.with_chain [] (Sample.world None).

(** The states in which the coordinator works on a current block, and on a
    block being minted. *)
Definition holds_current_block (s : State) : bool :=
  match s with
  | SYNCHRONISED | PRE_EXEC_BLOCK_VALIDATION | WAIT_FOR_TRANSACTIONS
  | SYNERGETIC_EXECUTION | SCHEDULE_BLOCK_EXECUTION | WAIT_FOR_EXECUTION
  | POST_EXEC_BLOCK_VALIDATION => true
  | _ => false
  end.
Definition holds_next_block (s : State) : bool :=
  match s with
  | NEW_SYNERGETIC_EXECUTION | PACK_NEW_BLOCK | EXECUTE_NEW_BLOCK
  | WAIT_FOR_NEW_BLOCK_EXECUTION | PROOF_SEARCH | TRANSMIT_BLOCK => true
  | _ => false
  end.

(** The fields are in place for the state [s], entered from [previous]: the
    block the state works on is there, and so are the pending transactions
    when WAIT_FOR_TRANSACTIONS is entered again. *)
Definition well_placed (s previous : State) (c : Coord) : Prop :=
  (holds_current_block s = true → is_Some (current_block_ c)) ∧
  (holds_next_block s = true → is_Some (next_block_ c)) ∧
  (s = WAIT_FOR_TRANSACTIONS → previous = WAIT_FOR_TRANSACTIONS →
   is_Some (pending_txs_ c)).
Arguments well_placed : simpl never.

(** The state machine: one invocation of the current state's handler per
    entry of the schedule, which gives the clock reading of the invocation
    and the world it finds; the state machine passes the state it comes
    from, and the coordinator's fields carry over.  The result is the state
    to run next, the state it comes from and the fields, or the fault that
    ended the run. *)
Fixpoint run {W} (col : Collaborators W) (cfg : Config)
    (schedule : list (Time * W)) (s previous : State) (c : Coord)
  : Result (State * State * Coord) :=
  match schedule with
  | [] => Ok (s, previous, c)
  | (now, w) :: rest =>
      match step col cfg now s previous c w with
      | Ok (s', m') => run col cfg rest s' s (coord m')
      | Faulted f => Faulted f
      end
  end.

(** A start-up: the chain B2, B1, B0 seen three times by a node that has
    processed nothing. *)
Definition start_up : list (Time * Double.World) :=
  [(0, fresh_world); (1, fresh_world); (2, fresh_world)].

(** Is the command a request to the peers for missing transactions? *)
Definition asks_peers (k : Command) : bool :=
  match k with
  | IssueCallForMissingTxs _ => true
  | _ => false
  end.

(** * Properties *)

(** ** Reasoning about handlers *)

Section Keeps.
Context {W : Type} (col : Collaborators W) (cfg : Config).
Context (I : Coord → Prop) (F : Fault → Prop).

Lemma keeps_ret {A} (a : A) : keeps (W:=W) I F (ret a).
Proof. intros m H. exact H. Qed.

Lemma keeps_bind {A B} (x : M W A) (k : A → M W B) :
  keeps I F x → (∀ a, keeps I F (k a)) → keeps I F (bind x k).
Proof.
  intros Hx Hk m H. specialize (Hx m H). cbn.
  destruct (x m) as [[a m']|f]; [apply Hk, Hx | exact Hx].
Qed.

Lemma keeps_fault {A} (f : Fault) : F f → keeps (W:=W) (A:=A) I F (fault f).
Proof. intros H m _. exact H. Qed.

Lemma keeps_read {A} (f : Coord → A) : keeps (W:=W) I F (read f).
Proof. intros m H. exact H. Qed.

Lemma keeps_the_world : keeps (W:=W) I F the_world.
Proof. intros m H. exact H. Qed.

Lemma keeps_query {R} (q : Query R) : keeps I F (query col q).
Proof. intros m H. exact H. Qed.

Lemma keeps_call (c : Command) : keeps I F (call col c).
Proof. intros m H. exact H. Qed.

Lemma keeps_Delay (ms : N) : keeps (W:=W) I F (Delay ms).
Proof. intros m H. exact H. Qed.

Lemma keeps_modify (f : Coord → Coord) :
  (∀ c, I c → I (f c)) → keeps (W:=W) I F (modify f).
Proof. intros Hf m H. apply Hf, H. Qed.

Lemma keeps_for_each {A} (l : list A) (f : A → M W (option unit)) :
  (∀ a, keeps I F (f a)) → keeps I F (for_each l f).
Proof.
  intros Hf. induction l as [|a l IH]; cbn [for_each].
  - apply keeps_ret.
  - apply keeps_bind; [apply Hf | intros [_|]; [exact IH|apply keeps_ret]].
Qed.

End Keeps.

(** One step of the analysis of a handler's body: a rule of [keeps], or a
    case distinction on what the body branches on. *)
Ltac keeps_step :=
  lazymatch goal with
  | |- keeps _ _ (bind _ _) => apply keeps_bind; [ | intros ? ]
  | |- keeps _ _ (ret _) => apply keeps_ret
  | |- keeps _ _ (read _) => apply keeps_read
  | |- keeps _ _ the_world => apply keeps_the_world
  | |- keeps _ _ (query _ _) => apply keeps_query
  | |- keeps ?I ?F (call ?col ?c) => exact (keeps_call col I F c)
  | |- keeps _ _ (Delay _) => apply keeps_Delay
  | |- keeps _ _ (modify _) => apply keeps_modify; intros ? ?; cbn; auto
  | |- keeps _ _ (fault _) =>
      apply keeps_fault; first [exact Logic.I | cbv beta; discriminate]
  | |- keeps _ _ (for_each _ _) => apply keeps_for_each; intros ?
  | |- keeps _ _ (if true then _ else _) => cbv iota
  | |- keeps _ _ (if false then _ else _) => cbv iota
  | |- keeps _ _ (if ?b then _ else _) => destruct b
  | |- keeps _ _ (match ?x with _ => _ end) => destruct x
  end.

Ltac keeps_auto :=
  cbv zeta;
  unfold UpdateTxStatus, UpdateNextBlockTime, QueryExecutorStatus,
    ScheduleCurrentBlock, ScheduleNextBlock, ScheduleBlock, pre_exec_checks,
    update_next_block, current_block, next_block, dag, stake, synergetic,
    through, deref, when, uncaught;
  repeat keeps_step.

(** The status updates of a list of transactions in two parts. *)
Lemma updates_app {W} (col : Collaborators W) (l1 l2 : list Digest) (w : W) :
  updates_issued col (l1 ++ l2) w =
    updates_issued col l1 w ++
    (if updates_done col l1 w
     then updates_issued col l2 (after_all col (updates_issued col l1 w) w)
     else []) ∧
  updates_done col (l1 ++ l2) w =
    (updates_done col l1 w &&
     updates_done col l2 (after_all col (updates_issued col l1 w) w)).
Proof.
  revert w. induction l1 as [|d l1 IH]; intros w; cbn; [split; reflexivity|].
  destruct (reply col (Update d EXECUTED) w) as [u|]; cbn.
  - destruct (IH (after col (Update d EXECUTED) w)) as [-> ->]. split; reflexivity.
  - split; reflexivity.
Qed.

(** When no status update throws, there is one per transaction, in
    order. *)
Lemma updates_issued_done {W} (col : Collaborators W) (l : list Digest) (w : W) :
  updates_done col l w = true →
  updates_issued col l w = map (λ d, Update d EXECUTED) l.
Proof.
  revert w. induction l as [|d l IH]; intros w; cbn; [reflexivity|].
  destruct (reply col (Update d EXECUTED) w) as [u|]; [|discriminate].
  intros H. rewrite (IH _ H). reflexivity.
Qed.

(** What [UpdateTxStatus] does: one [Update] per transaction, in order, up
    to the first that throws, and nothing else. *)
Lemma for_each_Update {W} (col : Collaborators W) (l : list Digest) (m : Machine W) :
  for_each l (λ tx, call col (Update tx EXECUTED)) m =
    Ok (if updates_done col l (world m) then Some tt else None,
        {| coord := coord m;
           world := after_all col (updates_issued col l (world m)) (world m);
           calls := calls m ++ updates_issued col l (world m);
           delay := delay m |}).
Proof.
  revert m. induction l as [|d l IH]; intros m; cbn [for_each].
  - cbn. rewrite app_nil_r. destruct m; reflexivity.
  - cbn. destruct (reply col (Update d EXECUTED) (world m)) as [u|] eqn:Hr; cbn.
    + rewrite IH. cbn. rewrite <- app_assoc. reflexivity.
    + reflexivity.
Qed.

Lemma UpdateTxStatus_run {W} (col : Collaborators W) (b : Block) (m : Machine W) :
  UpdateTxStatus col b m =
    Ok (if updates_done col (block_transactions b) (world m) then Some tt else None,
        {| coord := coord m;
           world := after_all col (updates_issued col (block_transactions b) (world m))
                      (world m);
           calls := calls m ++ updates_issued col (block_transactions b) (world m);
           delay := delay m |}).
Proof.
  unfold UpdateTxStatus, block_transactions. revert m.
  induction (slices (body b)) as [|sl l IH]; intros m; cbn [for_each concat].
  - cbn. rewrite app_nil_r. destruct m; reflexivity.
  - cbn. rewrite for_each_Update.
    destruct (updates_app col sl (concat l) (world m)) as [-> ->].
    destruct (updates_done col sl (world m)); cbn.
    + rewrite IH. cbn. unfold after_all. rewrite fold_left_app, <- app_assoc.
      reflexivity.
    + rewrite app_nil_r. reflexivity.
Qed.

Section LastExecuted.
Context {W : Type} (col : Collaborators W) (cfg : Config) (v : Digest).

Let unchanged (c : Coord) : Prop := last_executed_block_ c = v.
Let any (f : Fault) : Prop := True.

(** Only three handlers assign [last_executed_block_]; every other one
    keeps it. *)
Lemma handler_keeps_last_executed (now : Time) (s prev : State) :
  s ≠ RELOAD_STATE → s ≠ POST_EXEC_BLOCK_VALIDATION → s ≠ TRANSMIT_BLOCK →
  keeps unchanged any (handler col cfg now s prev).
Proof.
  intros H1 H2 H3.
  destruct s; try congruence; cbn [handler];
    unfold OnSynchronising, OnSynchronised, OnPreExecBlockValidation,
      OnWaitForTransactions, OnSynergeticExecution, OnScheduleBlockExecution,
      OnWaitForExecution, OnPackNewBlock, OnNewSynergeticExecution,
      OnExecuteNewBlock, OnWaitForNewBlockExecution, OnProofSearch, OnReset;
    keeps_auto.
Qed.

End LastExecuted.

Lemma keeps_last_executed_step {W} (col : Collaborators W) cfg now s prev c w s' m' :
  (∀ v, keeps (λ c, last_executed_block_ c = v) (λ _, True) (handler col cfg now s prev)) →
  step col cfg now s prev c w = Ok (s', m') →
  last_executed_block_ (coord m') = last_executed_block_ c.
Proof.
  intros Hk Hs. specialize (Hk (last_executed_block_ c) (enter c w) eq_refl).
  unfold step in Hs. rewrite Hs in Hk. exact Hk.
Qed.

(** ** The three handlers that assign [last_executed_block_] *)

Lemma OnPostExecBlockValidation_commit {W} (col : Collaborators W) cfg now prev c w cur :
  current_block_ c = Some cur →
  GENESIS_DIGEST cfg = previous_hash (body cur) ∨
    ask col CurrentHash w = merkle_hash (body cur) →
  step col cfg now POST_EXEC_BLOCK_VALIDATION prev c w =
    if updates_done col (block_transactions cur) w then
      Ok (RESET, {| coord := set_last_executed_block_ (hash (body cur)) c;
                    world := after_all col (commit_calls cfg cur) w;
                    calls := commit_calls cfg cur;
                    delay := None |})
    else Faulted UncaughtException.
Proof.
  intros Hcur Hvalid.
  unfold step, handler, OnPostExecBlockValidation, enter, commit_calls, dag, through. cbn.
  rewrite Hcur. cbn.
  assert ((if decide (GENESIS_DIGEST cfg ≠ previous_hash (body cur))
           then if decide (ask col CurrentHash w ≠ merkle_hash (body cur))
                then true else false
           else false) = false) as ->.
  { destruct Hvalid; repeat case_decide; congruence. }
  cbn. rewrite UpdateTxStatus_run. cbn.
  destruct (updates_done col (block_transactions cur) w) eqn:Hdone; cbn;
    [|reflexivity].
  rewrite (updates_issued_done col _ w Hdone). fold (status_updates cur).
  unfold after_all. rewrite fold_left_app.
  destruct (dag_ cfg); cbn; rewrite <- ?app_assoc; reflexivity.
Qed.

Lemma OnPostExecBlockValidation_mismatch {W} (col : Collaborators W) cfg now prev c w cur s' m' :
  current_block_ c = Some cur →
  GENESIS_DIGEST cfg ≠ previous_hash (body cur) →
  ask col CurrentHash w ≠ merkle_hash (body cur) →
  step col cfg now POST_EXEC_BLOCK_VALIDATION prev c w = Ok (s', m') →
  s' = RESET ∧ coord m' = c ∧ delay m' = None ∧
  last (calls m') = Some (RemoveBlock (hash (body cur))).
Proof.
  intros Hcur Hgen Hne.
  unfold step, handler, OnPostExecBlockValidation, enter, dag, through. cbn.
  rewrite Hcur. cbn.
  destruct (decide (GENESIS_DIGEST cfg ≠ previous_hash (body cur))); [|contradiction].
  destruct (decide (ask col CurrentHash w ≠ merkle_hash (body cur))); [|contradiction].
  cbn.
  destruct (ask col (GetBlock (previous_hash (body cur))) w) as [p|]; cbn;
    destruct (dag_ cfg); cbn;
    repeat match goal with
           | |- context [if ?b then _ else _] => destruct b; cbn
           end;
    intros H; first [discriminate H | injection H as <- <-]; cbn; repeat split.
Qed.

(** The chain added the block: the status updates follow and, when none of
    them throws, the assignment and the block sink, whose throw is caught
    after the assignment. *)
Lemma OnTransmitBlock_added {W} (col : Collaborators W) cfg now prev c w nb :
  next_block_ c = Some nb →
  reply col (AddBlock nb) w = Some ADDED →
  step col cfg now TRANSMIT_BLOCK prev c w =
    if updates_done col (block_transactions nb) (after col (AddBlock nb) w) then
      Ok (RESET,
          {| coord := set_last_executed_block_ (hash (body nb)) c;
             world := after_all col (AddBlock nb :: status_updates nb ++ [OnBlock nb]) w;
             calls := AddBlock nb :: status_updates nb ++ [OnBlock nb];
             delay := None |})
    else
      let issued :=
        AddBlock nb ::
        updates_issued col (block_transactions nb) (after col (AddBlock nb) w) in
      Ok (RESET, {| coord := c; world := after_all col issued w;
                    calls := issued; delay := None |}).
Proof.
  intros Hnb Hadd.
  unfold step, handler, OnTransmitBlock, enter. cbn.
  rewrite Hnb. cbn. rewrite Hadd. cbn.
  rewrite UpdateTxStatus_run. cbn.
  destruct (updates_done col (block_transactions nb) (after col (AddBlock nb) w))
    eqn:Hdone; cbn; [|reflexivity].
  rewrite (updates_issued_done col _ _ Hdone). fold (status_updates nb).
  unfold after_all. cbn. rewrite fold_left_app. reflexivity.
Qed.

Lemma OnTransmitBlock_not_added {W} (col : Collaborators W) cfg now prev c w nb :
  next_block_ c = Some nb →
  reply col (AddBlock nb) w ≠ Some ADDED →
  step col cfg now TRANSMIT_BLOCK prev c w =
    Ok (RESET, {| coord := c; world := after col (AddBlock nb) w;
                  calls := [AddBlock nb]; delay := None |}).
Proof.
  intros Hnb Hne.
  unfold step, handler, OnTransmitBlock, enter. cbn.
  rewrite Hnb. cbn.
  destruct (reply col (AddBlock nb) w) as [[]|]; congruence || reflexivity.
Qed.

Lemma OnReloadState_cases {W} (col : Collaborators W) cfg now prev c w s' m' :
  step col cfg now RELOAD_STATE prev c w = Ok (s', m') →
  s' = RESET ∧
  (last_executed_block_ (coord m') = last_executed_block_ c ∨
   ∃ cur,
     reloaded_block col c w cur ∧
     GENESIS_DIGEST cfg ≠ previous_hash (body cur) ∧
     reply col (RevertToHash (merkle_hash (body cur)) (block_number (body cur))) w = true ∧
     (dag_ cfg = true →
      reply col (RevertToEpoch (block_number (body cur)))
        (after col (RevertToHash (merkle_hash (body cur)) (block_number (body cur))) w)
      = true) ∧
     last_executed_block_ (coord m') = hash (body cur)).
Proof.
  unfold step, handler, OnReloadState, enter, dag, through, reloaded_block. cbn.
  destruct (current_block_ c) as [cur|] eqn:Hcur; cbn.
  - rewrite Hcur. cbn.
    destruct (decide (GENESIS_DIGEST cfg ≠ previous_hash (body cur))); cbn.
    + destruct (reply col (RevertToHash _ _) w) eqn:Hr; cbn;
        destruct (dag_ cfg); cbn;
        repeat match goal with
               | |- context [if ?b then _ else _] => destruct b eqn:?; cbn
               end;
        intros H; first [discriminate H | injection H as <- <-]; cbn;
        (split; [reflexivity|]);
        first [left; reflexivity | right; exists cur; intuition congruence].
    + intros H; injection H as <- <-; cbn; eauto.
  - destruct (ask col GetHeaviestBlock w) as [cur|] eqn:Hh; cbn; [|discriminate].
    destruct (decide (GENESIS_DIGEST cfg ≠ previous_hash (body cur))); cbn.
    + destruct (reply col (RevertToHash _ _) w) eqn:Hr; cbn;
        destruct (dag_ cfg); cbn;
        repeat match goal with
               | |- context [if ?b then _ else _] => destruct b eqn:?; cbn
               end;
        intros H; first [discriminate H | injection H as <- <-]; cbn;
        (split; [reflexivity|]);
        first [left; reflexivity | right; exists cur; intuition congruence].
    + intros H; injection H as <- <-; cbn; eauto.
Qed.

(** ** The last executed block *)

(** C2, as amended: a step of a handler assigns [last_executed_block_] on
    three paths only, and then the hash of the block at hand -
    POST_EXEC_BLOCK_VALIDATION when the block is committed (its Merkle root
    matched, or its parent is GENESIS and the check is skipped),
    TRANSMIT_BLOCK when the chain answers ADDED and no status update throws,
    RELOAD_STATE when the state was reverted to the reloaded block.  A step
    that ends in one of these failures leaves it unchanged: a Merkle
    mismatch, a block the chain did not add, a status update that throws in
    TRANSMIT_BLOCK, a failed revert, and any step of a handler that does not
    commit.  But in TRANSMIT_BLOCK the assignment comes before the block is
    handed to the block sink: whatever the sink does then, a throw included,
    the step ends in RESET with the last executed block advanced.  Outside
    the handlers, [Reset] sets it to GENESIS. *)
Theorem last_executed_changes_only_on_success
    {W} (col : Collaborators W) cfg now s prev c w s' m' :
  step col cfg now s prev c w = Ok (s', m') →
  (last_executed_block_ (coord m') ≠ last_executed_block_ c →
   s' = RESET ∧ assigned_on_success col cfg s c w (coord m')) ∧
  (error_path col cfg s c w →
   last_executed_block_ (coord m') = last_executed_block_ c) ∧
  (s = TRANSMIT_BLOCK →
   ∀ nb, next_block_ c = Some nb →
         reply col (AddBlock nb) w = Some ADDED →
         updates_done col (block_transactions nb) (after col (AddBlock nb) w) = true →
         s' = RESET ∧
         last_executed_block_ (coord m') = hash (body nb) ∧
         last (calls m') = Some (OnBlock nb)) ∧
  (∀ m, ∃ m0, Reset col cfg m = Ok (tt, m0) ∧
              last_executed_block_ (coord m0) = GENESIS_DIGEST cfg).
Proof.
  intros Hstep.
  assert (last_executed_block_ (coord m') ≠ last_executed_block_ c →
          s' = RESET ∧ assigned_on_success col cfg s c w (coord m')) as Hsuccess.
  { intros Hchg. unfold assigned_on_success.
    destruct (decide (s = POST_EXEC_BLOCK_VALIDATION)) as [->|Hpost].
    { destruct (current_block_ c) as [cur|] eqn:Hcur.
      2:{ revert Hstep. unfold step, handler, OnPostExecBlockValidation, enter.
          cbn. rewrite Hcur. discriminate. }
      destruct (decide (GENESIS_DIGEST cfg = previous_hash (body cur))) as [Hg|Hg].
      { rewrite (OnPostExecBlockValidation_commit col cfg now prev c w cur Hcur
                   (or_introl Hg)) in Hstep.
        destruct (updates_done col (block_transactions cur) w); [|discriminate Hstep].
        injection Hstep as <- <-. split; [reflexivity|]. left. split; [reflexivity|].
        exists cur. cbn. auto. }
      destruct (decide (ask col CurrentHash w = merkle_hash (body cur))) as [Hm|Hm].
      { rewrite (OnPostExecBlockValidation_commit col cfg now prev c w cur Hcur
                   (or_intror Hm)) in Hstep.
        destruct (updates_done col (block_transactions cur) w); [|discriminate Hstep].
        injection Hstep as <- <-. split; [reflexivity|]. left. split; [reflexivity|].
        exists cur. cbn. auto. }
      destruct (OnPostExecBlockValidation_mismatch col cfg now prev c w cur s' m'
                  Hcur Hg Hm Hstep) as (_ & Hc & _).
      rewrite Hc in Hchg. contradiction. }
    destruct (decide (s = TRANSMIT_BLOCK)) as [->|Htx].
    { destruct (next_block_ c) as [nb|] eqn:Hnb.
      2:{ revert Hstep. unfold step, handler, OnTransmitBlock, enter.
          cbn. rewrite Hnb. discriminate. }
      assert (reply col (AddBlock nb) w = Some ADDED ∨
              reply col (AddBlock nb) w ≠ Some ADDED) as [Ha|Ha].
      { destruct (reply col (AddBlock nb) w) as [[]|]; auto; right; congruence. }
      { rewrite (OnTransmitBlock_added col cfg now prev c w nb Hnb Ha) in Hstep.
        destruct (updates_done col (block_transactions nb) (after col (AddBlock nb) w))
          eqn:Hdone.
        - injection Hstep as <- <-. split; [reflexivity|]. right. left.
          split; [reflexivity|]. exists nb. cbn. auto.
        - cbv zeta in Hstep. injection Hstep as <- <-. cbn in Hchg. contradiction. }
      rewrite (OnTransmitBlock_not_added col cfg now prev c w nb Hnb Ha) in Hstep.
      injection Hstep as <- <-. cbn in Hchg. contradiction. }
    destruct (decide (s = RELOAD_STATE)) as [->|Hrel].
    { destruct (OnReloadState_cases col cfg now prev c w s' m' Hstep)
        as (-> & [Heq|(cur & Hcur)]); [contradiction|].
      split; [reflexivity|].
      right. right. split; [reflexivity|]. exists cur. exact Hcur. }
    exfalso. apply Hchg.
    eapply keeps_last_executed_step; [|exact Hstep].
    intros v. apply handler_keeps_last_executed; assumption. }
  split; [exact Hsuccess|]. split; [|split].
  - intros Hfail.
    destruct (decide (last_executed_block_ (coord m') = last_executed_block_ c))
      as [Heq|Hne]; [exact Heq|].
    exfalso. destruct (Hsuccess Hne) as (_ & Hcases).
    destruct Hfail as [(H1 & H2 & H3)|[(-> & cur & Hcur & Hg & Hm)|
                      [(-> & nb & Hnb & Ha)|(-> & cur & Hcur & Hr)]]];
      destruct Hcases as [(E & cur' & Hc')|[(E & nb' & Hn')|(E & cur' & Hc')]];
      try congruence.
    + destruct Hc' as (Hc1 & [?|?] & _); congruence.
    + destruct Hn' as (Hn1 & Hn2 & Hn3 & _).
      rewrite Hnb in Hn1. injection Hn1 as <-.
      destruct Ha as [Ha|Ha]; [contradiction|]. rewrite Ha in Hn3. discriminate Hn3.
    + destruct Hc' as (Hc1 & _ & Hr' & Hd' & _).
      assert (cur' = cur) as ->
        by (clear - Hcur Hc1; destruct Hcur as [?|[? ?]], Hc1 as [?|[? ?]]; congruence).
      destruct Hr as [Hr|[Hdag Hr]].
      * rewrite Hr in Hr'. discriminate.
      * rewrite (Hd' Hdag) in Hr. discriminate.
  - intros -> nb Hnb Ha Hdone.
    rewrite (OnTransmitBlock_added col cfg now prev c w nb Hnb Ha), Hdone in Hstep.
    injection Hstep as <- <-. cbn. split; [reflexivity|]. split; [reflexivity|].
    rewrite app_comm_cons. apply last_snoc.
  - intros m. unfold Reset. cbn.
    destruct (reply col ChainReset _). eexists. split; reflexivity.
Qed.

Lemma last_executed_changes_only_on_success_witness :
  ∃ m',
    step Double.collaborators (Sample.cfg false false false) 0
         TRANSMIT_BLOCK PROOF_SEARCH
         (Sample.coordinator None (Some Sample.B3)) (Sample.world (Some ADDED))
    = Ok (RESET, m') ∧
    last_executed_block_ (Sample.coordinator None (Some Sample.B3)) = "b1" ∧
    last_executed_block_ (coord m') = "b3" ∧
    RESET = RESET ∧
    assigned_on_success Double.collaborators (Sample.cfg false false false)
      TRANSMIT_BLOCK (Sample.coordinator None (Some Sample.B3))
      (Sample.world (Some ADDED)) (coord m').
Proof.
  eexists. split; [vm_compute; reflexivity|].
  split; [reflexivity|]. split; [reflexivity|].
  refine (proj1 (last_executed_changes_only_on_success Double.collaborators
                   (Sample.cfg false false false) 0 TRANSMIT_BLOCK PROOF_SEARCH
                   (Sample.coordinator None (Some Sample.B3))
                   (Sample.world (Some ADDED)) RESET _ _) _).
  - vm_compute. reflexivity.
  - vm_compute. discriminate.
Defined.

(** C2, as stated, fails: the chain adds the minted block B3, the status
    updates go through, and the block sink throws.  The step of
    TRANSMIT_BLOCK catches the exception and ends in RESET, a transmission
    failure, yet it has moved [last_executed_block_] from b1 to b3 - and B3
    never went through POST_EXEC_BLOCK_VALIDATION. *)
Lemma transmit_advances_last_executed :
  ∃ m',
    step throwing_sink (Sample.cfg false false false) 0
         TRANSMIT_BLOCK PROOF_SEARCH
         (Sample.coordinator None (Some Sample.B3)) (Sample.world (Some ADDED))
    = Ok (RESET, m') ∧
    last (calls m') = Some (OnBlock Sample.B3) ∧
    (∀ w, reply throwing_sink (OnBlock Sample.B3) w = None) ∧
    last_executed_block_ (Sample.coordinator None (Some Sample.B3)) = "b1" ∧
    last_executed_block_ (coord m') = "b3" ∧
    last_executed_block_ (coord m') ≠
      last_executed_block_ (Sample.coordinator None (Some Sample.B3)) ∧
    TRANSMIT_BLOCK ≠ POST_EXEC_BLOCK_VALIDATION.
Proof.
  eexists. split; [vm_compute; reflexivity|].
  repeat split; try reflexivity; vm_compute; discriminate.
Qed.

(** ** The executor status *)

(** C8: [QueryExecutorStatus] answers for every state of the execution
    engine, with the coordinator's view the table gives - IDLE for IDLE,
    RUNNING for ACTIVE, STALLED for TRANSACTIONS_UNAVAILABLE, ERROR for both
    EXECUTION_ABORTED and EXECUTION_FAILED - and with that view only; it
    changes nothing. *)
Theorem QueryExecutorStatus_table {W} (col : Collaborators W) (m : Machine W) :
  QueryExecutorStatus col m = Ok (coordinator_view (ask col GetState (world m)), m) ∧
  (∀ v m', QueryExecutorStatus col m = Ok (v, m') →
           v = coordinator_view (ask col GetState (world m))) ∧
  coordinator_view ES_IDLE = IDLE ∧
  coordinator_view ES_ACTIVE = RUNNING ∧
  coordinator_view ES_TRANSACTIONS_UNAVAILABLE = STALLED ∧
  coordinator_view ES_EXECUTION_ABORTED = ERROR ∧
  coordinator_view ES_EXECUTION_FAILED = ERROR.
Proof.
  assert (QueryExecutorStatus col m =
          Ok (coordinator_view (ask col GetState (world m)), m)) as Hrun.
  { unfold QueryExecutorStatus. cbn.
    destruct (ask col GetState (world m)); reflexivity. }
  split; [exact Hrun|]. split; [|repeat split].
  intros v m' H. rewrite Hrun in H. injection H as <- _. reflexivity.
Qed.

(** ** Transmitting a minted block *)

Lemma OnReset_clears {W} (col : Collaborators W) cfg now prev c w :
  ∃ m', step col cfg now RESET prev c w = Ok (SYNCHRONISING, m') ∧
        current_block_ (coord m') = None ∧
        next_block_ (coord m') = None ∧
        pending_txs_ (coord m') = None ∧
        blocks_to_common_ancestor_ (coord m') = [] ∧
        next_block_time_ (coord m') = now + block_period_ c ∧
        last_executed_block_ (coord m') = last_executed_block_ c.
Proof.
  unfold step, handler, OnReset, UpdateNextBlockTime, enter, stake, through. cbn.
  destruct (stake_ cfg); cbn;
    [destruct (next_block_ c); cbn; [|destruct (current_block_ c); cbn]|];
    eexists; (split; [reflexivity|]); cbn; auto 10.
Qed.

(** C10: in TRANSMIT_BLOCK, when [AddBlock] answers ALREADY_PRESENT or
    REJECTED, or throws, the handler does nothing but that call: no
    transaction status is updated, the block sink is not invoked, the
    coordinator's fields - [last_executed_block_] among them - are unchanged,
    and the next state is RESET, whose handler then discards the block. *)
Theorem OnTransmitBlock_drops_block
    {W} (col : Collaborators W) cfg now prev c w nb :
  next_block_ c = Some nb →
  reply col (AddBlock nb) w = Some ALREADY_PRESENT ∨
  reply col (AddBlock nb) w = Some REJECTED ∨
  reply col (AddBlock nb) w = None →
  ∃ m', step col cfg now TRANSMIT_BLOCK prev c w = Ok (RESET, m') ∧
        calls m' = [AddBlock nb] ∧
        (∀ d st, Update d st ∉ calls m') ∧
        (∀ b, OnBlock b ∉ calls m') ∧
        coord m' = c ∧
        last_executed_block_ (coord m') = last_executed_block_ c ∧
        world m' = after col (AddBlock nb) w ∧
        ∀ now' w', ∃ m'',
          step col cfg now' RESET TRANSMIT_BLOCK (coord m') w' = Ok (SYNCHRONISING, m'') ∧
          next_block_ (coord m'') = None ∧
          last_executed_block_ (coord m'') = last_executed_block_ c.
Proof.
  intros Hnb Hrep.
  assert (reply col (AddBlock nb) w ≠ Some ADDED) as Hne.
  { destruct Hrep as [H|[H|H]]; rewrite H; discriminate. }
  rewrite (OnTransmitBlock_not_added col cfg now prev c w nb Hnb Hne).
  eexists. split; [reflexivity|]. cbn.
  split; [reflexivity|].
  split; [intros d st [H|H]%elem_of_cons; [discriminate H | inversion H]|].
  split; [intros b [H|H]%elem_of_cons; [discriminate H | inversion H]|].
  split; [reflexivity|]. split; [reflexivity|]. split; [reflexivity|].
  intros now' w'.
  destruct (OnReset_clears col cfg now' TRANSMIT_BLOCK c w') as (m'' & Hr & _ & Hn & _ & _ & _ & Hl).
  exists m''. auto.
Qed.

Lemma OnTransmitBlock_drops_block_witness :
  next_block_ (Sample.coordinator None (Some Sample.B3)) = Some Sample.B3 ∧
  reply Double.collaborators (AddBlock Sample.B3) (Sample.world (Some REJECTED))
    = Some REJECTED ∧
  ∃ m', step Double.collaborators (Sample.cfg true true true) 5 TRANSMIT_BLOCK
             PROOF_SEARCH (Sample.coordinator None (Some Sample.B3))
             (Sample.world (Some REJECTED)) = Ok (RESET, m') ∧
        calls m' = [AddBlock Sample.B3] ∧
        (∀ d st, Update d st ∉ calls m') ∧
        (∀ b, OnBlock b ∉ calls m') ∧
        coord m' = Sample.coordinator None (Some Sample.B3) ∧
        last_executed_block_ (coord m') =
          last_executed_block_ (Sample.coordinator None (Some Sample.B3)) ∧
        world m' = after Double.collaborators (AddBlock Sample.B3)
                     (Sample.world (Some REJECTED)) ∧
        ∀ now' w', ∃ m'',
          step Double.collaborators (Sample.cfg true true true) now' RESET
               TRANSMIT_BLOCK (coord m') w' = Ok (SYNCHRONISING, m'') ∧
          next_block_ (coord m'') = None ∧
          last_executed_block_ (coord m'') =
            last_executed_block_ (Sample.coordinator None (Some Sample.B3)).
Proof.
  split; [reflexivity|]. split; [reflexivity|].
  apply (OnTransmitBlock_drops_block Double.collaborators (Sample.cfg true true true)
           5 PROOF_SEARCH (Sample.coordinator None (Some Sample.B3))
           (Sample.world (Some REJECTED)) Sample.B3).
  - reflexivity.
  - right. left. reflexivity.
Defined.

(** ** Fork reconciliation in SYNCHRONISING *)

(** Up to the look at the common parent's state, fork reconciliation issues
    no command; it leaves the path in the cache. *)
Lemma OnSynchronising_reconciles
    {W} (col : Collaborators W) cfg now prev c w cur front next common_parent :
  fork_reconciliation col cfg c w cur front next common_parent →
  step col cfg now SYNCHRONISING prev c w =
    (let c1 := set_blocks_to_common_ancestor_ (front ++ [next; common_parent])
                 (set_current_block_ (Some cur) c) in
     let m1 := enter c1 w in
     (state_known <-
        query col (HashExists (merkle_hash (body common_parent))
                              (block_number (body common_parent))) ;;
      if negb state_known then
        call col (SetLastProcessedBlock (GENESIS_DIGEST cfg)) ;;
        call col (RevertToHash (GENESIS_MERKLE_ROOT cfg) 0) ;;
        (if dag_ cfg then call col (RevertToEpoch 0) ;; ret tt else ret tt) ;;
        Delay 5000 ;;
        ret RESET
      else
        reverted <-
          call col (RevertToHash (merkle_hash (body common_parent))
                                 (block_number (body common_parent))) ;;
        if negb reverted then Delay 5000 ;; ret RESET
        else
          dag_failed <-
            (if dag_ cfg then
               r <- call col (RevertToEpoch (block_number (body common_parent))) ;;
               ret (negb r)
             else ret false) ;;
          if dag_failed then Delay 5000 ;; ret RESET
          else
            modify (set_current_block_ (Some next)) ;;
            modify (λ c, set_blocks_to_common_ancestor_
                           (pop_back (blocks_to_common_ancestor_ c)) c) ;;
            remaining <- read blocks_to_common_ancestor_ ;;
            when (N.of_nat (length remaining) <? THRESHOLD_FOR_FAST_SYNCING)
                 (modify (set_blocks_to_common_ancestor_ [])) ;;
            ret PRE_EXEC_BLOCK_VALIDATION)%coord m1).
Proof.
  intros (Hcur & Hhash & Hgen & Hlast & Hpath).
  unfold step, handler, OnSynchronising, enter, dag, through.
  unfold synchronising_block in Hcur. unfold ancestor_path in Hpath.
  destruct c as [cb nb pend cached le nbt per mi me asked t1 t2]. cbn in *.
  assert (rev (front ++ [next; common_parent]) =
          common_parent :: next :: rev front) as Hrev.
  { rewrite rev_app_distr. reflexivity. }
  destruct cb as [b|]; cbn -[rev]; [injection Hcur as ->|rewrite Hcur; cbn -[rev]].
  all: destruct (decide (hash (body cur) = EmptyString)); [contradiction|]; cbn -[rev].
  all: destruct (dag_ cfg) eqn:Hdag; cbn -[rev].
  all: destruct (decide (GENESIS_DIGEST cfg = ask col LastProcessedBlock w));
         [contradiction|]; cbn -[rev].
  all: destruct (decide (hash (body cur) = ask col LastProcessedBlock w));
         [contradiction|]; cbn -[rev].
  all: destruct cached as [|b0 l0]; cbn -[rev];
         [rewrite Hpath|injection Hpath as Hpath];
         cbn -[rev]; rewrite ?Hpath, Hrev; cbn; reflexivity.
Qed.

(** C5: in fork reconciliation, when the state store does not have the
    common parent's (Merkle root, block number), the coordinator sets the
    execution engine's last processed block to GENESIS, reverts the state
    store to the GENESIS Merkle root at block 0 and, with a DAG, the DAG to
    epoch 0 - these commands and no other, in this order -, requests a delay
    of 5 seconds and goes to RESET. *)
Theorem OnSynchronising_reverts_to_genesis
    {W} (col : Collaborators W) cfg now prev c w cur front next common_parent :
  fork_reconciliation col cfg c w cur front next common_parent →
  ask col (HashExists (merkle_hash (body common_parent))
                      (block_number (body common_parent))) w = false →
  ∃ m', step col cfg now SYNCHRONISING prev c w = Ok (RESET, m') ∧
        calls m' = revert_to_genesis cfg ∧
        world m' = after_all col (revert_to_genesis cfg) w ∧
        delay m' = Some 5000 ∧
        last_executed_block_ (coord m') = last_executed_block_ c.
Proof.
  intros Hfork Hmissing.
  rewrite (OnSynchronising_reconciles col cfg now prev c w cur front next
             common_parent Hfork).
  unfold enter, revert_to_genesis. cbn. rewrite Hmissing. cbn.
  destruct (dag_ cfg); cbn; eexists; (split; [reflexivity|]); cbn; auto.
Qed.

Lemma OnSynchronising_reverts_to_genesis_witness :
  fork_reconciliation Double.collaborators (Sample.cfg true false false)
    (Sample.coordinator None None) Sample.world_without_states
    Sample.B2 [] Sample.B2 Sample.B1 ∧
  ask Double.collaborators (HashExists "root1" 1) Sample.world_without_states = false ∧
  ∃ m', step Double.collaborators (Sample.cfg true false false) 0 SYNCHRONISING RESET
             (Sample.coordinator None None) Sample.world_without_states
        = Ok (RESET, m') ∧
        calls m' = [SetLastProcessedBlock "genesis"; RevertToHash "root0" 0;
                    RevertToEpoch 0] ∧
        world m' = after_all Double.collaborators
                     (revert_to_genesis (Sample.cfg true false false))
                     Sample.world_without_states ∧
        delay m' = Some 5000 ∧
        last_executed_block_ (coord m') =
          last_executed_block_ (Sample.coordinator None None).
Proof.
  assert (fork_reconciliation Double.collaborators (Sample.cfg true false false)
            (Sample.coordinator None None) Sample.world_without_states
            Sample.B2 [] Sample.B2 Sample.B1) as Hfork.
  { repeat split; vm_compute; discriminate. }
  split; [exact Hfork|]. split; [reflexivity|].
  exact (OnSynchronising_reverts_to_genesis Double.collaborators
           (Sample.cfg true false false) 0 RESET (Sample.coordinator None None)
           Sample.world_without_states Sample.B2 [] Sample.B2 Sample.B1
           Hfork eq_refl).
Defined.

(** C3, as amended: in fork reconciliation, once the common parent's state
    is known to the state store and the store (and the DAG, if present) has
    been reverted to it, the coordinator makes the second least recent entry
    of the path its current block, removes the least recent entry - the
    common parent, at the back of the tip-first path; the tip stays in the
    cache - and so consumes one entry, empties the cache when fewer than
    [THRESHOLD_FOR_FAST_SYNCING] entries remain, and goes to
    PRE_EXEC_BLOCK_VALIDATION. *)
Theorem OnSynchronising_next_block
    {W} (col : Collaborators W) cfg now prev c w cur front next common_parent :
  fork_reconciliation col cfg c w cur front next common_parent →
  ask col (HashExists (merkle_hash (body common_parent))
                      (block_number (body common_parent))) w = true →
  reply col (RevertToHash (merkle_hash (body common_parent))
                          (block_number (body common_parent))) w = true →
  (dag_ cfg = true →
   reply col (RevertToEpoch (block_number (body common_parent)))
     (after col (RevertToHash (merkle_hash (body common_parent))
                              (block_number (body common_parent))) w) = true) →
  ∃ m', step col cfg now SYNCHRONISING prev c w =
          Ok (PRE_EXEC_BLOCK_VALIDATION, m') ∧
        calls m' = revert_to cfg common_parent ∧
        world m' = after_all col (revert_to cfg common_parent) w ∧
        delay m' = None ∧
        current_block_ (coord m') = Some next ∧
        blocks_to_common_ancestor_ (coord m') =
          (if N.of_nat (length (front ++ [next])) <? THRESHOLD_FOR_FAST_SYNCING
           then [] else front ++ [next]) ∧
        pop_back (front ++ [next; common_parent]) = front ++ [next] ∧
        length (front ++ [next; common_parent]) = S (length (front ++ [next])).
Proof.
  intros Hfork Hknown Hstore Hdag.
  rewrite (OnSynchronising_reconciles col cfg now prev c w cur front next
             common_parent Hfork).
  assert (pop_back (front ++ [next; common_parent]) = front ++ [next]) as Hpop.
  { unfold pop_back.
    change [next; common_parent] with ([next] ++ [common_parent]).
    rewrite app_assoc. apply removelast_last. }
  unfold enter, revert_to. cbn -[pop_back N.ltb]. rewrite Hknown. cbn -[pop_back N.ltb].
  rewrite Hstore. cbn -[pop_back N.ltb].
  destruct (dag_ cfg); cbn -[pop_back N.ltb]; [rewrite (Hdag eq_refl)|];
    cbn -[pop_back N.ltb]; rewrite Hpop;
    destruct (N.of_nat (length (front ++ [next])) <? THRESHOLD_FOR_FAST_SYNCING);
    cbn; eexists; (split; [reflexivity|]); cbn;
    rewrite !length_app; cbn; repeat split; lia.
Qed.

Lemma OnSynchronising_next_block_witness :
  fork_reconciliation Double.collaborators (Sample.cfg true false false)
    (Sample.coordinator None None) (Sample.world None)
    Sample.B2 [] Sample.B2 Sample.B1 ∧
  ∃ m', step Double.collaborators (Sample.cfg true false false) 0 SYNCHRONISING RESET
             (Sample.coordinator None None) (Sample.world None)
        = Ok (PRE_EXEC_BLOCK_VALIDATION, m') ∧
        calls m' = revert_to (Sample.cfg true false false) Sample.B1 ∧
        world m' = after_all Double.collaborators
                     (revert_to (Sample.cfg true false false) Sample.B1)
                     (Sample.world None) ∧
        delay m' = None ∧
        current_block_ (coord m') = Some Sample.B2 ∧
        blocks_to_common_ancestor_ (coord m') =
          (if N.of_nat (length ([] ++ [Sample.B2])) <? THRESHOLD_FOR_FAST_SYNCING
           then [] else [] ++ [Sample.B2]) ∧
        pop_back ([] ++ [Sample.B2; Sample.B1]) = [] ++ [Sample.B2] ∧
        length ([] ++ [Sample.B2; Sample.B1]) = S (length ([] ++ [Sample.B2])).
Proof.
  assert (fork_reconciliation Double.collaborators (Sample.cfg true false false)
            (Sample.coordinator None None) (Sample.world None)
            Sample.B2 [] Sample.B2 Sample.B1) as Hfork.
  { repeat split; vm_compute; discriminate. }
  split; [exact Hfork|].
  exact (OnSynchronising_next_block Double.collaborators
           (Sample.cfg true false false) 0 RESET (Sample.coordinator None None)
           (Sample.world None) Sample.B2 [] Sample.B2 Sample.B1
           Hfork eq_refl eq_refl (λ _, eq_refl)).
Defined.

(** C3, as stated, fails: catching up from block 1 to block 101 with a path
    of 101 entries, the step leaves 100 entries in the cache, and they are
    not the path without its tip: the tip, block 101, is still the first
    entry, and the entry that went is the common parent, block 1. *)
Lemma OnSynchronising_keeps_tip :
  ∃ m', step Double.collaborators (Sample.cfg false false false) 0 SYNCHRONISING RESET
             (Sample.coordinator None None) Sample.long_world
        = Ok (PRE_EXEC_BLOCK_VALIDATION, m') ∧
        head Sample.long_path = Some (Sample.numbered 101) ∧
        last Sample.long_path = Some (Sample.numbered 1) ∧
        current_block_ (coord m') = Some (Sample.numbered 2) ∧
        length (blocks_to_common_ancestor_ (coord m')) = 100%nat ∧
        blocks_to_common_ancestor_ (coord m') ≠ tail Sample.long_path ∧
        head (blocks_to_common_ancestor_ (coord m')) = Some (Sample.numbered 101) ∧
        last (blocks_to_common_ancestor_ (coord m')) = Some (Sample.numbered 2).
Proof.
  eexists. split; [vm_compute; reflexivity|].
  repeat split; try (vm_compute; reflexivity).
  intros H. apply (f_equal head) in H. vm_compute in H. discriminate H.
Qed.

(** ** Synergetic execution *)

(** C4, as amended: in SYNERGETIC_EXECUTION, with a synergetic manager and a
    current block that is not a genesis block and whose previous block is in
    the chain, a failure of [ValidateWorkAndUpdateState] makes the coordinator
    remove the current block from the chain and go to RESET; a failure of
    preparing the work queue again makes it go to RESET without removing the
    block; when both succeed it goes to SCHEDULE_BLOCK_EXECUTION.  The
    coordinator's fields are unchanged. *)
Theorem OnSynergeticExecution_cases
    {W} (col : Collaborators W) cfg now prev c w cur previous :
  synergetic_exec_mgr_ cfg = true →
  current_block_ c = Some cur →
  previous_hash (body cur) ≠ GENESIS_DIGEST cfg →
  ask col (GetBlock (previous_hash (body cur))) w = Some previous →
  let prepare := PrepareWorkQueue cur previous in
  let validate := ValidateWorkAndUpdateState (block_number (body cur)) (num_lanes_ cfg) in
  let remove := RemoveBlock (hash (body cur)) in
  ∃ s' m', step col cfg now SYNERGETIC_EXECUTION prev c w = Ok (s', m') ∧
           coord m' = c ∧ delay m' = None ∧
           world m' = after_all col (calls m') w ∧
           match reply col prepare w with
           | SYN_FAILURE _ => s' = RESET ∧ calls m' = [prepare]
           | SUCCESS =>
               if reply col validate (after col prepare w)
               then s' = SCHEDULE_BLOCK_EXECUTION ∧ calls m' = [prepare; validate]
               else s' = RESET ∧ calls m' = [prepare; validate; remove]
           end.
Proof.
  intros Hsyn Hcur Hgen Hprev prepare validate remove.
  unfold step, handler, OnSynergeticExecution, enter, synergetic, through. cbn.
  rewrite Hcur, Hsyn. cbn.
  rewrite (bool_decide_eq_false_2 _ Hgen). cbn. rewrite Hprev. cbn.
  fold prepare. destruct (reply col prepare w); cbn.
  - fold validate. destruct (reply col validate (after col prepare w)); cbn;
      eexists _, _; (split; [reflexivity|]); cbn; auto.
  - eexists _, _; (split; [reflexivity|]); cbn; auto.
Qed.

Lemma OnSynergeticExecution_cases_witness :
  ∃ s' m',
    step Double.collaborators (Sample.cfg false false true) 0 SYNERGETIC_EXECUTION
         WAIT_FOR_TRANSACTIONS (Sample.coordinator (Some Sample.B2) None)
         (Double.with_synergetic SUCCESS false (Sample.world None)) = Ok (s', m') ∧
    coord m' = Sample.coordinator (Some Sample.B2) None ∧ delay m' = None ∧
    world m' = after_all Double.collaborators (calls m')
                 (Double.with_synergetic SUCCESS false (Sample.world None)) ∧
    match reply Double.collaborators (PrepareWorkQueue Sample.B2 Sample.B1)
            (Double.with_synergetic SUCCESS false (Sample.world None)) with
    | SYN_FAILURE _ => s' = RESET ∧ calls m' = [PrepareWorkQueue Sample.B2 Sample.B1]
    | SUCCESS =>
        if reply Double.collaborators (ValidateWorkAndUpdateState 2 1)
             (after Double.collaborators (PrepareWorkQueue Sample.B2 Sample.B1)
                (Double.with_synergetic SUCCESS false (Sample.world None)))
        then s' = SCHEDULE_BLOCK_EXECUTION ∧
             calls m' = [PrepareWorkQueue Sample.B2 Sample.B1;
                         ValidateWorkAndUpdateState 2 1]
        else s' = RESET ∧
             calls m' = [PrepareWorkQueue Sample.B2 Sample.B1;
                         ValidateWorkAndUpdateState 2 1; RemoveBlock "b2"]
    end.
Proof.
  apply (OnSynergeticExecution_cases Double.collaborators (Sample.cfg false false true)
           0 WAIT_FOR_TRANSACTIONS (Sample.coordinator (Some Sample.B2) None)
           (Double.with_synergetic SUCCESS false (Sample.world None))
           Sample.B2 Sample.B1).
  - reflexivity.
  - reflexivity.
  - vm_compute. discriminate.
  - reflexivity.
Defined.

(** C4, as stated, fails: when preparing the work queue for B2 fails, the
    step goes to RESET with no other command than [PrepareWorkQueue]; B2 is
    not removed and is still in the chain. *)
Lemma OnSynergeticExecution_keeps_block :
  ∃ m',
    step Double.collaborators (Sample.cfg false false true) 0 SYNERGETIC_EXECUTION
         WAIT_FOR_TRANSACTIONS (Sample.coordinator (Some Sample.B2) None)
         (Double.with_synergetic (SYN_FAILURE 1) true (Sample.world None))
    = Ok (RESET, m') ∧
    calls m' = [PrepareWorkQueue Sample.B2 Sample.B1] ∧
    (RemoveBlock (hash (body Sample.B2)) ∉ calls m') ∧
    ask Double.collaborators (GetBlock (hash (body Sample.B2))) (world m')
      = Some Sample.B2.
Proof.
  eexists. split; [vm_compute; reflexivity|].
  split; [reflexivity|]. split; [|reflexivity].
  intros [H|H]%elem_of_cons; [discriminate H | inversion H].
Qed.

(** ** Minting in SYNCHRONISED *)

(** C7: in SYNCHRONISED, when the heaviest tip is the current block, mining
    is on and enabled, the time of the next block has come and the stake
    manager, if there is one, lets this node generate, the coordinator makes
    a new block on top of the current one - its previous hash is the current
    block's hash, its number the current block's number plus one (in 64-bit
    arithmetic), its miner the mining address, its weight the stake manager's
    when there is one, its proof target the configured difficulty, its DAG
    epoch the one the DAG creates for its number when there is a DAG -,
    clears the current block and goes to NEW_SYNERGETIC_EXECUTION. *)
Theorem OnSynchronised_mints
    {W} (col : Collaborators W) cfg now prev c w cur :
  current_block_ c = Some cur →
  ask col GetHeaviestBlockHash w = hash (body cur) →
  mining_ c = true →
  mining_enabled_ c = true →
  next_block_time_ c ≤ now →
  (stake_ cfg = true →
   ask col (ShouldGenerateBlock cur (mining_address_ cfg)) w = true) →
  ∃ m' nb,
    step col cfg now SYNCHRONISED prev c w = Ok (NEW_SYNERGETIC_EXECUTION, m') ∧
    next_block_ (coord m') = Some nb ∧
    current_block_ (coord m') = None ∧
    previous_hash (body nb) = hash (body cur) ∧
    block_number (body nb) = u64 (block_number (body cur) + 1) ∧
    (block_number (body cur) + 1 < 2 ^ 64 →
     block_number (body nb) = block_number (body cur) + 1) ∧
    miner (body nb) = mining_address_ cfg ∧
    weight nb = (if stake_ cfg
                 then ask col (GetBlockGenerationWeight cur (mining_address_ cfg)) w
                 else weight (Block_default cfg)) ∧
    target (proof nb) = block_difficulty_ cfg ∧
    dag_epoch (body nb) =
      (if dag_ cfg
       then reply col (CreateEpoch (u64 (block_number (body cur) + 1))) w
       else dag_epoch (body (Block_default cfg))) ∧
    calls m' = (if dag_ cfg
                then [CreateEpoch (u64 (block_number (body cur) + 1))] else []) ∧
    delay m' = None ∧
    last_executed_block_ (coord m') = last_executed_block_ c.
Proof.
  intros Hcur Htip Hmining Henabled Htime Hstake.
  unfold step, handler, OnSynchronised, enter, dag, stake, through. cbn.
  rewrite Hcur. cbn. rewrite Htip.
  destruct (decide (hash (body cur) ≠ hash (body cur))); [congruence|]. cbn.
  rewrite Hmining, Henabled. apply N.leb_le in Htime. rewrite Htime. cbn.
  assert (block_number (body cur) + 1 < 2 ^ 64 →
          u64 (block_number (body cur) + 1) = block_number (body cur) + 1) as Hsmall.
  { intros H. unfold u64. apply N.mod_small, H. }
  destruct (stake_ cfg); cbn; [rewrite (Hstake eq_refl); cbn|];
    destruct (dag_ cfg); cbn;
    eexists _, _; (split; [reflexivity|]); cbn; repeat split; auto.
Qed.

Lemma OnSynchronised_mints_witness :
  1000 ≤ 2000 ∧
  ∃ m' nb,
    step Double.collaborators (Sample.cfg true true false) 2000 SYNCHRONISED
         SYNCHRONISED (Sample.coordinator (Some Sample.B2) None) (Sample.world None)
    = Ok (NEW_SYNERGETIC_EXECUTION, m') ∧
    next_block_ (coord m') = Some nb ∧
    current_block_ (coord m') = None ∧
    previous_hash (body nb) = "b2" ∧
    block_number (body nb) = u64 (2 + 1) ∧
    (2 + 1 < 2 ^ 64 → block_number (body nb) = 2 + 1) ∧
    miner (body nb) = "miner" ∧
    weight nb = 7 ∧
    target (proof nb) = 4 ∧
    dag_epoch (body nb) =
      reply Double.collaborators (CreateEpoch (u64 (2 + 1))) (Sample.world None) ∧
    calls m' = [CreateEpoch (u64 (2 + 1))] ∧
    delay m' = None ∧
    last_executed_block_ (coord m') = "b1".
Proof.
  split; [lia|].
  apply (OnSynchronised_mints Double.collaborators (Sample.cfg true true false)
           2000 SYNCHRONISED (Sample.coordinator (Some Sample.B2) None)
           (Sample.world None) Sample.B2).
  - reflexivity.
  - reflexivity.
  - reflexivity.
  - reflexivity.
  - cbn. lia.
  - reflexivity.
Defined.

(** ** The DAG pointer *)

Lemma handler_guards_dag {W} (col : Collaborators W) cfg now s prev :
  dag_ cfg = false → s ≠ POST_EXEC_BLOCK_VALIDATION →
  keeps (λ _, True) (λ f, f ≠ NullDereference p_dag_) (handler col cfg now s prev).
Proof.
  intros Hdag Hs.
  destruct s; try congruence; cbn [handler];
    unfold OnReloadState, OnSynchronising, OnSynchronised, OnPreExecBlockValidation,
      OnWaitForTransactions, OnSynergeticExecution, OnScheduleBlockExecution,
      OnWaitForExecution, OnPackNewBlock, OnNewSynergeticExecution,
      OnExecuteNewBlock, OnWaitForNewBlockExecution, OnProofSearch,
      OnTransmitBlock, OnReset, dag, through;
    destruct (dag_ cfg); try discriminate Hdag;
    keeps_auto.
Qed.

(** C9: without a DAG, the recovery from a Merkle mismatch in
    POST_EXEC_BLOCK_VALIDATION, when the previous block is in the chain, calls
    [RevertToEpoch] through the null DAG pointer: the step yields no next
    state but the null-dereference fault.  It is the only place: no step of
    any handler faults on the DAG pointer otherwise. *)
Theorem OnPostExecBlockValidation_null_dag
    {W} (col : Collaborators W) cfg now prev c w :
  dag_ cfg = false →
  (∀ cur previous,
     current_block_ c = Some cur →
     GENESIS_DIGEST cfg ≠ previous_hash (body cur) →
     ask col CurrentHash w ≠ merkle_hash (body cur) →
     ask col (GetBlock (previous_hash (body cur))) w = Some previous →
     step col cfg now POST_EXEC_BLOCK_VALIDATION prev c w =
       Faulted (NullDereference p_dag_)) ∧
  (∀ s, step col cfg now s prev c w = Faulted (NullDereference p_dag_) →
        s = POST_EXEC_BLOCK_VALIDATION ∧
        ∃ cur previous,
          current_block_ c = Some cur ∧
          GENESIS_DIGEST cfg ≠ previous_hash (body cur) ∧
          ask col CurrentHash w ≠ merkle_hash (body cur) ∧
          ask col (GetBlock (previous_hash (body cur))) w = Some previous).
Proof.
  intros Hdag. split.
  - intros cur previous Hcur Hgen Hne Hprev.
    unfold step, handler, OnPostExecBlockValidation, enter, dag, through. cbn.
    rewrite Hcur. cbn.
    destruct (decide (GENESIS_DIGEST cfg ≠ previous_hash (body cur))); [|contradiction].
    destruct (decide (ask col CurrentHash w ≠ merkle_hash (body cur))); [|contradiction].
    cbn. rewrite Hprev, Hdag. reflexivity.
  - intros s Hfault.
    destruct (decide (s = POST_EXEC_BLOCK_VALIDATION)) as [->|Hs].
    + split; [reflexivity|].
      destruct (current_block_ c) as [cur|] eqn:Hcur.
      2:{ revert Hfault. unfold step, handler, OnPostExecBlockValidation, enter.
          cbn. rewrite Hcur. cbn. discriminate. }
      destruct (decide (GENESIS_DIGEST cfg = previous_hash (body cur))) as [Hg|Hg].
      { rewrite (OnPostExecBlockValidation_commit col cfg now prev c w cur Hcur
                   (or_introl Hg)) in Hfault.
        destruct (updates_done col (block_transactions cur) w); discriminate. }
      destruct (decide (ask col CurrentHash w = merkle_hash (body cur))) as [Hm|Hm].
      { rewrite (OnPostExecBlockValidation_commit col cfg now prev c w cur Hcur
                   (or_intror Hm)) in Hfault.
        destruct (updates_done col (block_transactions cur) w); discriminate. }
      destruct (ask col (GetBlock (previous_hash (body cur))) w) as [previous|] eqn:Hprev.
      { exists cur, previous. auto. }
      exfalso. revert Hfault.
      unfold step, handler, OnPostExecBlockValidation, enter, dag, through. cbn.
      rewrite Hcur. cbn.
      destruct (decide (GENESIS_DIGEST cfg ≠ previous_hash (body cur))); [|contradiction].
      destruct (decide (ask col CurrentHash w ≠ merkle_hash (body cur))); [|contradiction].
      cbn. rewrite Hprev, Hdag. cbn. discriminate.
    + exfalso.
      pose proof (handler_guards_dag col cfg now s prev Hdag Hs (enter c w) Logic.I) as H.
      unfold step in Hfault. rewrite Hfault in H. apply H. reflexivity.
Qed.

Lemma OnPostExecBlockValidation_null_dag_witness :
  dag_ (Sample.cfg false false false) = false ∧
  step Double.collaborators (Sample.cfg false false false) 0
       POST_EXEC_BLOCK_VALIDATION WAIT_FOR_EXECUTION
       (Sample.coordinator (Some Sample.B2) None) (Sample.world None)
  = Faulted (NullDereference p_dag_).
Proof.
  split; [reflexivity|].
  apply (proj1 (OnPostExecBlockValidation_null_dag Double.collaborators
                  (Sample.cfg false false false) 0 WAIT_FOR_EXECUTION
                  (Sample.coordinator (Some Sample.B2) None) (Sample.world None)
                  eq_refl) Sample.B2 Sample.B1).
  - reflexivity.
  - vm_compute. discriminate.
  - vm_compute. discriminate.
  - reflexivity.
Defined.

(** ** Commits *)

Lemma quiet_after_all {W} (col : Collaborators W) (cs : list Command) (w : W) :
  recording_is_quiet col →
  Forall (λ c, records c = true) cs →
  ask col CurrentHash (after_all col cs w) = ask col CurrentHash w ∧
  ask col LastProcessedBlock (after_all col cs w) = ask col LastProcessedBlock w.
Proof.
  intros Hq Hcs. revert w.
  induction Hcs as [|c cs Hc _ IH]; intros w; [split; reflexivity|].
  change (after_all col (c :: cs) w) with (after_all col cs (after col c w)).
  destruct (IH (after col c w)) as [-> ->]. apply Hq, Hc.
Qed.

Lemma commit_calls_record (cfg : Config) (b : Block) :
  Forall (λ c, records c = true) (commit_calls cfg b).
Proof.
  unfold commit_calls, status_updates.
  apply Forall_app. split.
  - apply Forall_forall. intros c (d & -> & _)%list_elem_of_fmap. reflexivity.
  - destruct (dag_ cfg); repeat constructor.
Qed.

Lemma OnPostExecBlockValidation_mismatch_calls
    {W} (col : Collaborators W) cfg now prev c w cur s' m' :
  current_block_ c = Some cur →
  GENESIS_DIGEST cfg ≠ previous_hash (body cur) →
  ask col CurrentHash w ≠ merkle_hash (body cur) →
  step col cfg now POST_EXEC_BLOCK_VALIDATION prev c w = Ok (s', m') →
  ∀ n, Commit n ∉ calls m'.
Proof.
  intros Hcur Hgen Hne.
  unfold step, handler, OnPostExecBlockValidation, enter, dag, through. cbn.
  rewrite Hcur. cbn.
  destruct (decide (GENESIS_DIGEST cfg ≠ previous_hash (body cur))); [|contradiction].
  destruct (decide (ask col CurrentHash w ≠ merkle_hash (body cur))); [|contradiction].
  cbn.
  destruct (ask col (GetBlock (previous_hash (body cur))) w) as [p|]; cbn;
    destruct (dag_ cfg); cbn;
    repeat match goal with
           | |- context [if ?b then _ else _] => destruct b; cbn
           end;
    intros H; first [discriminate H | injection H as <- <-]; cbn;
    intros k Hin;
    repeat (apply elem_of_cons in Hin as [Hin|Hin]; [discriminate Hin|]);
    inversion Hin.
Qed.

Lemma OnWaitForNewBlockExecution_commit
    {W} (col : Collaborators W) cfg now prev c w nb :
  next_block_ c = Some nb →
  ask col GetState w = ES_IDLE →
  let nb' := set_body (body_set_merkle_hash (ask col CurrentHash w) (body nb)) nb in
  step col cfg now WAIT_FOR_NEW_BLOCK_EXECUTION prev c w =
    Ok (PROOF_SEARCH,
        {| coord := set_next_block_ (Some nb') c;
           world := after_all col (Commit (block_number (body nb)) ::
                                   (if dag_ cfg then [CommitEpoch (dag_epoch (body nb))]
                                    else [])) w;
           calls := Commit (block_number (body nb)) ::
                    (if dag_ cfg then [CommitEpoch (dag_epoch (body nb))] else []);
           delay := None |}).
Proof.
  intros Hnb Hidle nb'.
  unfold step, handler, OnWaitForNewBlockExecution, QueryExecutorStatus, enter,
    dag, through. cbn.
  rewrite Hidle. cbn. rewrite Hnb. cbn.
  destruct (dag_ cfg); reflexivity.
Qed.

(** Scheduling that goes on to wait has handed the block's body to the
    execution engine, and nothing else. *)
Lemma OnScheduleBlockExecution_scheduled
    {W} (col : Collaborators W) cfg now prev c w cur m0 :
  current_block_ c = Some cur →
  step col cfg now SCHEDULE_BLOCK_EXECUTION prev c w = Ok (WAIT_FOR_EXECUTION, m0) →
  reply col (Execute (body cur)) w = SCHEDULED ∧
  coord m0 = c ∧ world m0 = after col (Execute (body cur)) w.
Proof.
  intros Hcur.
  unfold step, handler, OnScheduleBlockExecution, ScheduleCurrentBlock, ScheduleBlock,
    enter. cbn. rewrite Hcur. cbn.
  destruct (reply col (Execute (body cur)) w); cbn; intros H;
    [injection H as <-|discriminate H]. repeat split.
Qed.

Lemma OnExecuteNewBlock_scheduled
    {W} (col : Collaborators W) cfg now prev c w nb m0 :
  next_block_ c = Some nb →
  step col cfg now EXECUTE_NEW_BLOCK prev c w = Ok (WAIT_FOR_NEW_BLOCK_EXECUTION, m0) →
  reply col (Execute (body nb)) w = SCHEDULED ∧
  coord m0 = c ∧ world m0 = after col (Execute (body nb)) w.
Proof.
  intros Hnb.
  unfold step, handler, OnExecuteNewBlock, ScheduleNextBlock, ScheduleBlock,
    enter. cbn. rewrite Hnb. cbn.
  destruct (reply col (Execute (body nb)) w); cbn; intros H;
    [injection H as <-|discriminate H]. repeat split.
Qed.

(** Waiting for the execution engine moves nothing: no field, and nothing
    in the world. *)
Lemma waiting_moves_nothing {W} (col : Collaborators W) cfg now prev c w s' m' :
  (step col cfg now WAIT_FOR_EXECUTION prev c w = Ok (s', m') →
   coord m' = c ∧ world m' = w ∧ calls m' = []) ∧
  (ask col GetState w ≠ ES_IDLE →
   step col cfg now WAIT_FOR_NEW_BLOCK_EXECUTION prev c w = Ok (s', m') →
   coord m' = c ∧ world m' = w ∧ calls m' = []).
Proof.
  unfold step, handler, OnWaitForExecution, OnWaitForNewBlockExecution,
    QueryExecutorStatus, enter. cbn.
  split; [|intros Hbusy];
    destruct (ask col GetState w); try contradiction; cbn;
    try destruct (ask col ExecWaitPoll w); cbn;
    try destruct (current_block_ c); try destruct (next_block_ c); cbn;
    intros H; first [discriminate H | injection H as <- <-]; repeat split.
Qed.

(** C1, as amended: let recording (a status update, a commit of the state
    or of a DAG epoch) change neither the state store's current Merkle root
    nor the engine's last processed block, let the engine record the hash of
    the block body it is given to execute, and let nothing else move the
    engine's record between the scheduling of a block and its commit
    (waiting for the engine moves nothing).  Then, immediately after
    POST_EXEC_BLOCK_VALIDATION commits a block scheduled by
    SCHEDULE_BLOCK_EXECUTION, the engine's last processed block is the
    block's hash and, if the block's previous hash is not GENESIS, the state
    store's current Merkle root is the block's Merkle hash; a block whose
    previous hash is GENESIS is committed without a look at the Merkle root,
    which stays what it was.  And immediately after
    WAIT_FOR_NEW_BLOCK_EXECUTION commits a block scheduled by
    EXECUTE_NEW_BLOCK, the block's Merkle hash is the store's current root,
    set just before the commit, and the engine's last processed block is the
    block's hash. *)
Theorem commit_preserves_merkle_root {W} (col : Collaborators W) cfg :
  recording_is_quiet col →
  engine_records col →
  (∀ now0 prev0 c w0 m0 now prev w cur s' m',
     current_block_ c = Some cur →
     step col cfg now0 SCHEDULE_BLOCK_EXECUTION prev0 c w0
       = Ok (WAIT_FOR_EXECUTION, m0) →
     ask col LastProcessedBlock w = ask col LastProcessedBlock (world m0) →
     step col cfg now POST_EXEC_BLOCK_VALIDATION prev (coord m0) w = Ok (s', m') →
     Commit (block_number (body cur)) ∈ calls m' →
     (GENESIS_DIGEST cfg ≠ previous_hash (body cur) →
      ask col CurrentHash (world m') = merkle_hash (body cur)) ∧
     ask col LastProcessedBlock (world m') = hash (body cur) ∧
     ask col LastProcessedBlock (world m') = ask col LastProcessedBlock w ∧
     calls m' = commit_calls cfg cur ∧
     last_executed_block_ (coord m') = hash (body cur)) ∧
  (∀ now0 prev0 c w0 m0 now prev w nb,
     next_block_ c = Some nb →
     step col cfg now0 EXECUTE_NEW_BLOCK prev0 c w0
       = Ok (WAIT_FOR_NEW_BLOCK_EXECUTION, m0) →
     ask col LastProcessedBlock w = ask col LastProcessedBlock (world m0) →
     ask col GetState w = ES_IDLE →
     ∃ m' nb',
       step col cfg now WAIT_FOR_NEW_BLOCK_EXECUTION prev (coord m0) w
         = Ok (PROOF_SEARCH, m') ∧
       next_block_ (coord m') = Some nb' ∧
       Commit (block_number (body nb')) ∈ calls m' ∧
       merkle_hash (body nb') = ask col CurrentHash w ∧
       ask col CurrentHash (world m') = merkle_hash (body nb') ∧
       ask col LastProcessedBlock (world m') = hash (body nb') ∧
       ask col LastProcessedBlock (world m') = ask col LastProcessedBlock w ∧
       hash (body nb') = hash (body nb)) ∧
  (∀ now prev c w s' m',
     (step col cfg now WAIT_FOR_EXECUTION prev c w = Ok (s', m') →
      coord m' = c ∧ world m' = w) ∧
     (ask col GetState w ≠ ES_IDLE →
      step col cfg now WAIT_FOR_NEW_BLOCK_EXECUTION prev c w = Ok (s', m') →
      coord m' = c ∧ world m' = w)) ∧
  (∀ now prev c w cur,
     current_block_ c = Some cur →
     GENESIS_DIGEST cfg = previous_hash (body cur) →
     updates_done col (block_transactions cur) w = true →
     ∃ m', step col cfg now POST_EXEC_BLOCK_VALIDATION prev c w = Ok (RESET, m') ∧
           calls m' = commit_calls cfg cur ∧
           ask col CurrentHash (world m') = ask col CurrentHash w ∧
           ask col LastProcessedBlock (world m') = ask col LastProcessedBlock w ∧
           last_executed_block_ (coord m') = hash (body cur)).
Proof.
  intros Hquiet Hrecords. split; [|split; [|split]].
  - intros now0 prev0 c w0 m0 now prev w cur s' m' Hcur Hsched Hleft Hstep Hcommit.
    destruct (OnScheduleBlockExecution_scheduled col cfg now0 prev0 c w0 cur m0
                Hcur Hsched) as (Hsch & Hc0 & Hw0).
    rewrite Hc0 in Hstep. rewrite Hw0, (Hrecords _ _ Hsch) in Hleft.
    assert (GENESIS_DIGEST cfg = previous_hash (body cur) ∨
            ask col CurrentHash w = merkle_hash (body cur)) as Hvalid.
    { destruct (decide (GENESIS_DIGEST cfg = previous_hash (body cur))) as [Hg|Hg];
        [left; exact Hg|].
      destruct (decide (ask col CurrentHash w = merkle_hash (body cur))) as [Hm|Hm];
        [right; exact Hm|].
      exfalso.
      exact (OnPostExecBlockValidation_mismatch_calls col cfg now prev c w cur s' m'
               Hcur Hg Hm Hstep _ Hcommit). }
    rewrite (OnPostExecBlockValidation_commit col cfg now prev c w cur Hcur Hvalid)
      in Hstep.
    destruct (updates_done col (block_transactions cur) w); [|discriminate Hstep].
    injection Hstep as <- <-. cbn.
    destruct (quiet_after_all col (commit_calls cfg cur) w Hquiet
                (commit_calls_record cfg cur)) as [-> ->].
    repeat split; try assumption.
    intros Hg. destruct Hvalid as [Hv|Hv]; [contradiction|exact Hv].
  - intros now0 prev0 c w0 m0 now prev w nb Hnb Hsched Hleft Hidle.
    destruct (OnExecuteNewBlock_scheduled col cfg now0 prev0 c w0 nb m0 Hnb Hsched)
      as (Hsch & Hc0 & Hw0).
    rewrite Hc0. rewrite Hw0, (Hrecords _ _ Hsch) in Hleft.
    rewrite (OnWaitForNewBlockExecution_commit col cfg now prev c w nb Hnb Hidle).
    eexists _, _. split; [reflexivity|]. cbn -[after_all].
    split; [reflexivity|]. split; [apply elem_of_cons; left; reflexivity|].
    split; [reflexivity|].
    assert (Forall (λ c, records c = true)
              (Commit (block_number (body nb)) ::
               (if dag_ cfg then [CommitEpoch (dag_epoch (body nb))] else []))) as Hrec.
    { destruct (dag_ cfg); repeat constructor. }
    destruct (quiet_after_all col _ w Hquiet Hrec) as [-> ->]. auto.
  - intros now prev c w s' m'.
    destruct (waiting_moves_nothing col cfg now prev c w s' m') as [Hw Hn].
    split.
    + intros H. destruct (Hw H) as (? & ? & _). auto.
    + intros Hb H. destruct (Hn Hb H) as (? & ? & _). auto.
  - intros now prev c w cur Hcur Hgen Hdone.
    rewrite (OnPostExecBlockValidation_commit col cfg now prev c w cur Hcur
               (or_introl Hgen)), Hdone.
    eexists. split; [reflexivity|]. cbn.
    destruct (quiet_after_all col (commit_calls cfg cur) w Hquiet
                (commit_calls_record cfg cur)) as [-> ->].
    auto.
Qed.

Lemma Double_recording_is_quiet : recording_is_quiet Double.collaborators.
Proof. intros [] w H; try discriminate H; split; reflexivity. Qed.

Lemma Double_engine_records : engine_records Double.collaborators.
Proof. intros bd w _. reflexivity. Qed.

Lemma commit_preserves_merkle_root_witness :
  recording_is_quiet Double.collaborators ∧
  engine_records Double.collaborators ∧
  (∃ m0 m',
     step Double.collaborators (Sample.cfg true false false) 0
          SCHEDULE_BLOCK_EXECUTION SYNERGETIC_EXECUTION
          (Sample.coordinator (Some Sample.B2) None) executed_world
     = Ok (WAIT_FOR_EXECUTION, m0) ∧
     step Double.collaborators (Sample.cfg true false false) 1
          POST_EXEC_BLOCK_VALIDATION WAIT_FOR_EXECUTION (coord m0) (world m0)
     = Ok (RESET, m') ∧
     Commit 2 ∈ calls m' ∧
     ask Double.collaborators CurrentHash (world m') = "root2" ∧
     merkle_hash (body Sample.B2) = "root2" ∧
     ask Double.collaborators LastProcessedBlock (world m') = "b2" ∧
     hash (body Sample.B2) = "b2").
Proof.
  split; [exact Double_recording_is_quiet|].
  split; [exact Double_engine_records|].
  destruct (commit_preserves_merkle_root Double.collaborators
              (Sample.cfg true false false)
              Double_recording_is_quiet Double_engine_records) as (Hpost & _).
  eexists _, _. split; [vm_compute; reflexivity|].
  split; [vm_compute; reflexivity|].
  assert (Commit 2 ∈ [Update "tx2" EXECUTED; Update "tx3" EXECUTED; Commit 2;
                      CommitEpoch 2]) as Hin.
  { do 2 (apply elem_of_cons; right). apply elem_of_cons. left. reflexivity. }
  split; [exact Hin|].
  match goal with
  | |- ask _ _ (world ?m) = _ ∧ _ =>
      destruct (Hpost 0 SYNERGETIC_EXECUTION (Sample.coordinator (Some Sample.B2) None)
                  executed_world _ 1 WAIT_FOR_EXECUTION _ Sample.B2 RESET m
                  eq_refl eq_refl eq_refl eq_refl Hin) as (Hroot & Hlast & _)
  end.
  split; [apply Hroot; vm_compute; discriminate|].
  split; [reflexivity|]. split; [exact Hlast|reflexivity].
Defined.

(** C1, as stated, fails: B0, whose previous hash is GENESIS, is scheduled,
    executed on a state whose root is root7, and committed by
    POST_EXEC_BLOCK_VALIDATION without a look at the Merkle root; after the
    commit the state store's root is root7, not B0's root0 - while the
    engine's last processed block is B0's hash. *)
Lemma genesis_block_committed_unchecked :
  ∃ m0 m',
    step Double.collaborators (Sample.cfg false false false) 0
         SCHEDULE_BLOCK_EXECUTION SYNERGETIC_EXECUTION
         (Sample.coordinator (Some Sample.B0) None) genesis_world
    = Ok (WAIT_FOR_EXECUTION, m0) ∧
    step Double.collaborators (Sample.cfg false false false) 1
         POST_EXEC_BLOCK_VALIDATION WAIT_FOR_EXECUTION (coord m0) (world m0)
    = Ok (RESET, m') ∧
    Commit (block_number (body Sample.B0)) ∈ calls m' ∧
    last_executed_block_ (coord m') = hash (body Sample.B0) ∧
    ask Double.collaborators LastProcessedBlock (world m') = hash (body Sample.B0) ∧
    ask Double.collaborators CurrentHash (world m') = "root7" ∧
    merkle_hash (body Sample.B0) = "root0" ∧
    ask Double.collaborators CurrentHash (world m') ≠ merkle_hash (body Sample.B0).
Proof.
  eexists _, _. split; [vm_compute; reflexivity|].
  split; [vm_compute; reflexivity|].
  split; [apply elem_of_cons; left; reflexivity|].
  repeat split; try reflexivity; vm_compute; discriminate.
Qed.

(** ** Waiting for transactions *)

Section Waiting.
Context {W : Type} (col : Collaborators W) (cfg : Config).
Context (cur : Block) (t0 period : Time).

(** The first invocation arms the countdown to asking the peers. *)
Lemma OnWaitForTransactions_first (previous : State) (c : Coord) (w : W) :
  previous ≠ WAIT_FOR_TRANSACTIONS →
  current_block_ c = Some cur →
  wait_outcome cur t0 period t0
    (step col cfg t0 WAIT_FOR_TRANSACTIONS previous c w).
Proof.
  intros Hprev Hcur.
  unfold step, handler, OnWaitForTransactions, enter, dag, through.
  destruct (decide (previous = WAIT_FOR_TRANSACTIONS)) as [|_]; [contradiction|].
  cbn -[still_missing].
  destruct (dag_ cfg); cbn -[still_missing]; rewrite ?Hcur; cbn -[still_missing];
    destruct (pending_txs_ c) as [txs|] eqn:Hpend; cbn -[still_missing];
    rewrite ?Hcur, ?Hpend; cbn -[still_missing];
    repeat match goal with
           | |- context [if ?b then _ else _] => destruct b; cbn -[still_missing]
           end;
    unfold waiting, WAIT_BEFORE_ASKING_FOR_MISSING_TX_INTERVAL,
      WAIT_FOR_TX_TIMEOUT_INTERVAL; cbn;
    repeat split; eauto; try lia;
    try (left; repeat split; first [reflexivity | assumption | lia]);
    try (intros h Hin; repeat (apply elem_of_cons in Hin as [Hin|Hin]; [discriminate Hin|]);
    inversion Hin).
Qed.

(** A later invocation, at most [period] after one that kept waiting. *)
Lemma OnWaitForTransactions_again (t now : Time) (c : Coord) (w : W) :
  waiting cur t0 period t c →
  now ≤ t + period →
  wait_outcome cur t0 period now
    (step col cfg now WAIT_FOR_TRANSACTIONS WAIT_FOR_TRANSACTIONS c w).
Proof.
  intros (Hcur & [txs Hpend] & Ht & Hcase) Hnow.
  unfold step, handler, OnWaitForTransactions, enter, dag, through, HasExpired.
  destruct (decide (WAIT_FOR_TRANSACTIONS = WAIT_FOR_TRANSACTIONS)) as [_|]; [|congruence].
  cbn -[still_missing].
  destruct Hcase as [(Hasked & Hd & Hlt)|(Hasked & Hlo & Hhi)];
    rewrite Hasked; cbn -[still_missing].
  - destruct (N.leb_spec (deadline (wait_before_asking_for_missing_tx_ c)) now)
      as [Hexp|Hexp];
      repeat (repeat progress (cbn -[still_missing]; rewrite ?Hcur, ?Hpend);
              match goal with
              | |- context [if ?b then _ else _] =>
                  lazymatch type of b with bool => destruct b end
              end);
      repeat progress (cbn -[still_missing]; rewrite ?Hcur, ?Hpend);
      unfold waiting, WAIT_BEFORE_ASKING_FOR_MISSING_TX_INTERVAL,
        WAIT_FOR_TX_TIMEOUT_INTERVAL in *; cbn;
      repeat split; eauto; try lia;
      try (right; repeat split; first [reflexivity | assumption | lia]);
      try (left; repeat split; first [reflexivity | assumption | lia]);
      try (intros h Hin;
           repeat (apply elem_of_cons in Hin as [Hin|Hin]; [discriminate Hin|]);
           inversion Hin).
  - destruct (N.leb_spec (deadline (wait_for_tx_timeout_ c)) now)
      as [Hexp|Hexp]; cbn -[still_missing]; rewrite ?Hcur, ?Hpend; cbn -[still_missing].
    + unfold WAIT_BEFORE_ASKING_FOR_MISSING_TX_INTERVAL,
        WAIT_FOR_TX_TIMEOUT_INTERVAL in *. split; [reflexivity|lia].
    + repeat (repeat progress (cbn -[still_missing]; rewrite ?Hcur, ?Hpend);
              match goal with
              | |- context [if ?b then _ else _] =>
                  lazymatch type of b with bool => destruct b end
              end);
        repeat progress (cbn -[still_missing]; rewrite ?Hcur, ?Hpend);
        unfold waiting, WAIT_BEFORE_ASKING_FOR_MISSING_TX_INTERVAL,
          WAIT_FOR_TX_TIMEOUT_INTERVAL in *; cbn;
        repeat split; eauto; try lia;
        try (right; repeat split; first [reflexivity | assumption | lia]);
        try (intros h Hin;
             repeat (apply elem_of_cons in Hin as [Hin|Hin]; [discriminate Hin|]);
             inversion Hin).
Qed.

(** When an invocation goes to SYNERGETIC_EXECUTION: exactly when it does
    not give the block up, has a pending set to ask the peers for if it is
    to ask them, no pending transaction is missing from the storage and the
    DAG epoch is satisfied, in the worlds of the handler's own questions. *)
Lemma OnWaitForTransactions_exit (now : Time) (previous : State) (c : Coord) (w : W) :
  current_block_ c = Some cur →
  ((∃ m, step col cfg now WAIT_FOR_TRANSACTIONS previous c w
         = Ok (SYNERGETIC_EXECUTION, m)) ↔
   gives_up now previous c = false ∧
   (asks_now now previous c = true → is_Some (pending_txs_ c)) ∧
   still_missing col (world_searched col cfg now previous c w cur)
     (default (block_digests cur) (pending_txs_ c)) = ∅ ∧
   epoch_satisfied col cfg now previous c w cur = true) ∧
  (∀ m, step col cfg now WAIT_FOR_TRANSACTIONS previous c w
        = Ok (SYNERGETIC_EXECUTION, m) →
        world m = world_searched col cfg now previous c w cur ∧
        pending_txs_ (coord m) = None ∧
        ∀ h, RemoveBlock h ∉ calls m).
Proof.
  intros Hcur.
  unfold gives_up, epoch_satisfied, world_searched, world_asked, asks_now.
  unfold step, handler, OnWaitForTransactions, enter, dag, through.
  destruct (decide (previous = WAIT_FOR_TRANSACTIONS)) as [Hp|Hp];
    [rewrite (bool_decide_eq_true_2 _ Hp)|rewrite (bool_decide_eq_false_2 _ Hp)];
    destruct (pending_txs_ c) as [txs|] eqn:Hpend;
    destruct (have_asked_for_missing_txs_ c) eqn:Hasked;
    destruct (HasExpired now (wait_for_tx_timeout_ c)) eqn:Hout;
    destruct (HasExpired now (wait_before_asking_for_missing_tx_ c)) eqn:Hask;
    destruct (dag_ cfg) eqn:Hdag;
    repeat (repeat progress (cbn -[still_missing HasExpired];
                             rewrite ?Hcur, ?Hpend, ?Hasked, ?Hout, ?Hask);
            match goal with
            | |- context [if ?b then _ else _] =>
                lazymatch type of b with bool => destruct b eqn:? end
            end);
    repeat progress (cbn -[still_missing HasExpired];
                     rewrite ?Hcur, ?Hpend, ?Hasked, ?Hout, ?Hask);
    repeat match goal with
           | E : (_ && _) = true |- _ => apply andb_prop in E as [? ?]
           | E : (_ && _) = false |- _ => apply andb_false_iff in E
           | E : bool_decide _ = true |- _ => apply bool_decide_eq_true in E
           | E : bool_decide _ = false |- _ => apply bool_decide_eq_false in E
           end.
  all: split;
    [split;
     [intros [m Hexit]; first [discriminate Hexit | injection Hexit as <-];
      repeat split;
      solve [reflexivity | assumption | discriminate
            | intros; first [discriminate | eexists; reflexivity]]
     |intros (Hstays & Hsome & Hnone & Hready);
      first [discriminate Hstays | discriminate Hready | congruence | contradiction
            | eexists; reflexivity
            | destruct (Hsome eq_refl) as [? Hnot]; discriminate Hnot
            | exfalso;
              repeat match goal with
                     | E : _ ∨ _ |- _ => destruct E
                     | E : bool_decide _ = false |- _ => apply bool_decide_eq_false in E
                     end; solve [congruence | contradiction]]]
    |intros m Hexit; first [discriminate Hexit | injection Hexit as <-];
     cbn -[still_missing]; repeat split; try reflexivity;
     intros h Hin;
     repeat (apply elem_of_cons in Hin as [Hin|Hin]; [discriminate Hin|]);
     inversion Hin].
Qed.

(** The stay, from an invocation that kept waiting on. *)
Lemma wait_for_transactions_from (schedule : list (Time * W)) :
  ∀ (t : Time) (c : Coord),
    waiting cur t0 period t c →
    paced period t schedule →
    match wait_for_transactions col cfg WAIT_FOR_TRANSACTIONS c schedule with
    | Exited t' next m =>
        t' < t0 + WAIT_BEFORE_ASKING_FOR_MISSING_TX_INTERVAL
             + WAIT_FOR_TX_TIMEOUT_INTERVAL + 2 * period ∧
        wait_outcome cur t0 period t' (Ok (next, m)) ∧
        next ≠ WAIT_FOR_TRANSACTIONS
    | StillWaiting _ =>
        Forall (λ e, fst e < t0 + WAIT_BEFORE_ASKING_FOR_MISSING_TX_INTERVAL
                           + WAIT_FOR_TX_TIMEOUT_INTERVAL + period) schedule
    | Crashed _ _ => False
    end.
Proof.
  induction schedule as [|[now w] rest IH]; intros t c Hwait Hpaced.
  - constructor.
  - destruct Hpaced as [Hnow Hrest]. cbn [wait_for_transactions].
    pose proof (OnWaitForTransactions_again t now c w Hwait Hnow) as Hout.
    assert (t < t0 + WAIT_BEFORE_ASKING_FOR_MISSING_TX_INTERVAL
                + WAIT_FOR_TX_TIMEOUT_INTERVAL + period) as Ht
      by (destruct Hwait as (_ & _ & H & _); exact H).
    destruct (step col cfg now WAIT_FOR_TRANSACTIONS WAIT_FOR_TRANSACTIONS c w)
      as [[next m]|f]; [|contradiction].
    destruct next; try contradiction.
    + destruct Hout as [Hw _].
      specialize (IH now (coord m) Hw Hrest).
      destruct (wait_for_transactions col cfg WAIT_FOR_TRANSACTIONS (coord m) rest);
        try exact IH.
      constructor; [|exact IH]. cbn. destruct Hw as (_ & _ & H & _). exact H.
    + split; [lia|]. split; [exact Hout|discriminate].
    + split; [lia|]. split; [exact Hout|discriminate].
Qed.

End Waiting.



Lemma paced_every_201_ms (w : Double.World) (n k : nat) :
  paced 201 (201 * N.of_nat k)
    (map (λ j, (201 * N.of_nat j, w)) (seq (S k) n)).
Proof.
  revert k. induction n as [|n IH]; intros k; cbn [seq map paced]; [exact Logic.I|].
  split; [lia|apply IH].
Qed.


(** * The fake storage unit *)

Section FakeStorageUnit.
Context {Transaction : Type}.
Context (digest : Transaction → Digest) (sha256 : string → Digest)
        (Document_default : Document).

Local Abbreviation Unit := (FakeStorageUnit Transaction).
Local Abbreviation Get := (Fake.Get Document_default).
Local Abbreviation GetOrCreate := (Fake.GetOrCreate Document_default).
Local Abbreviation perform_calls := (Fake.perform_calls digest).
Local Abbreviation perform_call := (Fake.perform_call digest).

(** X1: a value written with [Set] is what [Get] and [GetOrCreate] return
    for that key, without a failure or creation mark of their own; a second
    [Set] of the key replaces the value; the documents of the other keys, the
    locks, the transactions and the archive are as before. *)
Theorem Fake_Set_then_Get (key value : string) (u : Unit) :
  Get key (Fake.Set_ key value u) = with_document value Document_default ∧
  GetOrCreate key (Fake.Set_ key value u) = with_document value Document_default ∧
  (∀ value', Fake.Set_ key value' (Fake.Set_ key value u) = Fake.Set_ key value' u) ∧
  (∀ key', key' ≠ key →
     Get key' (Fake.Set_ key value u) = Get key' u ∧
     GetOrCreate key' (Fake.Set_ key value u) = GetOrCreate key' u) ∧
  locks_ (Fake.Set_ key value u) = locks_ u ∧
  transactions_ (Fake.Set_ key value u) = transactions_ u ∧
  state_archive_ (Fake.Set_ key value u) = state_archive_ u.
Proof using Type.
  unfold Fake.Get, Fake.GetOrCreate, Fake.Set_, Fake.with_state. cbn.
  rewrite lookup_insert_eq. repeat split.
  - intros value'. rewrite insert_insert_eq. reflexivity.
  - rewrite lookup_insert_ne by congruence. reflexivity.
  - rewrite lookup_insert_ne by congruence. reflexivity.
Qed.

(** X2: with a default document that carries no mark, [Get] marks the
    document as failed exactly for the keys that have no value, [GetOrCreate]
    marks it as created exactly for those keys and never as failed, and both
    return the stored value otherwise. *)
Theorem Fake_Get_missing (key : string) (u : Unit) :
  failed Document_default = false →
  was_created Document_default = false →
  (failed (Get key u) = true ↔ state_ u !! key = None) ∧
  (was_created (GetOrCreate key u) = true ↔ state_ u !! key = None) ∧
  failed (GetOrCreate key u) = false ∧
  (∀ v, state_ u !! key = Some v →
        document (Get key u) = v ∧ document (GetOrCreate key u) = v).
Proof using Type.
  intros Hf Hc. unfold Fake.Get, Fake.GetOrCreate.
  destruct (state_ u !! key) as [v|]; cbn; rewrite ?Hf, ?Hc;
    repeat split; try congruence; intros v' [= <-]; auto.
Qed.

(** X3: [Lock] succeeds exactly when the key is not locked, and the key is
    locked afterwards either way; [Unlock] succeeds exactly when the key is
    locked, and the key is not locked afterwards; locking a free key and
    unlocking it again gives the locks back as they were; no other key's lock
    is touched. *)
Theorem Fake_Lock_Unlock (key : string) (u : Unit) :
  (fst (Fake.Lock key u) = true ↔ key ∉ locks_ u) ∧
  (key ∈ locks_ (snd (Fake.Lock key u))) ∧
  (fst (Fake.Unlock key u) = true ↔ key ∈ locks_ u) ∧
  (key ∉ locks_ (snd (Fake.Unlock key u))) ∧
  (key ∉ locks_ u →
   Fake.Unlock key (snd (Fake.Lock key u)) = (true, u)) ∧
  (∀ key', key' ≠ key →
     (key' ∈ locks_ (snd (Fake.Lock key u)) ↔ key' ∈ locks_ u) ∧
     (key' ∈ locks_ (snd (Fake.Unlock key u)) ↔ key' ∈ locks_ u)).
Proof using Type.
  clear digest sha256 Document_default.
  unfold Fake.Lock, Fake.Unlock.
  destruct (decide (key ∈ locks_ u)) as [Hin|Hout].
  - rewrite (bool_decide_eq_true_2 _ Hin). cbn.
    repeat split; try done; try set_solver.
  - rewrite (bool_decide_eq_false_2 _ Hout). cbn.
    repeat split; try done; try set_solver.
    intros _. rewrite bool_decide_eq_true_2 by set_solver.
    unfold Fake.with_locks. cbn. destruct u as [t s l a]. cbn in *.
    do 2 f_equal. set_solver.
Qed.

Lemma Fake_locked_stays (key : string) (cs : list (Fake.Call (Transaction:=Transaction)))
    (u : Unit) :
  key ∈ locks_ u →
  Fake.CallUnlock key ∉ cs →
  key ∈ locks_ (perform_calls cs u).
Proof using Type.
  clear sha256 Document_default.
  revert u. induction cs as [|c cs IH]; intros u Hin Hcs; [exact Hin|].
  apply not_elem_of_cons in Hcs as [Hc Hcs].
  apply IH; [|exact Hcs].
  destruct c as [k v|k|k|tx|b|b]; cbn; try exact Hin.
  - unfold Fake.Lock. destruct (bool_decide (k ∈ locks_ u)); cbn; set_solver.
  - unfold Fake.Unlock. destruct (bool_decide (k ∈ locks_ u)); cbn; [|exact Hin].
    assert (k ≠ key) by congruence. set_solver.
  - unfold Fake.Revert. destruct (state_archive_ u !! b); exact Hin.
Qed.

(** X4: a lock is exclusive until it is released: after a successful [Lock]
    of a key, and whatever calls follow - values set, other keys locked or
    unlocked, transactions added, states committed or reverted - as long as
    the key is not unlocked, another [Lock] of the key fails and changes
    nothing, and the [Unlock] of the key succeeds. *)
Theorem Fake_Lock_is_exclusive (key : string)
    (cs : list (Fake.Call (Transaction:=Transaction))) (u : Unit) :
  fst (Fake.Lock key u) = true →
  Fake.CallUnlock key ∉ cs →
  let held := perform_calls cs (snd (Fake.Lock key u)) in
  Fake.Lock key held = (false, held) ∧
  fst (Fake.Unlock key held) = true.
Proof using Type.
  clear sha256 Document_default.
  intros Hlock Hcs held.
  assert (key ∈ locks_ held) as Hin.
  { apply Fake_locked_stays; [|exact Hcs].
    unfold Fake.Lock in *. destruct (bool_decide (key ∈ locks_ u)); cbn in *;
      [discriminate|set_solver]. }
  unfold Fake.Lock, Fake.Unlock.
  rewrite (bool_decide_eq_true_2 _ Hin). split; reflexivity.
Qed.

Lemma Fake_archived_stays (bookmark : N) (archived : gmap string string)
    (cs : list (Fake.Call (Transaction:=Transaction))) (u : Unit) :
  state_archive_ u !! bookmark = Some archived →
  Fake.CallCommit bookmark ∉ cs →
  state_archive_ (perform_calls cs u) !! bookmark = Some archived.
Proof using Type.
  revert u. induction cs as [|c cs IH]; intros u Hin Hcs; [exact Hin|].
  apply not_elem_of_cons in Hcs as [Hc Hcs].
  apply IH; [|exact Hcs].
  destruct c as [k v|k|k|tx|b|b]; cbn; try exact Hin.
  - unfold Fake.Lock. destruct (bool_decide (k ∈ locks_ u)); exact Hin.
  - unfold Fake.Unlock. destruct (bool_decide (k ∈ locks_ u)); exact Hin.
  - rewrite lookup_insert_ne; [exact Hin|congruence].
  - unfold Fake.Revert. destruct (state_archive_ u !! b); exact Hin.
Qed.

(** X5: [Revert] brings back the state of the latest [Commit] under that
    bookmark: whatever calls follow a [Commit] - values set or overwritten,
    locks, transactions, commits under other bookmarks, reverts - as long as
    the bookmark is not committed again, reverting to it restores the state,
    and with it every document and the hash, as they were at the commit. *)
Theorem Fake_Commit_then_Revert (bookmark : N)
    (cs : list (Fake.Call (Transaction:=Transaction))) (u : Unit) :
  Fake.CallCommit bookmark ∉ cs →
  let reverted := Fake.Revert bookmark (perform_calls cs (Fake.Commit bookmark u)) in
  state_ reverted = state_ u ∧
  (∀ key, Get key reverted = Get key u) ∧
  Fake.Hash sha256 reverted = Fake.Hash sha256 u.
Proof using Type.
  intros Hcs reverted.
  assert (state_ reverted = state_ u) as Hstate.
  { unfold reverted, Fake.Revert.
    rewrite (Fake_archived_stays bookmark (state_ u) cs (Fake.Commit bookmark u));
      [reflexivity| |exact Hcs].
    cbn. apply lookup_insert_eq. }
  split; [exact Hstate|]. split.
  - intros key. unfold Fake.Get. rewrite Hstate. reflexivity.
  - unfold Fake.Hash, Fake.collected_keys. rewrite Hstate. reflexivity.
Qed.

(** X6: [Revert] to a bookmark that was never committed empties the state:
    every [Get] then fails, the hash is that of no bytes, and the locks, the
    transactions and the archive are untouched. *)
Theorem Fake_Revert_unknown (bookmark : N) (u : Unit) :
  state_archive_ u !! bookmark = None →
  state_ (Fake.Revert bookmark u) = ∅ ∧
  (∀ key, Get key (Fake.Revert bookmark u) = with_failed true Document_default) ∧
  Fake.Hash sha256 (Fake.Revert bookmark u) = sha256 EmptyString ∧
  locks_ (Fake.Revert bookmark u) = locks_ u ∧
  transactions_ (Fake.Revert bookmark u) = transactions_ u ∧
  state_archive_ (Fake.Revert bookmark u) = state_archive_ u.
Proof using Type.
  intros Hnone. unfold Fake.Revert. rewrite Hnone. cbn.
  repeat split.
Qed.

Lemma String_compare_trans (a b c : string) :
  String.compare a b ≠ Gt → String.compare b c ≠ Gt → String.compare a c ≠ Gt.
Proof using Type.
  revert b c. induction a as [|x a IH]; intros [|y b] [|z c]; cbn; try congruence.
  unfold Ascii.compare.
  destruct (N.compare_spec (Ascii.N_of_ascii x) (Ascii.N_of_ascii y)) as [E1|L1|G1];
    destruct (N.compare_spec (Ascii.N_of_ascii y) (Ascii.N_of_ascii z)) as [E2|L2|G2];
    try congruence; intros H1 H2.
  - rewrite E1, E2, N.compare_refl. exact (IH b c H1 H2).
  - rewrite E1. apply N.compare_lt_iff in L2. rewrite L2. discriminate.
  - rewrite <- E2. apply N.compare_lt_iff in L1. rewrite L1. discriminate.
  - assert (Ascii.N_of_ascii x < Ascii.N_of_ascii z) as L by lia.
    apply N.compare_lt_iff in L. rewrite L. discriminate.
Qed.

Lemma key_le_alt (a b : string) : key_le a b ↔ String.compare a b ≠ Gt.
Proof using Type.
  unfold key_le, String.leb. destruct (String.compare a b); split; congruence.
Qed.

Local Instance key_le_transitive : Transitive key_le.
Proof using Type.
  intros a b c Hab Hbc. apply key_le_alt.
  apply (String_compare_trans a b c); apply key_le_alt; assumption.
Qed.

Local Instance key_le_antisymmetric : AntiSymm (=) key_le.
Proof using Type. intros a b Hab Hba. apply String.leb_antisym; assumption. Qed.

Local Instance key_le_total : Total key_le.
Proof using Type. intros a b. apply String.leb_total. Qed.

Lemma sort_keys_Permutation (keys keys' : list string) :
  keys ≡ₚ keys' → sort_keys keys = sort_keys keys'.
Proof using Type.
  intros Hp. unfold sort_keys.
  apply (Sorted_unique key_le); try apply Sorted_merge_sort; try apply _.
  rewrite !merge_sort_Permutation. exact Hp.
Qed.

(** X7: the hash does not depend on the order in which the loop over the
    state meets the keys - any order of the same keys is sorted into the same
    sequence of bytes -, and it depends on the state only: locking,
    unlocking, adding a transaction and committing leave it as it is. *)
Theorem Fake_Hash_stable (u : Unit) :
  (∀ keys, keys ≡ₚ Fake.collected_keys u →
           sha256 (hashed_bytes keys (state_ u)) = Fake.Hash sha256 u) ∧
  (∀ c, (∀ key value, c ≠ Fake.CallSet key value) →
        (∀ bookmark, c ≠ Fake.CallRevert bookmark) →
        Fake.Hash sha256 (perform_call c u) = Fake.Hash sha256 u).
Proof using Type.
  split.
  - intros keys Hp. unfold Fake.Hash, hashed_bytes.
    rewrite (sort_keys_Permutation _ _ Hp). reflexivity.
  - intros c Hset Hrev.
    destruct c as [k v|k|k|tx|b|b]; cbn; try reflexivity.
    + exfalso. exact (Hset k v eq_refl).
    + unfold Fake.Lock. destruct (bool_decide (k ∈ locks_ u)); reflexivity.
    + unfold Fake.Unlock. destruct (bool_decide (k ∈ locks_ u)); reflexivity.
    + exfalso. exact (Hrev b eq_refl).
Qed.

Lemma Fake_transaction_stays (dg : Digest)
    (cs : list (Fake.Call (Transaction:=Transaction))) (u : Unit) :
  is_Some (transactions_ u !! dg) →
  is_Some (transactions_ (perform_calls cs u) !! dg).
Proof using Type.
  revert u. induction cs as [|c cs IH]; intros u Hin; [exact Hin|].
  apply IH.
  destruct c as [k v|k|k|tx|b|b]; cbn; try exact Hin.
  - unfold Fake.Lock. destruct (bool_decide (k ∈ locks_ u)); exact Hin.
  - unfold Fake.Unlock. destruct (bool_decide (k ∈ locks_ u)); exact Hin.
  - destruct (decide (digest tx = dg)) as [<-|Hne].
    + rewrite lookup_insert_eq. eauto.
    + rewrite lookup_insert_ne by exact Hne. exact Hin.
  - unfold Fake.Revert. destruct (state_archive_ u !! b); exact Hin.
Qed.

Lemma Fake_keyed_by_digest_stays
    (cs : list (Fake.Call (Transaction:=Transaction))) (u : Unit) :
  keyed_by_digest digest u → keyed_by_digest digest (perform_calls cs u).
Proof using Type.
  revert u. induction cs as [|c cs IH]; intros u Hk; [exact Hk|].
  apply IH.
  destruct c as [k v|k|k|tx|b|b]; cbn; try exact Hk.
  - unfold Fake.Lock. destruct (bool_decide (k ∈ locks_ u)); exact Hk.
  - unfold Fake.Unlock. destruct (bool_decide (k ∈ locks_ u)); exact Hk.
  - intros dg tx'. cbn. destruct (decide (digest tx = dg)) as [<-|Hne].
    + rewrite lookup_insert_eq. intros [= <-]. reflexivity.
    + rewrite lookup_insert_ne by exact Hne. apply Hk.
  - unfold Fake.Revert. destruct (state_archive_ u !! b); exact Hk.
Qed.

(** X8: a transaction that was added is found under its digest, at once and
    after any further calls - nothing removes a transaction, a revert
    neither -; a digest that was never added is not found, and the
    transaction passed in is left as it is; and in a unit whose transactions
    are all stored under their own digest, as in a fresh one, what is found
    under a digest has that digest, whatever calls were made. *)
Theorem Fake_transactions_persist (tx tx0 : Transaction) (u : Unit) :
  keyed_by_digest digest u →
  Fake.GetTransaction (digest tx) tx0 (Fake.AddTransaction digest tx u) = (true, tx) ∧
  (∀ cs, fst (Fake.GetTransaction (digest tx) tx0
                (perform_calls cs (Fake.AddTransaction digest tx u))) = true) ∧
  (∀ dg, transactions_ u !! dg = None → Fake.GetTransaction dg tx0 u = (false, tx0)) ∧
  (∀ cs dg found,
     Fake.GetTransaction dg tx0 (perform_calls cs u) = (true, found) →
     digest found = dg).
Proof using Type.
  intros Hk. unfold Fake.GetTransaction. repeat split.
  - cbn. rewrite lookup_insert_eq. reflexivity.
  - intros cs.
    destruct (Fake_transaction_stays (digest tx) cs (Fake.AddTransaction digest tx u))
      as [found ->]; [|reflexivity].
    cbn. rewrite lookup_insert_eq. eauto.
  - intros dg ->. reflexivity.
  - intros cs dg found.
    destruct (transactions_ (perform_calls cs u) !! dg) as [tx'|] eqn:Hl;
      intros [= <-].
    exact (Fake_keyed_by_digest_stays cs u Hk dg tx' Hl).
Qed.

End FakeStorageUnit.

Lemma Fake_Get_missing_witness :
  failed sample_document = false ∧ was_created sample_document = false ∧
  (failed (Fake.Get sample_document "balance" (Fake_empty (Transaction:=string))) = true
   ↔ state_ (Fake_empty (Transaction:=string)) !! "balance" = None).
Proof.
  split; [reflexivity|]. split; [reflexivity|].
  apply (Fake_Get_missing (Transaction:=string) sample_document "balance" Fake_empty);
    reflexivity.
Defined.

Lemma Fake_Lock_is_exclusive_witness :
  fst (Fake.Lock "k" (Fake_empty (Transaction:=string))) = true ∧
  (Fake.CallUnlock "k" ∉ sample_calls_locked) ∧
  fst (Fake.Lock "k"
         (Fake.perform_calls sample_digest sample_calls_locked
            (snd (Fake.Lock "k" Fake_empty)))) = false.
Proof.
  assert (Fake.CallUnlock "k" ∉ sample_calls_locked) as Hcs.
  { intros H. repeat (apply elem_of_cons in H as [H|H]; [discriminate H|]).
    inversion H. }
  split; [reflexivity|]. split; [exact Hcs|].
  destruct (Fake_Lock_is_exclusive sample_digest "k" sample_calls_locked Fake_empty
              eq_refl Hcs) as [H _].
  rewrite H. reflexivity.
Defined.

Lemma Fake_Commit_then_Revert_witness :
  (Fake.CallCommit 1 ∉ sample_calls_committed) ∧
  state_ (Fake.Revert 1
            (Fake.perform_calls sample_digest sample_calls_committed
               (Fake.Commit 1 (Fake.Set_ "k" "old" Fake_empty))))
  = state_ (Fake.Set_ "k" "old" (Fake_empty (Transaction:=string))).
Proof.
  assert (Fake.CallCommit 1 ∉ sample_calls_committed) as Hcs.
  { intros H. repeat (apply elem_of_cons in H as [H|H]; [discriminate H|]).
    inversion H. }
  split; [exact Hcs|].
  exact (proj1 (Fake_Commit_then_Revert sample_digest sample_sha256 sample_document
                  1 sample_calls_committed (Fake.Set_ "k" "old" Fake_empty) Hcs)).
Defined.

Lemma Fake_Revert_unknown_witness :
  state_archive_ (Fake.Set_ "k" "v" (Fake_empty (Transaction:=string))) !! 5 = None ∧
  state_ (Fake.Revert 5 (Fake.Set_ "k" "v" (Fake_empty (Transaction:=string)))) = ∅.
Proof.
  split; [reflexivity|].
  exact (proj1 (Fake_Revert_unknown sample_sha256 sample_document 5
                  (Fake.Set_ "k" "v" Fake_empty) eq_refl)).
Defined.

Lemma Fake_transactions_persist_witness :
  keyed_by_digest sample_digest (Fake_empty (Transaction:=string)) ∧
  Fake.GetTransaction "abcd" "none"
    (Fake.AddTransaction sample_digest "abcd-payload" Fake_empty)
  = (true, "abcd-payload").
Proof.
  assert (keyed_by_digest sample_digest (Fake_empty (Transaction:=string))) as Hk.
  { intros dg tx H. cbn in H. rewrite lookup_empty in H. discriminate H. }
  split; [exact Hk|].
  exact (proj1 (Fake_transactions_persist sample_digest "abcd-payload" "none"
                  Fake_empty Hk)).
Defined.

(** * More of the block coordinator *)

(** The commands RESET issues: with a stake manager, one update, with the
    block being minted rather than the current block when both are there. *)
Lemma OnReset_run {W} (col : Collaborators W) cfg now prev c w :
  ∃ m', step col cfg now RESET prev c w = Ok (SYNCHRONISING, m') ∧
        calls m' = (if stake_ cfg then
                      match next_block_ c, current_block_ c with
                      | Some nb, _ => [UpdateCurrentBlock nb]
                      | None, Some cb => [UpdateCurrentBlock cb]
                      | None, None => []
                      end
                    else []) ∧
        world m' = after_all col (calls m') w ∧
        delay m' = None ∧
        coord m' = set_next_block_time_ (now + block_period_ c)
                     (set_blocks_to_common_ancestor_ []
                        (set_pending_txs_ None
                           (set_next_block_ None (set_current_block_ None c)))).
Proof.
  unfold step, handler, OnReset, UpdateNextBlockTime, enter, stake, through. cbn.
  destruct (stake_ cfg); cbn;
    [destruct (next_block_ c); cbn; [|destruct (current_block_ c); cbn]|];
    eexists; (split; [reflexivity|]); cbn; auto.
Qed.

(** X9: RESET cannot fault and always goes to SYNCHRONISING; it clears the
    current block, the block being minted, the pending transactions and the
    ancestor path, sets the time of the next block one block period after
    the clock reading, and keeps the last executed block and the mining
    flags.  With a stake manager it reports exactly one block when there is
    one - the block being minted if there is one, else the current block.
    A second RESET at the same clock reading changes nothing more and
    reports nothing. *)
Theorem OnReset_clears_everything {W} (col : Collaborators W) cfg now prev c w :
  ∃ m', step col cfg now RESET prev c w = Ok (SYNCHRONISING, m') ∧
        current_block_ (coord m') = None ∧
        next_block_ (coord m') = None ∧
        pending_txs_ (coord m') = None ∧
        blocks_to_common_ancestor_ (coord m') = [] ∧
        next_block_time_ (coord m') = now + block_period_ c ∧
        last_executed_block_ (coord m') = last_executed_block_ c ∧
        mining_ (coord m') = mining_ c ∧
        mining_enabled_ (coord m') = mining_enabled_ c ∧
        delay m' = None ∧
        calls m' = (if stake_ cfg then
                      match next_block_ c, current_block_ c with
                      | Some nb, _ => [UpdateCurrentBlock nb]
                      | None, Some cb => [UpdateCurrentBlock cb]
                      | None, None => []
                      end
                    else []) ∧
        ∀ prev' w', step col cfg now RESET prev' (coord m') w' =
                      Ok (SYNCHRONISING, enter (coord m') w').
Proof.
  destruct (OnReset_run col cfg now prev c w) as (m' & Hstep & Hcalls & _ & Hdelay & Hc).
  exists m'. split; [exact Hstep|].
  do 8 (split; [rewrite Hc; reflexivity|]).
  split; [exact Hdelay|]. split; [exact Hcalls|].
  intros prev' w'.
  destruct (OnReset_run col cfg now prev' (coord m') w')
    as (m'' & Hstep' & Hcalls' & Hw' & Hdelay' & Hc').
  rewrite Hstep'. f_equal. f_equal.
  rewrite Hc in Hcalls'. cbn in Hcalls'.
  assert (calls m'' = []) as Hnil by (destruct (stake_ cfg); exact Hcalls').
  rewrite Hnil in Hw'. cbn in Hw'.
  assert (coord m'' = coord m') as Hsame by (rewrite Hc', Hc; reflexivity).
  clear Hc' Hcalls' Hstep'.
  destruct m'' as [c'' w'' cs'' d'']. cbn in Hnil, Hw', Hdelay', Hsame.
  rewrite Hnil, Hw', Hdelay', Hsame. reflexivity.
Qed.

(** X10: SCHEDULE_BLOCK_EXECUTION and EXECUTE_NEW_BLOCK hand the body of
    their block - the current block, the block being minted - to the
    execution engine, once, and go on to wait exactly when the engine answers
    SCHEDULED, to RESET otherwise; without a block they go to RESET and the
    engine is not called.  The coordinator's fields are unchanged. *)
Theorem scheduling_cases {W} (col : Collaborators W) cfg now prev c w :
  (current_block_ c = None →
   step col cfg now SCHEDULE_BLOCK_EXECUTION prev c w = Ok (RESET, enter c w)) ∧
  (next_block_ c = None →
   step col cfg now EXECUTE_NEW_BLOCK prev c w = Ok (RESET, enter c w)) ∧
  (∀ cur, current_block_ c = Some cur →
     step col cfg now SCHEDULE_BLOCK_EXECUTION prev c w =
       Ok (match reply col (Execute (body cur)) w with
           | SCHEDULED => WAIT_FOR_EXECUTION
           | NOT_SCHEDULED _ => RESET
           end,
           {| coord := c; world := after col (Execute (body cur)) w;
              calls := [Execute (body cur)]; delay := None |})) ∧
  (∀ nb, next_block_ c = Some nb →
     step col cfg now EXECUTE_NEW_BLOCK prev c w =
       Ok (match reply col (Execute (body nb)) w with
           | SCHEDULED => WAIT_FOR_NEW_BLOCK_EXECUTION
           | NOT_SCHEDULED _ => RESET
           end,
           {| coord := c; world := after col (Execute (body nb)) w;
              calls := [Execute (body nb)]; delay := None |})).
Proof.
  unfold step, handler, OnScheduleBlockExecution, OnExecuteNewBlock,
    ScheduleCurrentBlock, ScheduleNextBlock, ScheduleBlock, enter.
  repeat split.
  - intros H. cbn. rewrite H. reflexivity.
  - intros H. cbn. rewrite H. reflexivity.
  - intros cur H. cbn. rewrite H. cbn.
    destruct (reply col (Execute (body cur)) w); reflexivity.
  - intros nb H. cbn. rewrite H. cbn.
    destruct (reply col (Execute (body nb)) w); reflexivity.
Qed.

(** X11: polling the execution engine in WAIT_FOR_EXECUTION issues no
    command and changes no field: the coordinator goes to
    POST_EXEC_BLOCK_VALIDATION when the engine is idle and to RESET when
    transactions are unavailable or the execution was aborted or failed,
    with or without a current block.  While the engine is active it stays
    with a delay of 20 ms; when the periodic log message is due then, the
    message reads the hash of the current block, and the invocation faults
    on a null [current_block_].  WAIT_FOR_NEW_BLOCK_EXECUTION does the same
    as long as the engine is not idle, its message reading the previous hash
    of the block being minted: it commits nothing then, and faults only on a
    null [next_block_] when the message is due. *)
Theorem waiting_for_execution {W} (col : Collaborators W) cfg now prev c w :
  step col cfg now WAIT_FOR_EXECUTION prev c w =
    match ask col GetState w with
    | ES_IDLE => Ok (POST_EXEC_BLOCK_VALIDATION, enter c w)
    | ES_ACTIVE =>
        if ask col ExecWaitPoll w && bool_decide (current_block_ c = None)
        then Faulted (NullDereference p_current_block_)
        else Ok (WAIT_FOR_EXECUTION,
                 {| coord := c; world := w; calls := []; delay := Some 20 |})
    | _ => Ok (RESET, enter c w)
    end ∧
  (ask col GetState w ≠ ES_IDLE →
   step col cfg now WAIT_FOR_NEW_BLOCK_EXECUTION prev c w =
     match ask col GetState w with
     | ES_ACTIVE =>
         if ask col ExecWaitPoll w && bool_decide (next_block_ c = None)
         then Faulted (NullDereference p_next_block_)
         else Ok (WAIT_FOR_NEW_BLOCK_EXECUTION,
                  {| coord := c; world := w; calls := []; delay := Some 20 |})
     | _ => Ok (RESET, enter c w)
     end).
Proof.
  unfold step, handler, OnWaitForExecution, OnWaitForNewBlockExecution,
    QueryExecutorStatus, current_block, next_block, enter. cbn.
  split; [|intros Hbusy];
    destruct (ask col GetState w); try reflexivity; try contradiction;
    cbn; destruct (ask col ExecWaitPoll w); cbn; try reflexivity;
    [destruct (current_block_ c)|destruct (next_block_ c)]; reflexivity.
Qed.

(** X12: PROOF_SEARCH gives the miner the block being minted and 100
    attempts, and keeps the block as the miner leaves it.  Without a proof it
    stays in PROOF_SEARCH and tells the execution engine nothing; with a
    proof it sets the block's hash to the digest of the block as mined, tells
    the execution engine that this hash is its last processed block, and
    goes to TRANSMIT_BLOCK.  It never requests a delay. *)
Theorem OnProofSearch_cases {W} (col : Collaborators W) cfg now prev c w nb :
  next_block_ c = Some nb →
  let mined := snd (reply col (Mine nb 100) w) in
  let w1 := after col (Mine nb 100) w in
  let sealed := set_body (body_set_hash (UpdateDigest col mined) (body mined)) mined in
  step col cfg now PROOF_SEARCH prev c w =
    if fst (reply col (Mine nb 100) w) then
      Ok (TRANSMIT_BLOCK,
          {| coord := set_next_block_ (Some sealed) c;
             world := after col (SetLastProcessedBlock (UpdateDigest col mined)) w1;
             calls := [Mine nb 100; SetLastProcessedBlock (UpdateDigest col mined)];
             delay := None |})
    else
      Ok (PROOF_SEARCH,
          {| coord := set_next_block_ (Some mined) c; world := w1;
             calls := [Mine nb 100]; delay := None |}).
Proof.
  intros Hnb mined w1 sealed.
  unfold step, handler, OnProofSearch, enter. cbn. rewrite Hnb. cbn.
  fold mined. destruct (fst (reply col (Mine nb 100) w)); reflexivity.
Qed.

(** X13: PACK_NEW_BLOCK asks the packer once for the block being minted,
    which the packer fills in place: the coordinator keeps the block as the
    packer leaves it, whether the packer returns or throws.  When the packer
    throws, the coordinator goes to RESET and the time of the next block is
    unchanged; otherwise it sets the time of the next block one block period
    after the clock reading and goes to EXECUTE_NEW_BLOCK.  No other field
    changes. *)
Theorem OnPackNewBlock_cases {W} (col : Collaborators W) cfg now prev c w nb :
  next_block_ c = Some nb →
  let pack := GenerateBlock nb (num_lanes_ cfg) (num_slices_ cfg) in
  let left_as := snd (reply col pack w) in
  step col cfg now PACK_NEW_BLOCK prev c w =
    if fst (reply col pack w) then
      Ok (EXECUTE_NEW_BLOCK,
          {| coord := set_next_block_time_ (now + block_period_ c)
                        (set_next_block_ (Some left_as) c);
             world := after col pack w; calls := [pack]; delay := None |})
    else
      Ok (RESET, {| coord := set_next_block_ (Some left_as) c;
                    world := after col pack w; calls := [pack]; delay := None |}).
Proof.
  intros Hnb pack left_as.
  unfold step, handler, OnPackNewBlock, UpdateNextBlockTime, next_block, enter. cbn.
  rewrite Hnb. cbn. fold pack.
  destruct (reply col pack w) as [[|] packed]; reflexivity.
Qed.

(** ** Validation before execution *)

Ltac pre_exec_rejects :=
  split; [reflexivity|]; split; [reflexivity|]; right;
  split; [reflexivity|]; split; [|reflexivity].
Ltac pre_exec_accepts :=
  split; [reflexivity|]; split; [reflexivity|]; left;
  split; [reflexivity|]; split.

(** X14: PRE_EXEC_BLOCK_VALIDATION, with a current block, cannot fault - the
    second, unchecked lookup of the parent finds what the first one found -
    and changes no field.  It lets the block through to WAIT_FOR_TRANSACTIONS
    without removing anything exactly when the block passes the checks (a
    previous hash of 32 bytes; unless the parent is GENESIS: a parent in the
    chain, a valid miner and the right weight when there is a stake manager,
    the parent's number plus one, the configured lanes and slices, and a
    prepared work queue when synergetic execution is on); otherwise it goes
    to RESET and its last command removes the block from the chain.  The
    lane count asked for is [1u << log2_num_lanes], a shift on 32 bits: 2 to
    the power [log2_num_lanes] below 32, and from 32 on, where C++ leaves
    the shift undefined, whatever 32-bit value the compiled code gives
    ([shift_out_of_range], about which nothing is assumed). *)
Theorem OnPreExecBlockValidation_verdict
    {W} (col : Collaborators W) cfg now prev c w cur :
  current_block_ c = Some cur →
  ∃ s' m', step col cfg now PRE_EXEC_BLOCK_VALIDATION prev c w = Ok (s', m') ∧
           coord m' = c ∧ delay m' = None ∧
           ((s' = WAIT_FOR_TRANSACTIONS ∧ passes_pre_exec col cfg w cur ∧
             ∀ h, RemoveBlock h ∉ calls m') ∨
            (s' = RESET ∧ ¬ passes_pre_exec col cfg w cur ∧
             last (calls m') = Some (RemoveBlock (hash (body cur))))) ∧
           (log2_num_lanes (body cur) < 32 →
            shift_left_32 cfg (log2_num_lanes (body cur))
            = 2 ^ log2_num_lanes (body cur)) ∧
           shift_left_32 cfg (log2_num_lanes (body cur)) < 2 ^ 32.
Proof.
  intros Hcur.
  assert (shift_left_32_spec :
            (log2_num_lanes (body cur) < 32 →
             shift_left_32 cfg (log2_num_lanes (body cur))
             = 2 ^ log2_num_lanes (body cur)) ∧
            shift_left_32 cfg (log2_num_lanes (body cur)) < 2 ^ 32).
  { unfold shift_left_32.
    destruct (N.ltb_spec (log2_num_lanes (body cur)) 32) as [Hlt|Hge].
    - rewrite N.shiftl_1_l. split; [reflexivity|].
      apply N.pow_lt_mono_r; [lia|exact Hlt].
    - split; [lia|]. unfold u32. apply N.mod_lt. discriminate. }
  assert (match step col cfg now PRE_EXEC_BLOCK_VALIDATION prev c w with
          | Ok (s', m') =>
              coord m' = c ∧ delay m' = None ∧
              ((s' = WAIT_FOR_TRANSACTIONS ∧ passes_pre_exec col cfg w cur ∧
                ∀ h, RemoveBlock h ∉ calls m') ∨
               (s' = RESET ∧ ¬ passes_pre_exec col cfg w cur ∧
                last (calls m') = Some (RemoveBlock (hash (body cur)))))
          | Faulted _ => False
          end) as H.
  2:{ destruct (step col cfg now PRE_EXEC_BLOCK_VALIDATION prev c w) as [[s' m']|f];
        [|contradiction].
      exists s', m'. split; [reflexivity|].
      destruct H as (? & ? & ?). repeat split; solve [assumption | apply shift_left_32_spec]. }
  clear shift_left_32_spec.
  unfold step, handler, OnPreExecBlockValidation, pre_exec_checks, enter,
    stake, synergetic, passes_pre_exec.
  cbn. rewrite Hcur. cbn.
  destruct (bool_decide_reflect (previous_hash (body cur) = GENESIS_DIGEST cfg))
    as [Hg|Hg]; cbn.
  { destruct (decide (DIGEST_LENGTH_BYTES ≠ byte_size (previous_hash (body cur))))
      as [Hsize|Hsize]; cbn.
    - pre_exec_rejects. intros [Hs _]. congruence.
    - pre_exec_accepts.
      + split; [symmetry; apply dec_stable; exact Hsize|].
        intros Hng. contradiction.
      + intros h Hin. inversion Hin. }
  destruct (ask col (GetBlock (previous_hash (body cur))) w) as [parent|] eqn:Hp; cbn.
  2:{ pre_exec_rejects.
      intros [_ Hrest]. destruct (Hrest Hg) as (p' & Hp' & _). discriminate Hp'. }
  assert (∀ P : Block → Prop,
            (∃ parent', Some parent = Some parent' ∧ P parent') → P parent) as Hthe.
  { intros P (p' & [= <-] & HP). exact HP. }
  destruct (stake_ cfg) eqn:Hstake; cbn;
    [destruct (ask col (ValidMinerForBlock parent (miner (body cur))) w) eqn:Hvalid; cbn;
     [destruct (decide (weight cur ≠
                        ask col (GetBlockGenerationWeight parent (miner (body cur))) w))
        as [Hweight|Hweight]; cbn;
      [|apply dec_stable in Hweight]|];
     try (pre_exec_rejects;
          intros [_ Hrest]; apply Hthe in Hrest; [|exact Hg];
          destruct Hrest as (Hst & _); destruct (Hst eq_refl); congruence)|].
  all: destruct (decide (u64 (block_number (body parent) + 1)
                         ≠ block_number (body cur))) as [Hnum|Hnum]; cbn;
    [pre_exec_rejects;
     intros [_ Hrest]; apply Hthe in Hrest; [|exact Hg];
     destruct Hrest as (_ & Hn & _); congruence|].
  all: destruct (decide (num_lanes_ cfg ≠ shift_left_32 cfg (log2_num_lanes (body cur))))
         as [Hlanes|Hlanes]; cbn;
    [pre_exec_rejects;
     intros [_ Hrest]; apply Hthe in Hrest; [|exact Hg];
     destruct Hrest as (_ & _ & Hn & _); congruence|].
  all: destruct (decide (num_slices_ cfg ≠ N.of_nat (length (slices (body cur)))))
         as [Hslices|Hslices]; cbn;
    [pre_exec_rejects;
     intros [_ Hrest]; apply Hthe in Hrest; [|exact Hg];
     destruct Hrest as (_ & _ & _ & Hn & _); congruence|].
  all: destruct (decide (DIGEST_LENGTH_BYTES ≠ byte_size (previous_hash (body cur))))
         as [Hsize|Hsize]; cbn;
    [pre_exec_rejects; intros [Hs _]; congruence|].
  all: apply dec_stable in Hnum, Hlanes, Hslices, Hsize.
  all: destruct (synergetic_exec_mgr_ cfg) eqn:Hsyn; cbn; rewrite ?Hp; cbn.
  all: try (destruct (reply col (PrepareWorkQueue cur parent) w) eqn:Hprep; cbn).
  all: try (pre_exec_rejects;
            intros [_ Hrest]; apply Hthe in Hrest; [|exact Hg];
            destruct Hrest as (_ & _ & _ & _ & Hn); specialize (Hn eq_refl);
            congruence).
  all: pre_exec_accepts;
    [split; [symmetry; exact Hsize|]; intros _; exists parent;
     repeat split;
     solve [reflexivity | assumption | discriminate | symmetry; assumption
           | intros; assumption]
    |intros h Hin; repeat (apply elem_of_cons in Hin as [Hin|Hin]; [discriminate Hin|]);
     inversion Hin].
Qed.

(** ** Faults *)

(** A case analysis of a handler's run: the run of [UpdateTxStatus] is
    known, what was found out is used, and the next thing the run branches
    on is distinguished. *)
Ltac explore :=
  repeat (cbn; unfold through, when, deref; cbn;
    first
    [ rewrite UpdateTxStatus_run
    | match goal with
      | H : ?x = _ |- context [match ?x with _ => _ end] => rewrite H
      end
    | match goal with
      | |- context [match ?x with _ => _ end] =>
          lazymatch x with
          | context [match _ with _ => _ end] => fail
          | _ => destruct x eqn:?
          end
      end ]).

(** What a fault of a step tells about the state and the fields. *)
Lemma step_fault_cause {W} (col : Collaborators W) cfg now s prev c w f :
  step col cfg now s prev c w = Faulted f →
  fault_cause col cfg s prev c w f ∧
  s ≠ SCHEDULE_BLOCK_EXECUTION ∧ s ≠ EXECUTE_NEW_BLOCK ∧ s ≠ RESET.
Proof.
  assert (match step col cfg now s prev c w with
          | Ok _ => True
          | Faulted f =>
              fault_cause col cfg s prev c w f ∧
              s ≠ SCHEDULE_BLOCK_EXECUTION ∧ s ≠ EXECUTE_NEW_BLOCK ∧ s ≠ RESET
          end) as H.
  2:{ intros Hf. rewrite Hf in H. exact H. }
  unfold step, enter.
  destruct s; cbn [handler];
    unfold OnReloadState, OnSynchronising, OnSynchronised, OnPreExecBlockValidation,
      pre_exec_checks, OnWaitForTransactions, OnSynergeticExecution,
      OnScheduleBlockExecution, OnWaitForExecution, OnPostExecBlockValidation,
      OnPackNewBlock, OnNewSynergeticExecution, OnExecuteNewBlock,
      OnWaitForNewBlockExecution, OnProofSearch, OnTransmitBlock, OnReset,
      ScheduleCurrentBlock, ScheduleNextBlock, ScheduleBlock, QueryExecutorStatus,
      UpdateNextBlockTime, dag, stake, synergetic;
    explore; cbn; try exact I;
    (split; [|repeat split; discriminate]);
    unfold fault_cause, synchronising_block; cbn;
    repeat match goal with
           | H : ?x = _ |- context [?x] => rewrite H
           end;
    try solve [intuition (eauto; congruence)].
  all: try (right; split; [reflexivity|]; eexists; split; [reflexivity|];
            unfold ancestor_path;
            repeat match goal with
                   | H : ?x = _ |- context [?x] => rewrite H
                   end;
            match goal with
            | H : rev _ = _ |- _ =>
                repeat match goal with
                       | E : blocks_to_common_ancestor_ _ = _ |- _ => rewrite E in H
                       end;
                apply (f_equal length) in H;
                rewrite ?length_rev, ?length_app in H; cbn in H |- *; lia
            end).
  all: try solve [split; [reflexivity|]; split; [reflexivity|]; intros _;
                  first [split; assumption | right; split; assumption]].
  all: match goal with
       | H : _ && false = true |- _ => rewrite andb_false_r in H; discriminate H
       | H : false && _ = true |- _ => discriminate H
       end.
Qed.

(** X15: a step faults only for one of these reasons.  A null
    [current_block_] or [next_block_] read by a handler that reads it
    unchecked - in WAIT_FOR_EXECUTION and, while the engine is not idle, in
    WAIT_FOR_NEW_BLOCK_EXECUTION, only for the periodic log message, that is
    when the engine is active and the message is due; a null [pending_txs_]
    in WAIT_FOR_TRANSACTIONS entered with itself as previous state; in
    NEW_SYNERGETIC_EXECUTION, a block being minted whose parent is not in
    the chain; in POST_EXEC_BLOCK_VALIDATION, the missing DAG, or a status
    update that throws, outside any try block; the assertions of
    RELOAD_STATE (no block to work on) and of SYNCHRONISING (an ancestor
    path of fewer than two blocks).  The stake manager and the synergetic
    execution manager are never used when absent, and
    SCHEDULE_BLOCK_EXECUTION, EXECUTE_NEW_BLOCK and RESET never fault. *)
Theorem faults_have_causes {W} (col : Collaborators W) cfg now s prev c w f :
  step col cfg now s prev c w = Faulted f →
  fault_cause col cfg s prev c w f ∧
  s ≠ SCHEDULE_BLOCK_EXECUTION ∧ s ≠ EXECUTE_NEW_BLOCK ∧ s ≠ RESET.
Proof. exact (step_fault_cause col cfg now s prev c w f). Qed.

(** X16: TriggerBlockGeneration, while mining, makes the block interval
    expire at the clock reading: a mining node whose current block is the
    heaviest block of the chain, and which the stake manager - if there is
    one - lets generate, leaves SYNCHRONISED for NEW_SYNERGETIC_EXECUTION at
    its next invocation, at that time or later, whatever the time of the next
    block was.  While not mining, TriggerBlockGeneration changes nothing. *)
Theorem TriggerBlockGeneration_expires
    {W} (col : Collaborators W) cfg t now prev c w cur :
  current_block_ c = Some cur →
  ask col GetHeaviestBlockHash w = hash (body cur) →
  mining_enabled_ c = true →
  t <= now →
  (stake_ cfg = true →
   ask col (ShouldGenerateBlock cur (mining_address_ cfg)) w = true) →
  ∃ m1, TriggerBlockGeneration t (enter c w) = Ok (tt, m1) ∧
        world m1 = w ∧ calls m1 = [] ∧ delay m1 = None ∧
        (mining_ c = false → coord m1 = c) ∧
        (mining_ c = true →
         next_block_time_ (coord m1) = t ∧
         ∃ m2, step col cfg now SYNCHRONISED prev (coord m1) w
               = Ok (NEW_SYNERGETIC_EXECUTION, m2)).
Proof.
  intros Hcur Hheaviest Henabled Htime Hstake.
  unfold TriggerBlockGeneration, enter. cbn.
  destruct (mining_ c) eqn:Hmining; cbn.
  - eexists. split; [reflexivity|]. cbn. repeat split; try discriminate.
    unfold step, handler, OnSynchronised, enter, stake, dag. cbn.
    rewrite Hcur. cbn. rewrite Hheaviest.
    destruct (decide (hash (body cur) ≠ hash (body cur))); [contradiction|].
    cbn. rewrite Hmining, Henabled. cbn.
    assert ((t <=? now) = true) as -> by (apply N.leb_le; exact Htime). cbn.
    destruct (stake_ cfg); cbn; rewrite ?Hstake by reflexivity; cbn;
      destruct (dag_ cfg); cbn; eexists; reflexivity.
  - eexists. split; [reflexivity|]. cbn. repeat split; discriminate.
Qed.

(** ** Synchronising *)

Lemma set_current_block_twice (b b' : option Block) (c : Coord) :
  set_current_block_ b (set_current_block_ b' c) = set_current_block_ b c.
Proof. destruct c. reflexivity. Qed.

Lemma set_current_block_same (b : option Block) (c : Coord) :
  current_block_ c = b → set_current_block_ b c = c.
Proof. destruct c. cbn. intros ->. reflexivity. Qed.

(** SYNCHRONISING on a node that has processed nothing: one block back, or
    on to the validation of the first block. *)
Lemma OnSynchronising_from_genesis {W} (col : Collaborators W) cfg now prev c w b :
  GENESIS_DIGEST cfg = ask col LastProcessedBlock w →
  synchronising_block col c w = Some b →
  hash (body b) ≠ EmptyString →
  step col cfg now SYNCHRONISING prev c w =
    if decide (GENESIS_DIGEST cfg = previous_hash (body b)) then
      Ok (PRE_EXEC_BLOCK_VALIDATION, enter (set_current_block_ (Some b) c) w)
    else
      match ask col (GetBlock (previous_hash (body b))) w with
      | Some parent => Ok (SYNCHRONISING, enter (set_current_block_ (Some parent) c) w)
      | None => Ok (RESET, enter (set_current_block_ (Some b) c) w)
      end.
Proof.
  intros Hlast Hb Hhash.
  unfold synchronising_block in Hb.
  unfold step, handler, OnSynchronising, enter, dag, through. cbn.
  destruct (current_block_ c) as [b'|] eqn:Hcur; cbn;
    [injection Hb as ->; rewrite Hcur; cbn|rewrite Hb; cbn];
    (destruct (decide (hash (body b) = EmptyString)); [contradiction|]); cbn;
    destruct (dag_ cfg); cbn;
    (destruct (decide (GENESIS_DIGEST cfg = ask col LastProcessedBlock w));
       [|contradiction]); cbn;
    destruct (decide (GENESIS_DIGEST cfg = previous_hash (body b))); cbn;
    try destruct (ask col (GetBlock (previous_hash (body b))) w); cbn;
    rewrite ?set_current_block_twice, ?(set_current_block_same _ c Hcur);
    reflexivity.
Qed.


(** X18: the ways SYNCHRONISING ends without reconciling a fork.  Without a
    block to work on, or with one that has no hash, it requests a delay of
    500 ms and goes to RESET.  When the block it works on is the execution
    engine's last processed block (and that is not GENESIS), it goes to
    SYNCHRONISED with this block as current block.  On a node that has
    processed nothing, a block whose parent is not in the chain sends it to
    RESET, with no delay.  When the chain finds no path to a common ancestor,
    it goes to RESET with no delay and keeps what the chain returned in its
    cache.  None of these issues a command. *)
Theorem OnSynchronising_settles {W} (col : Collaborators W) cfg now prev c w :
  let found := set_current_block_ (synchronising_block col c w) c in
  (synchronising_block col c w = None →
   step col cfg now SYNCHRONISING prev c w =
     Ok (RESET, {| coord := found; world := w; calls := []; delay := Some 500 |})) ∧
  (∀ b, synchronising_block col c w = Some b →
     (hash (body b) = EmptyString →
      step col cfg now SYNCHRONISING prev c w =
        Ok (RESET, {| coord := found; world := w; calls := []; delay := Some 500 |})) ∧
     (hash (body b) ≠ EmptyString →
      GENESIS_DIGEST cfg ≠ ask col LastProcessedBlock w →
      hash (body b) = ask col LastProcessedBlock w →
      step col cfg now SYNCHRONISING prev c w = Ok (SYNCHRONISED, enter found w)) ∧
     (hash (body b) ≠ EmptyString →
      GENESIS_DIGEST cfg = ask col LastProcessedBlock w →
      GENESIS_DIGEST cfg ≠ previous_hash (body b) →
      ask col (GetBlock (previous_hash (body b))) w = None →
      step col cfg now SYNCHRONISING prev c w = Ok (RESET, enter found w)) ∧
     (hash (body b) ≠ EmptyString →
      GENESIS_DIGEST cfg ≠ ask col LastProcessedBlock w →
      hash (body b) ≠ ask col LastProcessedBlock w →
      fst (ancestor_path col cfg c w b) = false →
      step col cfg now SYNCHRONISING prev c w =
        Ok (RESET,
            enter (set_blocks_to_common_ancestor_
                     (snd (ancestor_path col cfg c w b)) found) w))).
Proof.
  intros found. subst found.
  unfold synchronising_block, ancestor_path.
  unfold step, handler, OnSynchronising, enter, dag, through.
  destruct (current_block_ c) as [cur|] eqn:Hcur; cbn.
  - rewrite (set_current_block_same _ c Hcur). split; [discriminate|].
    intros b [= <-]. repeat split.
    + intros Hhash. repeat progress (cbn; rewrite ?Hcur).
      destruct (decide (hash (body cur) = EmptyString)); [|contradiction]. cbn. reflexivity.
    + intros Hhash Hgen Hlast. repeat progress (cbn; rewrite ?Hcur).
      destruct (decide (hash (body cur) = EmptyString)); [contradiction|]. cbn.
      destruct (dag_ cfg); cbn;
        (destruct (decide (GENESIS_DIGEST cfg = ask col LastProcessedBlock w));
           [contradiction|]);
        (destruct (decide (hash (body cur) = ask col LastProcessedBlock w));
           [|contradiction]); reflexivity.
    + intros Hhash Hgen Hprev Hnone. repeat progress (cbn; rewrite ?Hcur).
      destruct (decide (hash (body cur) = EmptyString)); [contradiction|]. cbn.
      destruct (dag_ cfg); cbn;
        (destruct (decide (GENESIS_DIGEST cfg = ask col LastProcessedBlock w));
           [|contradiction]);
        (destruct (decide (GENESIS_DIGEST cfg = previous_hash (body cur)));
           [contradiction|]); cbn; rewrite Hnone; reflexivity.
    + intros Hhash Hgen Hlast Hpath. repeat progress (cbn; rewrite ?Hcur).
      destruct (decide (hash (body cur) = EmptyString)); [contradiction|]. cbn.
      destruct (dag_ cfg); cbn;
        (destruct (decide (GENESIS_DIGEST cfg = ask col LastProcessedBlock w));
           [contradiction|]);
        (destruct (decide (hash (body cur) = ask col LastProcessedBlock w));
           [contradiction|]); cbn;
        (destruct (blocks_to_common_ancestor_ c) as [|b0 l] eqn:Hcache;
           [|discriminate Hpath]); cbn; rewrite Hpath; reflexivity.
  - repeat progress (cbn; rewrite ?Hcur). split.
    + intros Hnone. rewrite Hnone. reflexivity.
    + intros b Hb. rewrite Hb. cbn. repeat split.
      * intros Hhash.
        destruct (decide (hash (body b) = EmptyString)); [|contradiction]. cbn. reflexivity.
      * intros Hhash Hgen Hlast.
        destruct (decide (hash (body b) = EmptyString)); [contradiction|]. cbn.
        destruct (dag_ cfg); cbn;
          (destruct (decide (GENESIS_DIGEST cfg = ask col LastProcessedBlock w));
             [contradiction|]);
          (destruct (decide (hash (body b) = ask col LastProcessedBlock w));
             [|contradiction]); reflexivity.
      * intros Hhash Hgen Hprev Hnone.
        destruct (decide (hash (body b) = EmptyString)); [contradiction|]. cbn.
        destruct (dag_ cfg); cbn;
          (destruct (decide (GENESIS_DIGEST cfg = ask col LastProcessedBlock w));
             [|contradiction]);
          (destruct (decide (GENESIS_DIGEST cfg = previous_hash (body b)));
             [contradiction|]); cbn; rewrite Hnone; reflexivity.
      * intros Hhash Hgen Hlast Hpath.
        destruct (decide (hash (body b) = EmptyString)); [contradiction|]. cbn.
        destruct (dag_ cfg); cbn;
          (destruct (decide (GENESIS_DIGEST cfg = ask col LastProcessedBlock w));
             [contradiction|]);
          (destruct (decide (hash (body b) = ask col LastProcessedBlock w));
             [contradiction|]); cbn;
          (destruct (blocks_to_common_ancestor_ c) as [|b0 l] eqn:Hcache;
             [|discriminate Hpath]); cbn in Hpath |- *; rewrite Hpath; reflexivity.
Qed.

(** ** Recovery after execution *)

(** X19: how POST_EXEC_BLOCK_VALIDATION recovers from a block whose Merkle
    root does not match the state, when there is a DAG or the block's parent
    is not in the chain.  With the parent in the chain it reverts the DAG to
    the parent's number and then, whatever the DAG answered, the state store
    to the parent's Merkle root; only when both succeed does it tell the
    execution engine that the parent is its last processed block.  It goes
    back to genesis (DAG to epoch 0 if there is one, state store to the
    GENESIS Merkle root, execution engine to GENESIS) when the parent is
    missing or the DAG could not be reverted - but not when only the state
    store could not be reverted.  Last, it removes the block from the chain;
    it goes to RESET, changes no field and requests no delay. *)
Theorem OnPostExecBlockValidation_recovers
    {W} (col : Collaborators W) cfg now prev c w cur :
  current_block_ c = Some cur →
  GENESIS_DIGEST cfg ≠ previous_hash (body cur) →
  ask col CurrentHash w ≠ merkle_hash (body cur) →
  dag_ cfg = true ∨ ask col (GetBlock (previous_hash (body cur))) w = None →
  let issued :=
    recovery col cfg w (ask col (GetBlock (previous_hash (body cur))) w) ++
    [RemoveBlock (hash (body cur))] in
  step col cfg now POST_EXEC_BLOCK_VALIDATION prev c w =
    Ok (RESET, {| coord := c; world := after_all col issued w;
                  calls := issued; delay := None |}).
Proof.
  intros Hcur Hgen Hne Hdag issued. subst issued.
  unfold step, handler, OnPostExecBlockValidation, enter, dag, through, recovery,
    back_to_genesis. cbn.
  rewrite Hcur. cbn.
  destruct (decide (GENESIS_DIGEST cfg ≠ previous_hash (body cur))); [|contradiction].
  destruct (decide (ask col CurrentHash w ≠ merkle_hash (body cur))); [|contradiction].
  cbn.
  destruct (ask col (GetBlock (previous_hash (body cur))) w) as [p|]; cbn.
  - destruct Hdag as [Hdag|Hdag]; [|discriminate Hdag]. rewrite Hdag. cbn.
    destruct (reply col (RevertToEpoch (block_number (body p))) w) eqn:Hd; cbn;
      destruct (reply col (RevertToHash (merkle_hash (body p)) (block_number (body p)))
                  (after col (RevertToEpoch (block_number (body p))) w)) eqn:Hs;
      cbn; reflexivity.
  - destruct (dag_ cfg); cbn; reflexivity.
Qed.

(** ** Minting *)

(** X20: NEW_SYNERGETIC_EXECUTION does nothing and goes on to PACK_NEW_BLOCK
    unless synergetic execution is on and there is a DAG - even when there is
    no block being minted.  Otherwise it looks up the parent of the block
    being minted and uses it unchecked: the step faults when the chain does
    not have it.  With the parent, it prepares the work queue and, if that
    succeeds, validates the work; a failure of either sends it to RESET, and
    nothing is removed from the chain. *)
Theorem OnNewSynergeticExecution_cases {W} (col : Collaborators W) cfg now prev c w :
  (synergetic_exec_mgr_ cfg && dag_ cfg = false →
   step col cfg now NEW_SYNERGETIC_EXECUTION prev c w
   = Ok (PACK_NEW_BLOCK, enter c w)) ∧
  (synergetic_exec_mgr_ cfg && dag_ cfg = true →
   ∀ nb, next_block_ c = Some nb →
     match ask col (GetBlock (previous_hash (body nb))) w with
     | None =>
         step col cfg now NEW_SYNERGETIC_EXECUTION prev c w
         = Faulted (NullDereference p_previous_block)
     | Some parent =>
         let prepare := PrepareWorkQueue nb parent in
         let validate :=
           ValidateWorkAndUpdateState (block_number (body nb)) (num_lanes_ cfg) in
         step col cfg now NEW_SYNERGETIC_EXECUTION prev c w =
           match reply col prepare w with
           | SYN_FAILURE _ =>
               Ok (RESET, {| coord := c; world := after col prepare w;
                             calls := [prepare]; delay := None |})
           | SUCCESS =>
               Ok (if reply col validate (after col prepare w)
                   then PACK_NEW_BLOCK else RESET,
                   {| coord := c;
                      world := after col validate (after col prepare w);
                      calls := [prepare; validate]; delay := None |})
           end
     end).
Proof.
  unfold step, handler, OnNewSynergeticExecution, enter, synergetic, through.
  split.
  - intros ->. reflexivity.
  - intros Hon nb Hnb. rewrite Hon. cbn. rewrite Hnb. cbn.
    apply andb_true_iff in Hon as [Hsyn Hdag]. rewrite Hsyn.
    destruct (ask col (GetBlock (previous_hash (body nb))) w) as [parent|]; cbn;
      [|reflexivity].
    destruct (reply col (PrepareWorkQueue nb parent) w); cbn; [|reflexivity].
    destruct (reply col (ValidateWorkAndUpdateState _ _) _); reflexivity.
Qed.

(** X21: when SYNCHRONISED does not mint.  It reads through the current
    block unchecked, and faults without one.  When the chain's heaviest block
    is no longer the current block it goes to RESET at once.  Otherwise it
    stays in SYNCHRONISED - with a delay of 100 ms unless it has just come
    from SYNCHRONISING - as long as the node is not mining, mining is not
    enabled or the time of the next block has not come; and with a delay of
    100 ms, whatever the previous state, when the stake manager does not let
    this node generate.  In none of these cases does it issue a command or
    change a field. *)
Theorem OnSynchronised_idles {W} (col : Collaborators W) cfg now prev c w :
  (current_block_ c = None →
   step col cfg now SYNCHRONISED prev c w
   = Faulted (NullDereference p_current_block_)) ∧
  (∀ cur, current_block_ c = Some cur →
     (ask col GetHeaviestBlockHash w ≠ hash (body cur) →
      step col cfg now SYNCHRONISED prev c w = Ok (RESET, enter c w)) ∧
     (ask col GetHeaviestBlockHash w = hash (body cur) →
      mining_ c && mining_enabled_ c && (next_block_time_ c <=? now) = false →
      step col cfg now SYNCHRONISED prev c w =
        Ok (SYNCHRONISED,
            {| coord := c; world := w; calls := [];
               delay := if decide (SYNCHRONISING = prev) then None else Some 100 |})) ∧
     (ask col GetHeaviestBlockHash w = hash (body cur) →
      mining_ c && mining_enabled_ c && (next_block_time_ c <=? now) = true →
      stake_ cfg = true →
      ask col (ShouldGenerateBlock cur (mining_address_ cfg)) w = false →
      step col cfg now SYNCHRONISED prev c w =
        Ok (SYNCHRONISED,
            {| coord := c; world := w; calls := []; delay := Some 100 |}))).
Proof.
  unfold step, handler, OnSynchronised, enter, stake, through. cbn. split.
  - intros ->. reflexivity.
  - intros cur ->. cbn. repeat split.
    + intros Hne.
      destruct (decide (ask col GetHeaviestBlockHash w ≠ hash (body cur)));
        [reflexivity|contradiction].
    + intros Heq Hidle.
      destruct (decide (ask col GetHeaviestBlockHash w ≠ hash (body cur)));
        [contradiction|]. cbn. rewrite Hidle.
      destruct (decide (SYNCHRONISING = prev)); reflexivity.
    + intros Heq Hdue Hstake Hrefused.
      destruct (decide (ask col GetHeaviestBlockHash w ≠ hash (body cur)));
        [contradiction|]. cbn. rewrite Hdue, Hstake. cbn. rewrite Hrefused.
      reflexivity.
Qed.

(** ** Which handler assigns which field *)

Lemma frame_step {W A} (col : Collaborators W) cfg (f : Coord → A) now s prev c w s' m' :
  (∀ v, keeps (λ c, f c = v) (λ _, True) (handler col cfg now s prev)) →
  step col cfg now s prev c w = Ok (s', m') →
  f (coord m') = f c.
Proof.
  intros Hk Hs. specialize (Hk (f c) (enter c w) eq_refl).
  unfold step in Hs. rewrite Hs in Hk. exact Hk.
Qed.

Ltac frame_field :=
  lazymatch goal with
  | |- keeps _ _ (handler _ _ _ ?s _) =>
      destruct s; try discriminate; cbn [handler];
      unfold OnReloadState, OnSynchronising, OnSynchronised, OnPreExecBlockValidation,
        OnWaitForTransactions, OnSynergeticExecution, OnScheduleBlockExecution,
        OnWaitForExecution, OnPostExecBlockValidation, OnPackNewBlock,
        OnNewSynergeticExecution, OnExecuteNewBlock, OnWaitForNewBlockExecution,
        OnProofSearch, OnTransmitBlock, OnReset;
      keeps_auto
  end.

Section Frame.
Context {W : Type} (col : Collaborators W) (cfg : Config) (now : Time).
Context (s prev : State).

Lemma handler_keeps_current_block v :
  assigns_current_block s = false →
  keeps (λ c, current_block_ c = v) (λ _, True) (handler col cfg now s prev).
Proof using Type. intros H. frame_field. Qed.

Lemma handler_keeps_next_block v :
  assigns_next_block s = false →
  keeps (λ c, next_block_ c = v) (λ _, True) (handler col cfg now s prev).
Proof using Type. intros H. frame_field. Qed.

Lemma handler_keeps_pending_txs v :
  assigns_pending_txs s = false →
  keeps (λ c, pending_txs_ c = v) (λ _, True) (handler col cfg now s prev).
Proof using Type. intros H. frame_field. Qed.

Lemma handler_keeps_ancestor_path v :
  assigns_ancestor_path s = false →
  keeps (λ c, blocks_to_common_ancestor_ c = v) (λ _, True)
    (handler col cfg now s prev).
Proof using Type. intros H. frame_field. Qed.

Lemma handler_keeps_next_block_time v :
  assigns_next_block_time s = false →
  keeps (λ c, next_block_time_ c = v) (λ _, True) (handler col cfg now s prev).
Proof using Type. intros H. frame_field. Qed.

Lemma handler_keeps_timers v :
  s ≠ WAIT_FOR_TRANSACTIONS →
  keeps (λ c, (have_asked_for_missing_txs_ c, wait_for_tx_timeout_ c,
               wait_before_asking_for_missing_tx_ c) = v) (λ _, True)
    (handler col cfg now s prev).
Proof using Type.
  intros H. assert (s = WAIT_FOR_TRANSACTIONS → False) as H' by exact H.
  clear H. destruct s; try (exfalso; apply H'; reflexivity); clear H';
    cbn [handler];
    unfold OnReloadState, OnSynchronising, OnSynchronised, OnPreExecBlockValidation,
      OnWaitForTransactions, OnSynergeticExecution, OnScheduleBlockExecution,
      OnWaitForExecution, OnPostExecBlockValidation, OnPackNewBlock,
      OnNewSynergeticExecution, OnExecuteNewBlock, OnWaitForNewBlockExecution,
      OnProofSearch, OnTransmitBlock, OnReset;
    keeps_auto.
Qed.

Lemma handler_keeps_settings v :
  keeps (λ c, (block_period_ c, mining_ c, mining_enabled_ c) = v) (λ _, True)
    (handler col cfg now s prev).
Proof using Type.
  destruct s; cbn [handler];
    unfold OnReloadState, OnSynchronising, OnSynchronised, OnPreExecBlockValidation,
      OnWaitForTransactions, OnSynergeticExecution, OnScheduleBlockExecution,
      OnWaitForExecution, OnPostExecBlockValidation, OnPackNewBlock,
      OnNewSynergeticExecution, OnExecuteNewBlock, OnWaitForNewBlockExecution,
      OnProofSearch, OnTransmitBlock, OnReset;
    keeps_auto.
Qed.

End Frame.

(** X22: which handler assigns which field.  A step that returns leaves
    [current_block_] as it was unless it is a step of RELOAD_STATE,
    SYNCHRONISING, SYNCHRONISED or RESET; [next_block_] unless of
    SYNCHRONISED, PACK_NEW_BLOCK, WAIT_FOR_NEW_BLOCK_EXECUTION, PROOF_SEARCH
    or RESET; [pending_txs_] unless of WAIT_FOR_TRANSACTIONS or RESET; the
    cached ancestor path unless of SYNCHRONISING or RESET; the time of the
    next block unless of PACK_NEW_BLOCK or RESET; the flag and the two timers
    of the wait for transactions unless of WAIT_FOR_TRANSACTIONS.  No handler
    assigns the block period or the mining flags. *)
Theorem handlers_frame {W} (col : Collaborators W) cfg now s prev c w s' m' :
  step col cfg now s prev c w = Ok (s', m') →
  (assigns_current_block s = false → current_block_ (coord m') = current_block_ c) ∧
  (assigns_next_block s = false → next_block_ (coord m') = next_block_ c) ∧
  (assigns_pending_txs s = false → pending_txs_ (coord m') = pending_txs_ c) ∧
  (assigns_ancestor_path s = false →
   blocks_to_common_ancestor_ (coord m') = blocks_to_common_ancestor_ c) ∧
  (assigns_next_block_time s = false →
   next_block_time_ (coord m') = next_block_time_ c) ∧
  (s ≠ WAIT_FOR_TRANSACTIONS →
   have_asked_for_missing_txs_ (coord m') = have_asked_for_missing_txs_ c ∧
   wait_for_tx_timeout_ (coord m') = wait_for_tx_timeout_ c ∧
   wait_before_asking_for_missing_tx_ (coord m')
   = wait_before_asking_for_missing_tx_ c) ∧
  block_period_ (coord m') = block_period_ c ∧
  mining_ (coord m') = mining_ c ∧
  mining_enabled_ (coord m') = mining_enabled_ c.
Proof.
  intros Hstep.
  split; [intros H; apply (frame_step col cfg current_block_ now s prev c w s' m');
          [intros v; apply handler_keeps_current_block, H|exact Hstep]|].
  split; [intros H; apply (frame_step col cfg next_block_ now s prev c w s' m');
          [intros v; apply handler_keeps_next_block, H|exact Hstep]|].
  split; [intros H; apply (frame_step col cfg pending_txs_ now s prev c w s' m');
          [intros v; apply handler_keeps_pending_txs, H|exact Hstep]|].
  split; [intros H;
          apply (frame_step col cfg blocks_to_common_ancestor_ now s prev c w s' m');
          [intros v; apply handler_keeps_ancestor_path, H|exact Hstep]|].
  split; [intros H; apply (frame_step col cfg next_block_time_ now s prev c w s' m');
          [intros v; apply handler_keeps_next_block_time, H|exact Hstep]|].
  split.
  - intros H.
    pose proof (frame_step col cfg
                  (λ c, (have_asked_for_missing_txs_ c, wait_for_tx_timeout_ c,
                         wait_before_asking_for_missing_tx_ c))
                  now s prev c w s' m'
                  (λ v, handler_keeps_timers col cfg now s prev v H) Hstep) as Heq.
    cbn in Heq. injection Heq as -> -> ->. repeat split.
  - pose proof (frame_step col cfg
                  (λ c, (block_period_ c, mining_ c, mining_enabled_ c))
                  now s prev c w s' m'
                  (λ v, handler_keeps_settings col cfg now s prev v) Hstep) as Heq.
    cbn in Heq. injection Heq as -> -> ->. repeat split.
Qed.

(** ** More on the wait for transactions, the transmission and the fork *)

(** X23: an invocation of WAIT_FOR_TRANSACTIONS that keeps waiting leaves as
    pending exactly those transactions, of the ones pending before - all
    transactions of the current block when none were recorded yet -, that the
    storage still does not have: the set never grows.  It requests a delay of
    200 ms and removes nothing from the chain. *)
Theorem OnWaitForTransactions_shrinks
    {W} (col : Collaborators W) cfg now prev c w cur m' :
  current_block_ c = Some cur →
  step col cfg now WAIT_FOR_TRANSACTIONS prev c w = Ok (WAIT_FOR_TRANSACTIONS, m') →
  let before := default (block_digests cur) (pending_txs_ c) in
  pending_txs_ (coord m') = Some (still_missing col (world m') before) ∧
  still_missing col (world m') before ⊆ before ∧
  (∀ d, d ∈ still_missing col (world m') before →
        ask col (HasTransaction d) (world m') = false) ∧
  delay m' = Some 200 ∧
  ∀ h, RemoveBlock h ∉ calls m'.
Proof.
  intros Hcur Hstep before. subst before.
  assert (∀ (w' : W) (s : DigestSet), still_missing col w' s ⊆ s) as Hsub.
  { intros w' s d. unfold still_missing. rewrite elem_of_filter. tauto. }
  assert (∀ (w' : W) (s : DigestSet) d,
            d ∈ still_missing col w' s → ask col (HasTransaction d) w' = false) as Hmiss.
  { intros w' s d. unfold still_missing. rewrite elem_of_filter. tauto. }
  revert Hstep.
  unfold step, handler, OnWaitForTransactions, enter, dag, through, HasExpired.
  destruct (pending_txs_ c) as [txs|] eqn:Hpend;
    destruct (decide (prev = WAIT_FOR_TRANSACTIONS)) as [Hp|Hp];
    repeat (repeat progress (cbn -[still_missing]; rewrite ?Hcur, ?Hpend);
            match goal with
            | |- context [if ?b then _ else _] =>
                lazymatch type of b with bool => destruct b eqn:? end
            end);
    repeat progress (cbn -[still_missing]; rewrite ?Hcur, ?Hpend);
    intros H; try discriminate H; injection H as <-; cbn -[still_missing];
    (split; [reflexivity|]); (split; [apply Hsub|]); (split; [apply Hmiss|]);
    (split; [reflexivity|]);
    intros h Hin;
    repeat (apply elem_of_cons in Hin as [Hin|Hin]; [discriminate Hin|]);
    inversion Hin.
Qed.

(** The status updates hand nothing to the block sink. *)
Lemma updates_issued_to_sink {W} (col : Collaborators W) (ds : list Digest) (w : W) :
  List.filter to_sink (updates_issued col ds w) = [].
Proof.
  revert w. induction ds as [|d ds IH]; intros w; [reflexivity|]. cbn.
  destruct (reply col (Update d EXECUTED) w); [apply IH|reflexivity].
Qed.

(** X24: when the chain adds the minted block, TRANSMIT_BLOCK marks the
    transactions of the block as executed, slice by slice in the block's
    order; it keeps the block as the block being minted and goes to RESET.
    When no status update throws, every transaction is marked, the block is
    recorded as last executed, and only then handed to the block sink -
    once, as the last command, whether the sink returns or throws.  When a
    status update throws, it is the last command: the later transactions are
    not marked, the last executed block stays and the block sink is not
    called. *)
Theorem OnTransmitBlock_announces {W} (col : Collaborators W) cfg now prev c w nb :
  next_block_ c = Some nb →
  reply col (AddBlock nb) w = Some ADDED →
  ∃ m', step col cfg now TRANSMIT_BLOCK prev c w = Ok (RESET, m') ∧
        next_block_ (coord m') = Some nb ∧
        delay m' = None ∧
        if updates_done col (block_transactions nb) (after col (AddBlock nb) w) then
          calls m' = AddBlock nb
                     :: map (λ d, Update d EXECUTED) (concat (slices (body nb)))
                     ++ [OnBlock nb] ∧
          last (calls m') = Some (OnBlock nb) ∧
          List.filter to_sink (calls m') = [OnBlock nb] ∧
          last_executed_block_ (coord m') = hash (body nb)
        else
          calls m' = AddBlock nb
                     :: updates_issued col (block_transactions nb)
                          (after col (AddBlock nb) w) ∧
          List.filter to_sink (calls m') = [] ∧
          last_executed_block_ (coord m') = last_executed_block_ c.
Proof.
  intros Hnb Hadd.
  rewrite (OnTransmitBlock_added col cfg now prev c w nb Hnb Hadd).
  destruct (updates_done col (block_transactions nb) (after col (AddBlock nb) w)).
  - eexists. split; [reflexivity|]. cbn. unfold status_updates.
    split; [exact Hnb|]. split; [reflexivity|]. split; [reflexivity|].
    split; [|split; [|reflexivity]].
    + rewrite app_comm_cons. apply last_snoc.
    + induction (concat (slices (body nb))) as [|d l IH]; [reflexivity|]. exact IH.
  - eexists. split; [reflexivity|]. cbn.
    split; [exact Hnb|]. split; [reflexivity|]. split; [reflexivity|].
    split; [apply updates_issued_to_sink|reflexivity].
Qed.

(** X25: fork reconciliation that cannot revert.  With the common parent's
    state in the store, SYNCHRONISING requests a delay of 5 seconds and goes
    to RESET when the state store does not revert to the common parent - its
    only command then - and, with a DAG, when the state store reverted but
    the DAG does not.  In both cases the block to execute next is not made
    the current block, the ancestor path stays cached as found, and the
    execution engine is told nothing. *)
Theorem OnSynchronising_revert_fails
    {W} (col : Collaborators W) cfg now prev c w cur front next common_parent :
  fork_reconciliation col cfg c w cur front next common_parent →
  ask col (HashExists (merkle_hash (body common_parent))
                      (block_number (body common_parent))) w = true →
  let store_back := RevertToHash (merkle_hash (body common_parent))
                                 (block_number (body common_parent)) in
  let dag_back := RevertToEpoch (block_number (body common_parent)) in
  let found := set_blocks_to_common_ancestor_ (front ++ [next; common_parent])
                 (set_current_block_ (Some cur) c) in
  (reply col store_back w = false →
   step col cfg now SYNCHRONISING prev c w =
     Ok (RESET, {| coord := found; world := after col store_back w;
                   calls := [store_back]; delay := Some 5000 |})) ∧
  (reply col store_back w = true → dag_ cfg = true →
   reply col dag_back (after col store_back w) = false →
   step col cfg now SYNCHRONISING prev c w =
     Ok (RESET, {| coord := found;
                   world := after col dag_back (after col store_back w);
                   calls := [store_back; dag_back]; delay := Some 5000 |})).
Proof.
  intros Hfork Hknown store_back dag_back found. subst store_back dag_back found.
  rewrite (OnSynchronising_reconciles col cfg now prev c w cur front next
             common_parent Hfork).
  unfold enter. cbn. rewrite Hknown. cbn. split.
  - intros ->. reflexivity.
  - intros -> ->. cbn. intros ->. reflexivity.
Qed.

(** ** Examples *)

Lemma OnProofSearch_cases_witness :
  next_block_ (Sample.coordinator None (Some Sample.B3)) = Some Sample.B3 ∧
  ∃ m', step Double.collaborators (Sample.cfg true true true) 0 PROOF_SEARCH
             PROOF_SEARCH (Sample.coordinator None (Some Sample.B3))
             (Sample.world None) = Ok (TRANSMIT_BLOCK, m') ∧
        calls m' = [Mine Sample.B3 100;
                    SetLastProcessedBlock (Double.digest_of Sample.B3)].
Proof.
  split; [reflexivity|].
  pose proof (OnProofSearch_cases Double.collaborators (Sample.cfg true true true) 0
                PROOF_SEARCH (Sample.coordinator None (Some Sample.B3))
                (Sample.world None) Sample.B3 eq_refl) as H.
  cbv zeta in H. rewrite H. eexists. split; reflexivity.
Defined.

Lemma OnPackNewBlock_cases_witness :
  next_block_ (Sample.coordinator None (Some Sample.B3)) = Some Sample.B3 ∧
  ∃ m', step Double.collaborators (Sample.cfg true true true) 5 PACK_NEW_BLOCK
             NEW_SYNERGETIC_EXECUTION (Sample.coordinator None (Some Sample.B3))
             (Sample.world None) = Ok (EXECUTE_NEW_BLOCK, m') ∧
        next_block_time_ (coord m') = 1005.
Proof.
  split; [reflexivity|].
  pose proof (OnPackNewBlock_cases Double.collaborators (Sample.cfg true true true) 5
                NEW_SYNERGETIC_EXECUTION (Sample.coordinator None (Some Sample.B3))
                (Sample.world None) Sample.B3 eq_refl) as H.
  cbv zeta in H. rewrite H. eexists. split; reflexivity.
Defined.

Lemma OnPreExecBlockValidation_verdict_witness :
  current_block_ (Sample.coordinator (Some child32) None) = Some child32 ∧
  ∃ s' m', step Double.collaborators (cfg32 true true true) 0
                PRE_EXEC_BLOCK_VALIDATION SYNCHRONISING
                (Sample.coordinator (Some child32) None) world32 = Ok (s', m') ∧
           coord m' = Sample.coordinator (Some child32) None ∧ delay m' = None ∧
           ((s' = WAIT_FOR_TRANSACTIONS ∧
             passes_pre_exec Double.collaborators (cfg32 true true true) world32 child32 ∧
             ∀ h, RemoveBlock h ∉ calls m') ∨
            (s' = RESET ∧
             ¬ passes_pre_exec Double.collaborators (cfg32 true true true) world32 child32 ∧
             last (calls m') = Some (RemoveBlock (hash (body child32))))) ∧
           (log2_num_lanes (body child32) < 32 →
            shift_left_32 (cfg32 true true true) (log2_num_lanes (body child32))
            = 2 ^ log2_num_lanes (body child32)) ∧
           shift_left_32 (cfg32 true true true) (log2_num_lanes (body child32)) < 2 ^ 32.
Proof.
  split; [reflexivity|].
  apply (OnPreExecBlockValidation_verdict Double.collaborators (cfg32 true true true) 0
           SYNCHRONISING (Sample.coordinator (Some child32) None) world32 child32).
  reflexivity.
Defined.

Lemma faults_have_causes_witness :
  step Double.collaborators (Sample.cfg true false true) 0 NEW_SYNERGETIC_EXECUTION
       SYNCHRONISED (Sample.coordinator None (Some Sample.B3)) empty_chain_world
  = Faulted (NullDereference p_previous_block) ∧
  fault_cause Double.collaborators (Sample.cfg true false true)
    NEW_SYNERGETIC_EXECUTION SYNCHRONISED (Sample.coordinator None (Some Sample.B3))
    empty_chain_world (NullDereference p_previous_block) ∧
  NEW_SYNERGETIC_EXECUTION ≠ SCHEDULE_BLOCK_EXECUTION ∧
  NEW_SYNERGETIC_EXECUTION ≠ EXECUTE_NEW_BLOCK ∧
  NEW_SYNERGETIC_EXECUTION ≠ RESET.
Proof.
  split; [reflexivity|].
  apply (faults_have_causes Double.collaborators (Sample.cfg true false true) 0
           NEW_SYNERGETIC_EXECUTION SYNCHRONISED
           (Sample.coordinator None (Some Sample.B3)) empty_chain_world).
  reflexivity.
Defined.

Lemma TriggerBlockGeneration_expires_witness :
  current_block_ (Sample.coordinator (Some Sample.B2) None) = Some Sample.B2 ∧
  ask Double.collaborators GetHeaviestBlockHash (Sample.world None)
  = hash (body Sample.B2) ∧
  mining_enabled_ (Sample.coordinator (Some Sample.B2) None) = true ∧
  200 <= 250 ∧
  ∃ m1, TriggerBlockGeneration 200
          (enter (Sample.coordinator (Some Sample.B2) None) (Sample.world None))
        = Ok (tt, m1) ∧
        world m1 = Sample.world None ∧ calls m1 = [] ∧ delay m1 = None ∧
        (mining_ (Sample.coordinator (Some Sample.B2) None) = false →
         coord m1 = Sample.coordinator (Some Sample.B2) None) ∧
        (mining_ (Sample.coordinator (Some Sample.B2) None) = true →
         next_block_time_ (coord m1) = 200 ∧
         ∃ m2, step Double.collaborators (Sample.cfg true true true) 250 SYNCHRONISED
                    SYNCHRONISED (coord m1) (Sample.world None)
               = Ok (NEW_SYNERGETIC_EXECUTION, m2)).
Proof.
  split; [reflexivity|]. split; [reflexivity|]. split; [reflexivity|].
  split; [lia|].
  apply (TriggerBlockGeneration_expires Double.collaborators (Sample.cfg true true true)
           200 250 SYNCHRONISED (Sample.coordinator (Some Sample.B2) None)
           (Sample.world None) Sample.B2); try reflexivity. lia.
Defined.


Lemma OnPostExecBlockValidation_recovers_witness :
  current_block_ (Sample.coordinator (Some Sample.B2) None) = Some Sample.B2 ∧
  GENESIS_DIGEST (Sample.cfg true false false) ≠ previous_hash (body Sample.B2) ∧
  ask Double.collaborators CurrentHash (Sample.world None)
  ≠ merkle_hash (body Sample.B2) ∧
  dag_ (Sample.cfg true false false) = true ∧
  ∃ m', step Double.collaborators (Sample.cfg true false false) 0
             POST_EXEC_BLOCK_VALIDATION WAIT_FOR_EXECUTION
             (Sample.coordinator (Some Sample.B2) None) (Sample.world None)
        = Ok (RESET, m') ∧
        calls m' = [RevertToEpoch 1; RevertToHash "root1" 1;
                    SetLastProcessedBlock "b1"; RemoveBlock "b2"].
Proof.
  split; [reflexivity|]. split; [discriminate|]. split; [discriminate|].
  split; [reflexivity|].
  pose proof (OnPostExecBlockValidation_recovers Double.collaborators
                (Sample.cfg true false false) 0 WAIT_FOR_EXECUTION
                (Sample.coordinator (Some Sample.B2) None) (Sample.world None)
                Sample.B2 eq_refl ltac:(discriminate) ltac:(discriminate)
                (or_introl eq_refl)) as H.
  cbv zeta in H. rewrite H. eexists. split; reflexivity.
Defined.

Lemma handlers_frame_witness :
  ∃ s' m',
    step Double.collaborators (Sample.cfg true true true) 0 PROOF_SEARCH
         WAIT_FOR_NEW_BLOCK_EXECUTION (Sample.coordinator None (Some Sample.B3))
         (Sample.world None) = Ok (s', m') ∧
    current_block_ (coord m') = None ∧
    pending_txs_ (coord m') = None ∧
    next_block_time_ (coord m') = 1000 ∧
    mining_ (coord m') = true.
Proof.
  destruct (step Double.collaborators (Sample.cfg true true true) 0 PROOF_SEARCH
              WAIT_FOR_NEW_BLOCK_EXECUTION (Sample.coordinator None (Some Sample.B3))
              (Sample.world None)) as [[s' m']|f] eqn:Hstep; [|discriminate Hstep].
  exists s', m'. split; [reflexivity|].
  destruct (handlers_frame Double.collaborators (Sample.cfg true true true) 0
              PROOF_SEARCH WAIT_FOR_NEW_BLOCK_EXECUTION
              (Sample.coordinator None (Some Sample.B3)) (Sample.world None) s' m'
              Hstep) as (Hcur & _ & Hpend & _ & Htime & _ & _ & Hmining & _).
  rewrite (Hcur eq_refl), (Hpend eq_refl), (Htime eq_refl), Hmining.
  repeat split.
Defined.

Lemma OnWaitForTransactions_shrinks_witness :
  current_block_ (Sample.coordinator (Some Sample.B1) None) = Some Sample.B1 ∧
  ∃ m', step Double.collaborators (Sample.cfg false false false) 0
             WAIT_FOR_TRANSACTIONS PRE_EXEC_BLOCK_VALIDATION
             (Sample.coordinator (Some Sample.B1) None) starved_world
        = Ok (WAIT_FOR_TRANSACTIONS, m') ∧
        pending_txs_ (coord m')
        = Some (still_missing Double.collaborators (world m')
                  (block_digests Sample.B1)) ∧
        delay m' = Some 200.
Proof.
  split; [reflexivity|].
  eexists. split; [vm_compute; reflexivity|].
  match goal with
  | |- pending_txs_ (coord ?m) = _ ∧ _ =>
      destruct (OnWaitForTransactions_shrinks Double.collaborators
                  (Sample.cfg false false false) 0 PRE_EXEC_BLOCK_VALIDATION
                  (Sample.coordinator (Some Sample.B1) None) starved_world
                  Sample.B1 m eq_refl) as (Hpend & _ & _ & Hdelay & _);
      [vm_compute; reflexivity|]
  end.
  split; [exact Hpend|exact Hdelay].
Defined.

Lemma OnTransmitBlock_announces_witness :
  next_block_ (Sample.coordinator None (Some Sample.B3)) = Some Sample.B3 ∧
  reply Double.collaborators (AddBlock Sample.B3) (Sample.world (Some ADDED))
  = Some ADDED ∧
  updates_done Double.collaborators (block_transactions Sample.B3)
    (after Double.collaborators (AddBlock Sample.B3) (Sample.world (Some ADDED)))
  = true ∧
  ∃ m', step Double.collaborators (Sample.cfg true true true) 0 TRANSMIT_BLOCK
             PROOF_SEARCH (Sample.coordinator None (Some Sample.B3))
             (Sample.world (Some ADDED)) = Ok (RESET, m') ∧
        calls m' = [AddBlock Sample.B3; Update "tx4" EXECUTED; Update "tx5" EXECUTED;
                    OnBlock Sample.B3].
Proof.
  split; [reflexivity|]. split; [reflexivity|]. split; [reflexivity|].
  destruct (OnTransmitBlock_announces Double.collaborators (Sample.cfg true true true) 0
              PROOF_SEARCH (Sample.coordinator None (Some Sample.B3))
              (Sample.world (Some ADDED)) Sample.B3 eq_refl eq_refl)
    as (m' & Hstep & _ & _ & Hcalls & _).
  exists m'. split; [exact Hstep|exact Hcalls].
Defined.

Lemma OnSynchronising_revert_fails_witness :
  fork_reconciliation refusing_store (Sample.cfg true false false)
    (Sample.coordinator None None) (Sample.world None)
    Sample.B2 [] Sample.B2 Sample.B1 ∧
  ask refusing_store (HashExists (merkle_hash (body Sample.B1))
                                 (block_number (body Sample.B1))) (Sample.world None)
  = true ∧
  reply refusing_store (RevertToHash "root1" 1) (Sample.world None) = false ∧
  step refusing_store (Sample.cfg true false false) 0 SYNCHRONISING RESET
       (Sample.coordinator None None) (Sample.world None)
  = Ok (RESET,
        {| coord := set_blocks_to_common_ancestor_ [Sample.B2; Sample.B1]
                      (set_current_block_ (Some Sample.B2)
                         (Sample.coordinator None None));
           world := Sample.world None;
           calls := [RevertToHash "root1" 1];
           delay := Some 5000 |}).
Proof.
  assert (fork_reconciliation refusing_store (Sample.cfg true false false)
            (Sample.coordinator None None) (Sample.world None)
            Sample.B2 [] Sample.B2 Sample.B1) as Hfork.
  { repeat split; vm_compute; discriminate. }
  split; [exact Hfork|]. split; [reflexivity|]. split; [reflexivity|].
  exact (proj1 (OnSynchronising_revert_fails refusing_store
                  (Sample.cfg true false false) 0 RESET (Sample.coordinator None None)
                  (Sample.world None) Sample.B2 [] Sample.B2 Sample.B1
                  Hfork eq_refl) eq_refl).
Defined.

(** ** The unchecked reads of the blocks *)

(** A step leaves the fields in place for the state it goes to. *)
Lemma step_keeps_placement {W} (col : Collaborators W) cfg now s prev c w s' m' :
  well_placed s prev c →
  step col cfg now s prev c w = Ok (s', m') →
  well_placed s' s (coord m').
Proof.
  intros Hplaced.
  assert (match step col cfg now s prev c w with
          | Ok (s', m') => well_placed s' s (coord m')
          | Faulted _ => True
          end) as H.
  2:{ intros Hs. rewrite Hs in H. exact H. }
  unfold step, enter.
  destruct Hplaced as (Hcur & Hnext & Hpend).
  destruct s; cbn [handler]; cbn in Hcur, Hnext;
    unfold OnReloadState, OnSynchronising, OnSynchronised, OnPreExecBlockValidation,
      pre_exec_checks, OnWaitForTransactions, OnSynergeticExecution,
      OnScheduleBlockExecution, OnWaitForExecution, OnPostExecBlockValidation,
      OnPackNewBlock, OnNewSynergeticExecution, OnExecuteNewBlock,
      OnWaitForNewBlockExecution, OnProofSearch, OnTransmitBlock, OnReset,
      ScheduleCurrentBlock, ScheduleNextBlock, ScheduleBlock, QueryExecutorStatus,
      UpdateNextBlockTime, dag, stake, synergetic;
    explore; cbn; try exact I;
    unfold well_placed; cbn;
    repeat match goal with
           | H : ?x = _ |- context [?x] => rewrite H
           end;
    (split; [|split]); intros; try discriminate; eauto.
Qed.

(** X26: the fields stay in place along the transitions.  If the current
    block is there in the states that work on it (SYNCHRONISED and
    PRE_EXEC_BLOCK_VALIDATION to POST_EXEC_BLOCK_VALIDATION), the block being
    minted in the states that work on it (NEW_SYNERGETIC_EXECUTION to
    TRANSMIT_BLOCK), and the pending transactions when WAIT_FOR_TRANSACTIONS
    is entered from itself, then the same holds after a step, for the state
    the step goes to, entered from the state of the step. *)
Theorem placement_is_kept {W} (col : Collaborators W) cfg now s prev c w s' m' :
  well_placed s prev c →
  step col cfg now s prev c w = Ok (s', m') →
  well_placed s' s (coord m').
Proof. exact (step_keeps_placement col cfg now s prev c w s' m'). Qed.

(** The initial state asks nothing of the fields. *)
Lemma well_placed_RELOAD_STATE (prev : State) (c : Coord) :
  well_placed RELOAD_STATE prev c.
Proof. repeat split; discriminate. Qed.

(** X27: the unchecked reads are safe.  In RELOAD_STATE, the initial state,
    the fields are in place whatever they are; and a run of the state machine
    that begins with the fields in place never faults on a null
    [current_block_], [next_block_] or [pending_txs_], whatever the
    collaborators answer and whenever the handlers are invoked, and it ends
    with the fields in place. *)
Theorem unchecked_reads_are_safe {W} (col : Collaborators W) cfg
    (schedule : list (Time * W)) :
  (∀ prev c, well_placed RELOAD_STATE prev c) ∧
  ∀ s prev c,
    well_placed s prev c →
    match run col cfg schedule s prev c with
    | Ok (s', prev', c') => well_placed s' prev' c'
    | Faulted f =>
        f ≠ NullDereference p_current_block_ ∧
        f ≠ NullDereference p_next_block_ ∧
        f ≠ NullDereference p_pending_txs_
    end.
Proof.
  split; [exact well_placed_RELOAD_STATE|].
  induction schedule as [|[now w] rest IH]; intros s prev c Hplaced; cbn [run].
  - exact Hplaced.
  - destruct (step col cfg now s prev c w) as [[s' m']|f] eqn:Hstep.
    + apply IH. exact (step_keeps_placement col cfg now s prev c w s' m' Hplaced Hstep).
    + destruct (step_fault_cause col cfg now s prev c w f Hstep) as [Hcause _].
      destruct Hplaced as (Hcur & Hnext & Hpend).
      unfold fault_cause in Hcause.
      repeat split; intros ->.
      * destruct Hcause as (Hnone & Hreads & _).
        destruct Hcur as [b Hb]; [destruct s; solve [reflexivity | discriminate Hreads]|].
        congruence.
      * destruct Hcause as (Hnone & Hreads & _).
        destruct Hnext as [b Hb]; [destruct s; solve [reflexivity | discriminate Hreads]|].
        congruence.
      * destruct Hcause as (Hnone & -> & ->).
        destruct (Hpend eq_refl eq_refl) as [b Hb]. congruence.
Qed.

(** X28: RELOAD_STATE, given a block to work on - the current block, else
    the heaviest block of the chain -, makes it the current block and goes to
    RESET.  Unless the block's parent is GENESIS, it reverts the state store
    to the block's Merkle root and then, with a DAG, the DAG to the block's
    number, even when the state store refused; when every revert succeeded it
    tells the execution engine that the block is its last processed block
    and records it as last executed.  Otherwise it issues no further command
    and the last executed block stays. *)
Theorem OnReloadState_run {W} (col : Collaborators W) cfg now prev c w cur :
  synchronising_block col c w = Some cur →
  let store_back := RevertToHash (merkle_hash (body cur)) (block_number (body cur)) in
  let dag_back := RevertToEpoch (block_number (body cur)) in
  let reverts :=
    if decide (GENESIS_DIGEST cfg ≠ previous_hash (body cur))
    then store_back :: (if dag_ cfg then [dag_back] else [])
    else [] in
  let reverted :=
    bool_decide (GENESIS_DIGEST cfg ≠ previous_hash (body cur)) &&
    reply col store_back w &&
    (if dag_ cfg then reply col dag_back (after col store_back w) else true) in
  let issued :=
    reverts ++ (if reverted then [SetLastProcessedBlock (hash (body cur))] else []) in
  step col cfg now RELOAD_STATE prev c w =
    Ok (RESET,
        {| coord := (if reverted then set_last_executed_block_ (hash (body cur))
                     else id) (set_current_block_ (Some cur) c);
           world := after_all col issued w;
           calls := issued; delay := None |}).
Proof.
  intros Hb store_back dag_back reverts reverted issued.
  subst issued reverted reverts dag_back store_back.
  unfold synchronising_block in Hb.
  unfold step, handler, OnReloadState, enter, dag, through. cbn.
  destruct (current_block_ c) as [b|] eqn:Hcur; cbn;
    [injection Hb as ->; rewrite Hcur; cbn;
     rewrite (set_current_block_same _ c Hcur)
    |rewrite Hb; cbn].
  all: destruct (decide (GENESIS_DIGEST cfg ≠ previous_hash (body cur))) as [Hg|Hg];
    [rewrite (bool_decide_eq_true_2 _ Hg)|rewrite (bool_decide_eq_false_2 _ Hg)];
    cbn; [|reflexivity].
  all: destruct (reply col (RevertToHash _ _) w) eqn:Hs; cbn;
    destruct (dag_ cfg); cbn;
    try (destruct (reply col (RevertToEpoch _) _) eqn:Hd; cbn);
    reflexivity.
Qed.

Lemma placement_is_kept_witness :
  well_placed WAIT_FOR_EXECUTION SCHEDULE_BLOCK_EXECUTION
    (Sample.coordinator (Some Sample.B2) None) ∧
  ∃ m', step Double.collaborators (Sample.cfg true true true) 0 WAIT_FOR_EXECUTION
             SCHEDULE_BLOCK_EXECUTION (Sample.coordinator (Some Sample.B2) None)
             (Sample.world None) = Ok (POST_EXEC_BLOCK_VALIDATION, m') ∧
        well_placed POST_EXEC_BLOCK_VALIDATION WAIT_FOR_EXECUTION (coord m').
Proof.
  assert (well_placed WAIT_FOR_EXECUTION SCHEDULE_BLOCK_EXECUTION
            (Sample.coordinator (Some Sample.B2) None)) as Hplaced.
  { repeat split; solve [discriminate | intros _; eexists; reflexivity]. }
  split; [exact Hplaced|].
  eexists. split; [reflexivity|].
  apply (placement_is_kept Double.collaborators (Sample.cfg true true true) 0
           WAIT_FOR_EXECUTION SCHEDULE_BLOCK_EXECUTION
           (Sample.coordinator (Some Sample.B2) None) (Sample.world None)
           POST_EXEC_BLOCK_VALIDATION _ Hplaced).
  reflexivity.
Defined.

Lemma unchecked_reads_are_safe_witness :
  well_placed RELOAD_STATE RELOAD_STATE (Sample.coordinator None None) ∧
  match run Double.collaborators (Sample.cfg true false false) start_up
          RELOAD_STATE RELOAD_STATE (Sample.coordinator None None) with
  | Ok (s', prev', c') => well_placed s' prev' c'
  | Faulted f =>
      f ≠ NullDereference p_current_block_ ∧
      f ≠ NullDereference p_next_block_ ∧
      f ≠ NullDereference p_pending_txs_
  end.
Proof.
  destruct (unchecked_reads_are_safe Double.collaborators (Sample.cfg true false false)
              start_up) as [Hinitial Hrun].
  split; [apply Hinitial|].
  apply (Hrun RELOAD_STATE RELOAD_STATE (Sample.coordinator None None)).
  apply Hinitial.
Defined.

Lemma OnReloadState_run_witness :
  synchronising_block Double.collaborators (Sample.coordinator None None)
    (Sample.world None) = Some Sample.B2 ∧
  ∃ m', step Double.collaborators (Sample.cfg true false false) 0 RELOAD_STATE
             RELOAD_STATE (Sample.coordinator None None) (Sample.world None)
        = Ok (RESET, m') ∧
        calls m' = [RevertToHash "root2" 2; RevertToEpoch 2] ∧
        current_block_ (coord m') = Some Sample.B2 ∧
        last_executed_block_ (coord m') = "b1".
Proof.
  split; [reflexivity|].
  pose proof (OnReloadState_run Double.collaborators (Sample.cfg true false false) 0
                RELOAD_STATE (Sample.coordinator None None) (Sample.world None)
                Sample.B2 eq_refl) as H.
  cbv zeta in H. rewrite H. eexists. split; [reflexivity|].
  repeat split.
Defined.

(** X29: when WAIT_FOR_TRANSACTIONS asks the peers.  Entered from another
    state, it asks nobody, clears the asked flag and arms the countdown of 30
    seconds.  Entered from itself, it asks the peers only when it has not
    asked yet and the countdown has expired: then its first command requests
    the transactions that were pending before this invocation - not the ones
    still missing now -, it sets the asked flag and arms the timeout of 30
    seconds; once the flag is set it never asks again, and the flag and the
    timeout stay as they are. *)
Theorem OnWaitForTransactions_asks
    {W} (col : Collaborators W) cfg now prev c w cur s' m' :
  current_block_ c = Some cur →
  step col cfg now WAIT_FOR_TRANSACTIONS prev c w = Ok (s', m') →
  (prev ≠ WAIT_FOR_TRANSACTIONS →
   List.filter asks_peers (calls m') = [] ∧
   have_asked_for_missing_txs_ (coord m') = false ∧
   wait_before_asking_for_missing_tx_ (coord m')
   = Restart now WAIT_BEFORE_ASKING_FOR_MISSING_TX_INTERVAL) ∧
  (prev = WAIT_FOR_TRANSACTIONS →
   have_asked_for_missing_txs_ c = true →
   List.filter asks_peers (calls m') = [] ∧
   have_asked_for_missing_txs_ (coord m') = true ∧
   wait_for_tx_timeout_ (coord m') = wait_for_tx_timeout_ c) ∧
  (prev = WAIT_FOR_TRANSACTIONS →
   have_asked_for_missing_txs_ c = false →
   if HasExpired now (wait_before_asking_for_missing_tx_ c) then
     ∃ txs, pending_txs_ c = Some txs ∧
            head (calls m') = Some (IssueCallForMissingTxs txs) ∧
            List.filter asks_peers (calls m') = [IssueCallForMissingTxs txs] ∧
            have_asked_for_missing_txs_ (coord m') = true ∧
            wait_for_tx_timeout_ (coord m') = Restart now WAIT_FOR_TX_TIMEOUT_INTERVAL
   else
     List.filter asks_peers (calls m') = [] ∧
     have_asked_for_missing_txs_ (coord m') = false).
Proof.
  intros Hcur.
  unfold step, handler, OnWaitForTransactions, enter, dag, through.
  destruct (decide (prev = WAIT_FOR_TRANSACTIONS)) as [Hp|Hp];
    destruct (have_asked_for_missing_txs_ c) eqn:Hasked;
    destruct (HasExpired now (wait_before_asking_for_missing_tx_ c)) eqn:Hask;
    destruct (pending_txs_ c) as [txs|] eqn:Hpend;
    repeat (repeat progress (cbn -[still_missing HasExpired];
                             rewrite ?Hcur, ?Hpend, ?Hasked, ?Hask);
            match goal with
            | |- context [if ?b then _ else _] =>
                lazymatch type of b with bool => destruct b eqn:? end
            end);
    repeat progress (cbn -[still_missing HasExpired];
                     rewrite ?Hcur, ?Hpend, ?Hasked, ?Hask);
    intros H; try discriminate H; injection H as <- <-;
    cbn -[still_missing HasExpired];
    (split; [|split]); intros; try contradiction; try discriminate;
    rewrite ?Hask; eauto 10.
Qed.

Lemma OnWaitForTransactions_asks_witness :
  current_block_ (Sample.coordinator (Some Sample.B1) None) = Some Sample.B1 ∧
  ∃ m', step Double.collaborators (Sample.cfg false false false) 7
             WAIT_FOR_TRANSACTIONS PRE_EXEC_BLOCK_VALIDATION
             (Sample.coordinator (Some Sample.B1) None) starved_world
        = Ok (WAIT_FOR_TRANSACTIONS, m') ∧
        List.filter asks_peers (calls m') = [] ∧
        have_asked_for_missing_txs_ (coord m') = false ∧
        wait_before_asking_for_missing_tx_ (coord m')
        = Restart 7 WAIT_BEFORE_ASKING_FOR_MISSING_TX_INTERVAL.
Proof.
  split; [reflexivity|].
  eexists. split; [vm_compute; reflexivity|].
  match goal with
  | |- List.filter _ (calls ?m) = _ ∧ _ =>
      destruct (OnWaitForTransactions_asks Double.collaborators
                  (Sample.cfg false false false) 7 PRE_EXEC_BLOCK_VALIDATION
                  (Sample.coordinator (Some Sample.B1) None) starved_world
                  Sample.B1 WAIT_FOR_TRANSACTIONS m eq_refl) as (Hfirst & _);
      [vm_compute; reflexivity|]
  end.
  apply Hfirst. discriminate.
Defined.
